(** * Policy API of the KES server (internal/api/policy.go)

    A shallow embedding of the nine policy handlers (assign, describe,
    read, write, delete, list and the three edge variants) as programs in
    a small state monad, and the properties of the specification proved
    about them.

    The handlers run against collaborators that live outside policy.go:
    the vault with its enclaves, the request parsing helpers, the verifier
    and the glob matcher of the Go standard library.  They are gathered in
    the class [Collaborators]; every theorem of the generic part holds for
    all of them.  [MemVault] is an in-memory implementation used for the
    store-level properties and to run the handlers on concrete requests. *)

From Stdlib Require Import ZArith Ascii String List Bool Lia.
From stdpp Require Import base option gmap strings.
Import ListNotations.

Local Open Scope Z_scope.
Local Open Scope string_scope.
Local Open Scope list_scope.

(** ** Values shared by all handlers *)

(** [kes.Identity] is a Go string type; [kes.IdentityUnknown] is the empty
    identity. *)
Definition Identity : Type := string.
Definition IdentityUnknown : Identity := "".
Definition IsUnknown (id : Identity) : bool := String.eqb id IdentityUnknown.
Definition Identity_String (id : Identity) : string := id.

(** [time.Time] as nanoseconds; [time.Duration] likewise. *)
Definition Time : Type := Z.
Definition zeroTime : Time := 0.
Definition Duration : Type := Z.

Module time.
Definition Second : Duration := 1000000000.
End time.

(** Sizes of [aead.dev/mem], counted in bytes. *)
Module mem.
Definition KiB : Z := 1024.
Definition MiB : Z := 1024 * KiB.
End mem.

Module http.
Definition MethodGet : string := "GET".
Definition MethodPost : string := "POST".
Definition MethodDelete : string := "DELETE".
Definition StatusOK : Z := 200.
Definition StatusBadRequest : Z := 400.
Definition StatusForbidden : Z := 403.
Definition StatusNotFound : Z := 404.
End http.

(** Go [error] values: the ones built by [kes.NewError] carry an HTTP
    status, every other error is opaque apart from its text. *)
Inductive error : Type :=
| kes_Error (code : Z) (msg : string)
| opaque_error (msg : string).

Module kes.
Definition NewError (code : Z) (msg : string) : error := kes_Error code msg.
End kes.

Definition Error (e : error) : string :=
  match e with
  | kes_Error _ msg => msg
  | opaque_error msg => msg
  end.

(** A Go result pair [(T, error)] in which the value is meaningful only
    when the error is nil. *)
Inductive Result (T : Type) : Type :=
| Ok (v : T)
| Err (e : error).
Arguments Ok {T} v.
Arguments Err {T} e.

(** [auth.Policy] *)
Record Policy : Type := mkPolicy {
  Allow : list string;
  Deny : list string;
  CreatedAt : Time;
  CreatedBy : Identity
}.

Definition Policy_zero : Policy :=
  {| Allow := []; Deny := []; CreatedAt := zeroTime; CreatedBy := "" |}.

(** A policy iterator: the names [Next]/[Name] yield until [Next] reports
    false, and what [Close] returns. *)
Record Iter : Type := mkIter {
  iter_names : list string;
  iter_Close : option error
}.

(** ** The response writer *)

(** The [Response] structs the handlers encode, one per JSON line. *)
Inductive Line : Type :=
| DescribeResponse (created_at : Time) (created_by : Identity)
| ReadResponse (allow deny : list string) (created_at : Time) (created_by : Identity)
| ListResponse (name : string) (created_at : Time) (created_by : Identity) (err : string).

(** [Response{Err: msg}]: every other field keeps its zero value. *)
Definition ErrorRecord (msg : string) : Line := ListResponse "" zeroTime "" msg.

(** An [http.ResponseWriter]: the header map under construction, the
    status line once committed together with the headers sent with it, the
    lines written so far, and how many more writes the connection takes
    ([None]: it never breaks). *)
Record ResponseWriter : Type := mkWriter {
  Header : gmap string string;
  committed : option (Z * gmap string string);
  body : list Line;
  quota : option nat
}.

Definition newWriter (q : option nat) : ResponseWriter :=
  {| Header := ∅; committed := None; body := []; quota := q |}.

Definition Header_Set (k v : string) (rw : ResponseWriter) : ResponseWriter :=
  {| Header := <[k := v]> (Header rw); committed := committed rw;
     body := body rw; quota := quota rw |}.

(** [WriteHeader] commits the status with the current header map; a second
    call is ignored by net/http. *)
Definition rw_WriteHeader (code : Z) (rw : ResponseWriter) : ResponseWriter :=
  match committed rw with
  | Some _ => rw
  | None => {| Header := Header rw; committed := Some (code, Header rw);
               body := body rw; quota := quota rw |}
  end.

Definition errBrokenPipe : error := opaque_error "write: broken pipe".

(** [Write] commits an implicit 200 first, then appends the line unless the
    connection is gone. *)
Definition rw_Write (l : Line) (rw : ResponseWriter) : ResponseWriter * option error :=
  let rw1 := rw_WriteHeader http.StatusOK rw in
  match quota rw1 with
  | Some O => (rw1, Some errBrokenPipe)
  | Some (S n) =>
      ({| Header := Header rw1; committed := committed rw1;
          body := body rw1 ++ [l]; quota := Some n |}, None)
  | None =>
      ({| Header := Header rw1; committed := committed rw1;
          body := body rw1 ++ [l]; quota := None |}, None)
  end.

Definition status (rw : ResponseWriter) : option Z := fst <$> committed rw.
Definition sentHeader (rw : ResponseWriter) (k : string) : option string :=
  match committed rw with
  | Some (_, h) => h !! k
  | None => None
  end.

(** ** The state monad of the handlers *)

Definition ST (S A : Type) : Type := S -> A * S.

Definition ret {S A} (a : A) : ST S A := fun s => (a, s).
Definition bind {S A B} (m : ST S A) (k : A -> ST S B) : ST S B :=
  fun s => let (a, s') := m s in k a s'.

Notation "'let!' x ':=' c 'in' k" := (bind c (fun x => k))
  (at level 10, x pattern, c at level 100, k at level 200).
Notation "c ';;;' k" := (bind c (fun _ => k))
  (at level 100, k at level 200, right associativity).

(** ** Collaborators *)

(** Everything policy.go calls but does not define.  The vault state is
    the heap the enclave handles point into; methods that the handlers call
    under a read lock are read-only functions of it, the three mutations
    return the new state together with their error. *)
Class Collaborators : Type := {
  Request : Type;
  Vault : Type;
  Enclave : Type;
  IdentitySet : Type;
  (* request helpers of package api *)
  nameFromRequest : Request -> string -> Result string;
  patternFromRequest : Request -> string -> Result string;
  enclaveFromRequest : Vault -> Request -> Result Enclave;
  verifyName : string -> option error;
  (* auth.Identify *)
  Identify : Request -> Identity;
  (* json.NewDecoder(r.Body).Decode(&req) for the two request bodies *)
  decodeAssign : Request -> Result Identity;
  decodeWrite : Request -> Result (list string * list string);
  (* r.ContentLength *)
  ContentLength : Request -> Z;
  (* sys.Vault and sys.Enclave *)
  Vault_Admin : Vault -> Result Identity;
  Enclave_VerifyRequest : Vault -> Enclave -> Request -> option error;
  Enclave_GetPolicy : Vault -> Enclave -> string -> Result Policy;
  Enclave_ListPolicies : Vault -> Enclave -> Result Iter;
  Enclave_SetPolicy : Vault -> Enclave -> string -> Policy -> Vault * option error;
  Enclave_DeletePolicy : Vault -> Enclave -> string -> Vault * option error;
  Enclave_AssignPolicy : Vault -> Enclave -> string -> Identity -> Vault * option error;
  (* path.Match of the Go standard library *)
  path_Match : string -> string -> bool * option error
}.

(** The policy and identity sets of an edge server. *)
Record PolicySet : Type := mkPolicySet {
  Policies_Get : string -> Result Policy;
  Policies_List : Result Iter
}.

Section Handlers.
Context `{C : Collaborators}.

(** ** Effects *)

Inductive Locker : Type :=
| Vault_RLocker
| Enclave_RLocker (e : Enclave)
| Enclave_Locker (e : Enclave).

(** What a handler does to shared state, in program order. *)
Inductive Event : Type :=
| EvLock (l : Locker)
| EvUnlock (l : Locker)
| EvResolve
| EvVerify (e : Enclave)
| EvAdmin
| EvGetPolicy (e : Enclave) (name : string)
| EvListPolicies (e : Enclave)
| EvClose
| EvSetPolicy (e : Enclave) (name : string) (p : Policy)
| EvDeletePolicy (e : Enclave) (name : string)
| EvAssignPolicy (e : Enclave) (name : string) (id : Identity)
| EvAuthVerify
| EvPoliciesGet (name : string)
| EvPoliciesList.

Record World : Type := mkWorld {
  vault : Vault;
  rw : ResponseWriter;
  trace : list Event;
  clock : Time
}.

Definition M (A : Type) : Type := ST World A.

Definition emit (ev : Event) : M unit :=
  fun s => (tt, {| vault := vault s; rw := rw s; trace := trace s ++ [ev]; clock := clock s |}).

Definition readVault {A} (f : Vault -> A) : M A := fun s => (f (vault s), s).

Definition updVault (f : Vault -> Vault * option error) : M (option error) :=
  fun s => let (v, err) := f (vault s) in
           (err, {| vault := v; rw := rw s; trace := trace s; clock := clock s |}).

Definition onWriter (f : ResponseWriter -> ResponseWriter) : M unit :=
  fun s => (tt, {| vault := vault s; rw := f (rw s); trace := trace s; clock := clock s |}).

Definition time_Now : M Time := fun s => (clock s, s).

(** [w.Header().Set], [w.WriteHeader] and [json.NewEncoder(w).Encode]. *)
Definition w_Header_Set (k v : string) : M unit := onWriter (Header_Set k v).
Definition w_WriteHeader (code : Z) : M unit := onWriter (rw_WriteHeader code).
Definition Encode (l : Line) : M (option error) :=
  fun s => let (rw', err) := rw_Write l (rw s) in
           (err, {| vault := vault s; rw := rw'; trace := trace s; clock := clock s |}).

(** Modelled from the spec: the two lock helpers of package api, which are
    not in policy.go.  Section 4.1: one runs a closure returning an error
    under an acquired lock, the other a closure returning a value and an
    error; both release the lock exactly once whatever the closure
    returns. *)
Definition Sync (l : Locker) (f : M (option error)) : M (option error) :=
  emit (EvLock l);;;
  let! err := f in
  emit (EvUnlock l);;;
  ret err.

(** Modelled from the spec: see [Sync]. *)
Definition VSync {V} (l : Locker) (f : M (V * option error)) : M (V * option error) :=
  emit (EvLock l);;;
  let! r := f in
  emit (EvUnlock l);;;
  ret r.

(** The collaborators as effects. *)
Definition resolveEnclave (r : Request) : M (Result Enclave) :=
  emit EvResolve;;; readVault (fun v => enclaveFromRequest v r).
Definition VerifyRequest (e : Enclave) (r : Request) : M (option error) :=
  emit (EvVerify e);;; readVault (fun v => Enclave_VerifyRequest v e r).
Definition Admin : M (Result Identity) :=
  emit EvAdmin;;; readVault Vault_Admin.
Definition GetPolicy (e : Enclave) (name : string) : M (Result Policy) :=
  emit (EvGetPolicy e name);;; readVault (fun v => Enclave_GetPolicy v e name).
Definition ListPolicies (e : Enclave) : M (Result Iter) :=
  emit (EvListPolicies e);;; readVault (fun v => Enclave_ListPolicies v e).
Definition SetPolicy (e : Enclave) (name : string) (p : Policy) : M (option error) :=
  emit (EvSetPolicy e name p);;; updVault (fun v => Enclave_SetPolicy v e name p).
Definition DeletePolicy (e : Enclave) (name : string) : M (option error) :=
  emit (EvDeletePolicy e name);;; updVault (fun v => Enclave_DeletePolicy v e name).
Definition AssignPolicy (e : Enclave) (name : string) (id : Identity) : M (option error) :=
  emit (EvAssignPolicy e name id);;; updVault (fun v => Enclave_AssignPolicy v e name id).
Definition iterator_Close (it : Iter) : M (option error) :=
  emit EvClose;;; ret (iter_Close it).

Definition HandlerFunc : Type := Request -> M (option error).

(** [API] as the constructors of policy.go fill it. *)
Record API : Type := mkAPI {
  Method : string;
  Path : string;
  MaxBody : Z;
  Timeout : Duration;
  Verify : bool;
  Handler : HandlerFunc
}.

(** The decorators every constructor wraps its handler in. *)
Record Instrumentation : Type := mkInstrumentation {
  Metrics_Count : HandlerFunc -> HandlerFunc;
  Metrics_Latency : HandlerFunc -> HandlerFunc;
  audit_Log : HandlerFunc -> HandlerFunc
}.

(** [RouterConfig]: its [Vault] is the vault of the world. *)
Record RouterConfig : Type := mkRouterConfig {
  router_instr : Instrumentation
}.

Record Config : Type := mkConfig { cfg_Timeout : Duration }.

Record EdgeRouterConfig : Type := mkEdgeRouterConfig {
  APIConfig : gmap string Config;
  Policies : PolicySet;
  Identities : IdentitySet;
  auth_VerifyRequest : Request -> PolicySet -> IdentitySet -> option error;
  edge_instr : Instrumentation
}.

Definition instrument (i : Instrumentation) (h : HandlerFunc) : HandlerFunc :=
  Metrics_Count i (Metrics_Latency i (audit_Log i h)).

(** ** assign *)

Definition assign_APIPath : string := "/v1/policy/assign/".

Definition errUnknownIdentity : error :=
  kes.NewError http.StatusBadRequest "identity is unknown".
Definition errSelfAssign : error :=
  kes.NewError http.StatusForbidden "identity cannot assign policy to itself".
Definition errAdminAssign : error :=
  kes.NewError http.StatusBadRequest "cannot assign policy to system admin".

Definition assignPolicy_locked (r : Request) (name : string) (enclave : Enclave)
  : M (option error) :=
  let! err := VerifyRequest enclave r in
  match err with
  | Some e => ret (Some e)
  | None =>
    match decodeAssign r with
    | Err e => ret (Some e)
    | Ok req_Identity =>
      match verifyName (Identity_String req_Identity) with
      | Some e => ret (Some e)
      | None =>
        if IsUnknown req_Identity then ret (Some errUnknownIdentity)
        else if String.eqb (Identify r) req_Identity then ret (Some errSelfAssign)
        else
          let! a := Admin in
          match a with
          | Err e => ret (Some e)
          | Ok admin =>
            if String.eqb admin req_Identity then ret (Some errAdminAssign)
            else AssignPolicy enclave name req_Identity
          end
      end
    end
  end.

Definition assignPolicy_handler : HandlerFunc := fun r =>
  match nameFromRequest r assign_APIPath with
  | Err e => ret (Some e)
  | Ok name =>
    let! err := Sync Vault_RLocker (
      let! en := resolveEnclave r in
      match en with
      | Err e => ret (Some e)
      | Ok enclave => Sync (Enclave_Locker enclave) (assignPolicy_locked r name enclave)
      end) in
    match err with
    | Some e => ret (Some e)
    | None => w_WriteHeader http.StatusOK;;; ret None
    end
  end.

Definition assignPolicy (config : RouterConfig) : API :=
  {| Method := http.MethodPost;
     Path := assign_APIPath;
     MaxBody := 1 * mem.KiB;
     Timeout := 15 * time.Second;
     Verify := true;
     Handler := instrument (router_instr config) assignPolicy_handler |}.

(** ** describe and read *)

Definition describe_APIPath : string := "/v1/policy/describe/".
Definition read_APIPath : string := "/v1/policy/read/".
Definition json_ContentType : string := "application/json".

(** A callee's [(auth.Policy, error)] returned as it is. *)
Definition pairOf (res : Result Policy) : Policy * option error :=
  match res with
  | Ok p => (p, None)
  | Err e => (Policy_zero, Some e)
  end.

(** The closure [describePolicy] and [readPolicy] share: both locks, the
    verification, then the lookup. *)
Definition lookupPolicy_locked (r : Request) (name : string) : M (Policy * option error) :=
  VSync Vault_RLocker (
    let! en := resolveEnclave r in
    match en with
    | Err e => ret (Policy_zero, Some e)
    | Ok enclave =>
      VSync (Enclave_RLocker enclave) (
        let! err := VerifyRequest enclave r in
        match err with
        | Some e => ret (Policy_zero, Some e)
        | None => let! res := GetPolicy enclave name in ret (pairOf res)
        end)
    end).

Definition describePolicy_handler : HandlerFunc := fun r =>
  match nameFromRequest r describe_APIPath with
  | Err e => ret (Some e)
  | Ok name =>
    let! out := lookupPolicy_locked r name in
    let '(policy, err) := out in
    match err with
    | Some e => ret (Some e)
    | None =>
      w_Header_Set "Content-Type" json_ContentType;;;
      w_WriteHeader http.StatusOK;;;
      Encode (DescribeResponse (CreatedAt policy) (CreatedBy policy));;;
      ret None
    end
  end.

Definition describePolicy (config : RouterConfig) : API :=
  {| Method := http.MethodGet;
     Path := describe_APIPath;
     MaxBody := 0;
     Timeout := 15 * time.Second;
     Verify := true;
     Handler := instrument (router_instr config) describePolicy_handler |}.

Definition readPolicy_handler : HandlerFunc := fun r =>
  match nameFromRequest r read_APIPath with
  | Err e => ret (Some e)
  | Ok name =>
    let! out := lookupPolicy_locked r name in
    let '(policy, err) := out in
    match err with
    | Some e => ret (Some e)
    | None =>
      w_Header_Set "Content-Type" json_ContentType;;;
      w_WriteHeader http.StatusOK;;;
      Encode (ReadResponse (Allow policy) (Deny policy)
                (CreatedAt policy) (CreatedBy policy));;;
      ret None
    end
  end.

Definition readPolicy (config : RouterConfig) : API :=
  {| Method := http.MethodGet;
     Path := read_APIPath;
     MaxBody := 0;
     Timeout := 15 * time.Second;
     Verify := true;
     Handler := instrument (router_instr config) readPolicy_handler |}.

(** The edge variants: no vault, no locks; the timeout may come from the
    configuration. *)
Definition edgeTimeout (config : EdgeRouterConfig) (APIPath : string) : Duration :=
  let Timeout := 15 * time.Second in
  match APIConfig config !! APIPath with
  | Some c => if (0 <? cfg_Timeout c)%Z then cfg_Timeout c else Timeout
  | None => Timeout
  end.

Definition edge_VerifyRequest (config : EdgeRouterConfig) (r : Request) : M (option error) :=
  emit EvAuthVerify;;;
  ret (auth_VerifyRequest config r (Policies config) (Identities config)).
Definition edge_Get (config : EdgeRouterConfig) (name : string) : M (Result Policy) :=
  emit (EvPoliciesGet name);;; ret (Policies_Get (Policies config) name).
Definition edge_List (config : EdgeRouterConfig) : M (Result Iter) :=
  emit EvPoliciesList;;; ret (Policies_List (Policies config)).

Definition edgeDescribePolicy_handler (config : EdgeRouterConfig) : HandlerFunc := fun r =>
  match nameFromRequest r describe_APIPath with
  | Err e => ret (Some e)
  | Ok name =>
    let! err := edge_VerifyRequest config r in
    match err with
    | Some e => ret (Some e)
    | None =>
      let! res := edge_Get config name in
      match res with
      | Err e => ret (Some e)
      | Ok policy =>
        w_Header_Set "Content-Type" json_ContentType;;;
        w_WriteHeader http.StatusOK;;;
        Encode (DescribeResponse (CreatedAt policy) (CreatedBy policy));;;
        ret None
      end
    end
  end.

Definition edgeDescribePolicy (config : EdgeRouterConfig) : API :=
  {| Method := http.MethodGet;
     Path := describe_APIPath;
     MaxBody := 0;
     Timeout := edgeTimeout config describe_APIPath;
     Verify := true;
     Handler := instrument (edge_instr config) (edgeDescribePolicy_handler config) |}.

Definition edgeReadPolicy_handler (config : EdgeRouterConfig) : HandlerFunc := fun r =>
  match nameFromRequest r read_APIPath with
  | Err e => ret (Some e)
  | Ok name =>
    let! err := edge_VerifyRequest config r in
    match err with
    | Some e => ret (Some e)
    | None =>
      let! res := edge_Get config name in
      match res with
      | Err e => ret (Some e)
      | Ok policy =>
        w_Header_Set "Content-Type" json_ContentType;;;
        w_WriteHeader http.StatusOK;;;
        Encode (ReadResponse (Allow policy) (Deny policy)
                  (CreatedAt policy) (CreatedBy policy));;;
        ret None
      end
    end
  end.

Definition edgeReadPolicy (config : EdgeRouterConfig) : API :=
  {| Method := http.MethodGet;
     Path := read_APIPath;
     MaxBody := 0;
     Timeout := edgeTimeout config read_APIPath;
     Verify := true;
     Handler := instrument (edge_instr config) (edgeReadPolicy_handler config) |}.

(** ** write and delete *)

Definition write_APIPath : string := "/v1/policy/write/".
Definition delete_APIPath : string := "/v1/policy/delete/".

Definition writePolicy_locked (r : Request) (name : string) (enclave : Enclave)
  : M (option error) :=
  let! err := VerifyRequest enclave r in
  match err with
  | Some e => ret (Some e)
  | None =>
    match decodeWrite r with
    | Err e => ret (Some e)
    | Ok (req_Allow, req_Deny) =>
      let! now := time_Now in
      SetPolicy enclave name
        {| Allow := req_Allow; Deny := req_Deny;
           CreatedAt := now; CreatedBy := Identify r |}
    end
  end.

Definition writePolicy_handler : HandlerFunc := fun r =>
  match nameFromRequest r write_APIPath with
  | Err e => ret (Some e)
  | Ok name =>
    let! err := Sync Vault_RLocker (
      let! en := resolveEnclave r in
      match en with
      | Err e => ret (Some e)
      | Ok enclave => Sync (Enclave_Locker enclave) (writePolicy_locked r name enclave)
      end) in
    match err with
    | Some e => ret (Some e)
    | None => w_WriteHeader http.StatusOK;;; ret None
    end
  end.

Definition writePolicy (config : RouterConfig) : API :=
  {| Method := http.MethodPost;
     Path := write_APIPath;
     MaxBody := 1 * mem.MiB;
     Timeout := 15 * time.Second;
     Verify := true;
     Handler := instrument (router_instr config) writePolicy_handler |}.

Definition deletePolicy_locked (r : Request) (name : string) (enclave : Enclave)
  : M (option error) :=
  let! err := VerifyRequest enclave r in
  match err with
  | Some e => ret (Some e)
  | None => DeletePolicy enclave name
  end.

Definition deletePolicy_handler : HandlerFunc := fun r =>
  match nameFromRequest r delete_APIPath with
  | Err e => ret (Some e)
  | Ok name =>
    let! err := Sync Vault_RLocker (
      let! en := resolveEnclave r in
      match en with
      | Err e => ret (Some e)
      | Ok enclave => Sync (Enclave_Locker enclave) (deletePolicy_locked r name enclave)
      end) in
    match err with
    | Some e => ret (Some e)
    | None => w_WriteHeader http.StatusOK;;; ret None
    end
  end.

Definition deletePolicy (config : RouterConfig) : API :=
  {| Method := http.MethodDelete;
     Path := delete_APIPath;
     MaxBody := 0;
     Timeout := 15 * time.Second;
     Verify := true;
     Handler := instrument (router_instr config) deletePolicy_handler |}.

(** ** list *)

Definition list_APIPath : string := "/v1/policy/list/".
Definition ndjson_ContentType : string := "application/x-ndjson".

(** The [for iterator.Next()] loop of [listPolicy] over the names still to
    come, ending in [return hasWritten, iterator.Close()]. *)
Fixpoint listPolicy_loop (enclave : Enclave) (pattern : string) (iterator : Iter)
    (names : list string) (hasWritten : bool) : M (bool * option error) :=
  match names with
  | [] => let! err := iterator_Close iterator in ret (hasWritten, err)
  | name :: rest =>
    let '(ok, _) := path_Match pattern name in
    if negb ok then listPolicy_loop enclave pattern iterator rest hasWritten
    else
      let! hasWritten :=
        (if negb hasWritten
         then w_Header_Set "Content-Type" ndjson_ContentType;;;
              w_WriteHeader http.StatusOK;;;
              ret true
         else ret hasWritten) in
      let! res := GetPolicy enclave name in
      match res with
      | Err e => ret (hasWritten, Some e)
      | Ok policy =>
        let! err := Encode (ListResponse name (CreatedAt policy) (CreatedBy policy) "") in
        match err with
        | Some e => ret (hasWritten, Some e)
        | None => listPolicy_loop enclave pattern iterator rest hasWritten
        end
      end
  end.

Definition listPolicy_locked (r : Request) (pattern : string) (enclave : Enclave)
  : M (bool * option error) :=
  let! err := VerifyRequest enclave r in
  match err with
  | Some e => ret (false, Some e)
  | None =>
    let! res := ListPolicies enclave in
    match res with
    | Err e => ret (false, Some e)
    | Ok iterator =>
      let! out := listPolicy_loop enclave pattern iterator (iter_names iterator) false in
      (* defer iterator.Close() *)
      iterator_Close iterator;;;
      ret out
    end
  end.

Definition listPolicy_handler : HandlerFunc := fun r =>
  match patternFromRequest r list_APIPath with
  | Err e => ret (Some e)
  | Ok pattern =>
    let! out := VSync Vault_RLocker (
      let! en := resolveEnclave r in
      match en with
      | Err e => ret (false, Some e)
      | Ok enclave => VSync (Enclave_RLocker enclave) (listPolicy_locked r pattern enclave)
      end) in
    let '(hasWritten, err) := out in
    match err with
    | Some e =>
      if hasWritten
      then Encode (ErrorRecord (Error e));;; ret None
      else ret (Some e)
    | None =>
      (if negb hasWritten then w_WriteHeader http.StatusOK else ret tt);;;
      ret None
    end
  end.

Definition listPolicy (config : RouterConfig) : API :=
  {| Method := http.MethodGet;
     Path := list_APIPath;
     MaxBody := 0;
     Timeout := 15 * time.Second;
     Verify := true;
     Handler := instrument (router_instr config) listPolicy_handler |}.

(** The loop of [edgeListPolicy] and the code after it; the handler
    returns from inside the loop on the first failure. *)
Fixpoint edgeListPolicy_loop (config : EdgeRouterConfig) (pattern : string)
    (iterator : Iter) (names : list string) (hasWritten : bool) : M (option error) :=
  match names with
  | [] =>
    let! err := iterator_Close iterator in
    match err with
    | Some e =>
      if hasWritten
      then Encode (ErrorRecord (Error e));;; ret None
      else ret (Some e)
    | None =>
      (if negb hasWritten
       then w_Header_Set "Content-Type" ndjson_ContentType;;;
            w_WriteHeader http.StatusOK
       else ret tt);;;
      ret None
    end
  | name :: rest =>
    let '(ok, _) := path_Match pattern name in
    if negb ok then edgeListPolicy_loop config pattern iterator rest hasWritten
    else
      (if negb hasWritten
       then w_Header_Set "Content-Type" ndjson_ContentType
       else ret tt);;;
      let hasWritten := true in
      let! res := edge_Get config name in
      match res with
      | Err e => Encode (ErrorRecord (Error e));;; ret None
      | Ok policy =>
        let! err := Encode (ListResponse name (CreatedAt policy) (CreatedBy policy) "") in
        match err with
        | Some _ => ret None
        | None => edgeListPolicy_loop config pattern iterator rest hasWritten
        end
      end
  end.

Definition edgeListPolicy_handler (config : EdgeRouterConfig) : HandlerFunc := fun r =>
  match patternFromRequest r list_APIPath with
  | Err e => ret (Some e)
  | Ok pattern =>
    let! err := edge_VerifyRequest config r in
    match err with
    | Some e => ret (Some e)
    | None =>
      let! res := edge_List config in
      match res with
      | Err e => ret (Some e)
      | Ok iterator =>
        w_Header_Set "Content-Type" ndjson_ContentType;;;
        let! out := edgeListPolicy_loop config pattern iterator (iter_names iterator) false in
        (* defer iterator.Close() *)
        iterator_Close iterator;;;
        ret out
      end
    end
  end.

Definition edgeListPolicy (config : EdgeRouterConfig) : API :=
  {| Method := http.MethodGet;
     Path := list_APIPath;
     MaxBody := 0;
     Timeout := edgeTimeout config list_APIPath;
     Verify := true;
     Handler := instrument (edge_instr config) (edgeListPolicy_handler config) |}.

(** ** Dispatch *)

Definition errBodyTooLarge : error := opaque_error "request body too large".

(** Modelled from the spec: the dispatch of an [API], which is not in
    policy.go.  Sections 5 and 8: a request whose body exceeds the
    operation's maximum body size is rejected without invoking the handler
    body at all. *)
Definition ServeHTTP (a : API) : HandlerFunc := fun r =>
  if (MaxBody a <? ContentLength r)%Z then ret (Some errBodyTooLarge)
  else Handler a r.

(** ** The operations of the vault router *)

Inductive Op : Type := OpAssign | OpDescribe | OpRead | OpWrite | OpDelete | OpList.

Definition router_API (op : Op) : RouterConfig -> API :=
  match op with
  | OpAssign => assignPolicy
  | OpDescribe => describePolicy
  | OpRead => readPolicy
  | OpWrite => writePolicy
  | OpDelete => deletePolicy
  | OpList => listPolicy
  end.

Definition router_handler (op : Op) : HandlerFunc :=
  match op with
  | OpAssign => assignPolicy_handler
  | OpDescribe => describePolicy_handler
  | OpRead => readPolicy_handler
  | OpWrite => writePolicy_handler
  | OpDelete => deletePolicy_handler
  | OpList => listPolicy_handler
  end.

Inductive EdgeOp : Type := EdgeDescribe | EdgeRead | EdgeList.

Definition edge_API (op : EdgeOp) : EdgeRouterConfig -> API :=
  match op with
  | EdgeDescribe => edgeDescribePolicy
  | EdgeRead => edgeReadPolicy
  | EdgeList => edgeListPolicy
  end.

Definition edge_handler (op : EdgeOp) (config : EdgeRouterConfig) : HandlerFunc :=
  match op with
  | EdgeDescribe => edgeDescribePolicy_handler config
  | EdgeRead => edgeReadPolicy_handler config
  | EdgeList => edgeListPolicy_handler config
  end.

Definition edge_Path (op : EdgeOp) : string :=
  match op with
  | EdgeDescribe => describe_APIPath
  | EdgeRead => read_APIPath
  | EdgeList => list_APIPath
  end.

(** Whether an operation mutates the enclave, and the enclave lock the
    interface table asks of it. *)
Definition is_mutation (op : Op) : bool :=
  match op with
  | OpAssign | OpWrite | OpDelete => true
  | OpDescribe | OpRead | OpList => false
  end.

Definition enclave_lock (op : Op) (e : Enclave) : Locker :=
  if is_mutation op then Enclave_Locker e else Enclave_RLocker e.

(** ** Vocabulary of the properties *)

(** Events that read or change vault and enclave state. *)
Definition is_access (ev : Event) : bool :=
  match ev with
  | EvAdmin | EvGetPolicy _ _ | EvListPolicies _ | EvClose
  | EvSetPolicy _ _ _ | EvDeletePolicy _ _ | EvAssignPolicy _ _ _ => true
  | _ => false
  end.

Definition is_lock_event (ev : Event) : bool :=
  match ev with
  | EvLock _ | EvUnlock _ => true
  | _ => false
  end.

Definition is_edge_access (ev : Event) : bool :=
  match ev with
  | EvPoliciesGet _ | EvPoliciesList | EvClose => true
  | _ => false
  end.

(** The three shapes the events of one request may take under the lock
    order vault, then enclave: nothing at all (the path did not parse), the
    vault read lock around a failed enclave resolution, or both locks
    around the verification followed by state accesses only. *)
Inductive lock_discipline (lock : Enclave -> Locker) : list Event -> Prop :=
| ld_unparsed : lock_discipline lock []
| ld_unresolved :
    lock_discipline lock [EvLock Vault_RLocker; EvResolve; EvUnlock Vault_RLocker]
| ld_locked (e : Enclave) (ops : list Event) :
    Forall (fun ev => is_access ev = true) ops ->
    lock_discipline lock
      ([EvLock Vault_RLocker; EvResolve; EvLock (lock e); EvVerify e]
         ++ ops ++ [EvUnlock (lock e); EvUnlock Vault_RLocker]).

(** The events of an edge request: nothing, or the verification followed
    by reads of the policy set. *)
Inductive edge_discipline : list Event -> Prop :=
| ed_unparsed : edge_discipline []
| ed_verified (ops : list Event) :
    Forall (fun ev => is_edge_access ev = true) ops ->
    edge_discipline (EvAuthVerify :: ops).

(** The path segment an operation parses before it takes any lock. *)
Definition router_parse (op : Op) (r : Request) : Result string :=
  match op with
  | OpAssign => nameFromRequest r assign_APIPath
  | OpDescribe => nameFromRequest r describe_APIPath
  | OpRead => nameFromRequest r read_APIPath
  | OpWrite => nameFromRequest r write_APIPath
  | OpDelete => nameFromRequest r delete_APIPath
  | OpList => patternFromRequest r list_APIPath
  end.

(** The body [Sync] and [VSync] have in common. *)
Definition locked {A} (l : Locker) (f : M A) : M A :=
  emit (EvLock l);;;
  let! a := f in
  emit (EvUnlock l);;;
  ret a.

(** The region the six router handlers share: the vault read lock, the
    enclave resolution, the enclave lock around [body]. *)
Definition under_locks {A} (lock : Enclave -> Locker) (fail : error -> A)
    (body : Enclave -> M A) (r : Request) : M A :=
  locked Vault_RLocker (
    let! en := resolveEnclave r in
    match en with
    | Err e => ret (fail e)
    | Ok enclave => locked (lock enclave) (body enclave)
    end).

(** How assign, write and delete answer after the locked region. *)
Definition status_tail (err : option error) : M (option error) :=
  match err with
  | Some e => ret (Some e)
  | None => w_WriteHeader http.StatusOK;;; ret None
  end.

(** The closure describe and read run under the enclave read lock, and
    how describe, read and list answer after the locked region. *)
Definition lookup_body (r : Request) (name : string) (enclave : Enclave)
  : M (Policy * option error) :=
  let! err := VerifyRequest enclave r in
  match err with
  | Some e => ret (Policy_zero, Some e)
  | None => let! res := GetPolicy enclave name in ret (pairOf res)
  end.

Definition describe_tail (out : Policy * option error) : M (option error) :=
  let '(policy, err) := out in
  match err with
  | Some e => ret (Some e)
  | None =>
    w_Header_Set "Content-Type" json_ContentType;;;
    w_WriteHeader http.StatusOK;;;
    Encode (DescribeResponse (CreatedAt policy) (CreatedBy policy));;;
    ret None
  end.

Definition read_tail (out : Policy * option error) : M (option error) :=
  let '(policy, err) := out in
  match err with
  | Some e => ret (Some e)
  | None =>
    w_Header_Set "Content-Type" json_ContentType;;;
    w_WriteHeader http.StatusOK;;;
    Encode (ReadResponse (Allow policy) (Deny policy) (CreatedAt policy) (CreatedBy policy));;;
    ret None
  end.

Definition list_tail (out : bool * option error) : M (option error) :=
  let '(hasWritten, err) := out in
  match err with
  | Some e =>
    if hasWritten
    then Encode (ErrorRecord (Error e));;; ret None
    else ret (Some e)
  | None =>
    (if negb hasWritten then w_WriteHeader http.StatusOK else ret tt);;;
    ret None
  end.

(** The world of the request that follows: the vault as the last request
    left it, a new response, a later clock. *)
Definition next_request (s : World) (q : option nat) (now : Time) : World :=
  {| vault := vault s; rw := newWriter q; trace := trace s; clock := now |}.

(** A computation that begins with the verification and goes on with
    state accesses only. *)
Definition verifies_first {A} (body : Enclave -> M A) : Prop :=
  forall enclave s, exists ops,
    trace (snd (body enclave s)) = trace s ++ EvVerify enclave :: ops
    /\ Forall (fun ev => is_access ev = true) ops.

(** A computation that leaves the trace alone. *)
Definition silent {A B} (k : A -> M B) : Prop :=
  forall a s, trace (snd (k a s)) = trace s.

Definition statusOf (res : option error) : option Z :=
  match res with
  | Some (kes_Error code _) => Some code
  | _ => None
  end.

Definition matches (pattern name : string) : bool := fst (path_Match pattern name).

(** What Go documents of [path.Match]: an error comes with [matched = false]. *)
Definition path_Match_contract : Prop :=
  forall pattern name matched e,
    path_Match pattern name = (matched, Some e) -> matched = false.

(** The writer after the first match of [listPolicy]. *)
Definition commit_ndjson (w : ResponseWriter) : ResponseWriter :=
  rw_WriteHeader http.StatusOK (Header_Set "Content-Type" ndjson_ContentType w).

Definition push (lines : list Line) (w : ResponseWriter) : ResponseWriter :=
  {| Header := Header w; committed := committed w;
     body := body w ++ lines; quota := quota w |}.

(** The success record of a name, if its policy can be fetched. *)
Definition record_of (v : Vault) (e : Enclave) (name : string) : list Line :=
  match Enclave_GetPolicy v e name with
  | Ok policy => [ListResponse name (CreatedAt policy) (CreatedBy policy) ""]
  | Err _ => []
  end.

Definition records (v : Vault) (e : Enclave) (pattern : string) (names : list string)
  : list Line :=
  flat_map (record_of v e) (List.filter (matches pattern) names).

(** The world [listPolicy]'s loop reaches after the names [names], all of
    them fetched and written: the header is committed at the first match
    unless it already was, one record is appended per match, one fetch is
    logged per match. *)
Definition listed (enclave : Enclave) (pattern : string) (hasWritten : bool)
    (s : World) (names : list string) : World :=
  {| vault := vault s;
     rw := push (records (vault s) enclave pattern names)
             (if hasWritten then rw s
              else if existsb (matches pattern) names then commit_ndjson (rw s)
              else rw s);
     trace := trace s ++ map (EvGetPolicy enclave) (List.filter (matches pattern) names);
     clock := clock s |}.

(** The world in which the loop of [listPolicy] starts: both read locks
    taken, the request verified, the iterator open. *)
Definition entered (enclave : Enclave) (s : World) : World :=
  {| vault := vault s; rw := rw s;
     trace := trace s ++ [EvLock Vault_RLocker; EvResolve; EvLock (Enclave_RLocker enclave);
                          EvVerify enclave; EvListPolicies enclave];
     clock := clock s |}.

(** What [listPolicy] does with the outcome of its loop: the deferred
    close, the two unlocks, then the error record, the error or the bare
    status. *)
Definition listPolicy_finish (enclave : Enclave) (out : (bool * option error) * World)
  : option error * World :=
  let '((hasWritten, err), s1) := out in
  let t2 := trace s1 ++ [EvClose; EvUnlock (Enclave_RLocker enclave); EvUnlock Vault_RLocker] in
  match err with
  | Some e =>
    if hasWritten
    then (None, {| vault := vault s1; rw := fst (rw_Write (ErrorRecord (Error e)) (rw s1));
                   trace := t2; clock := clock s1 |})
    else (Some e, {| vault := vault s1; rw := rw s1; trace := t2; clock := clock s1 |})
  | None =>
    (None, {| vault := vault s1;
              rw := if hasWritten then rw s1 else rw_WriteHeader http.StatusOK (rw s1);
              trace := t2; clock := clock s1 |})
  end.

(** The world in which the loop of [edgeListPolicy] starts. *)
Definition edge_entered (s : World) : World :=
  {| vault := vault s; rw := Header_Set "Content-Type" ndjson_ContentType (rw s);
     trace := trace s ++ [EvAuthVerify; EvPoliciesList];
     clock := clock s |}.

Definition edge_finish (out : option error * World) : option error * World :=
  let '(res, s1) := out in
  (res, {| vault := vault s1; rw := rw s1; trace := trace s1 ++ [EvClose];
           clock := clock s1 |}).

Definition fetchable (v : Vault) (e : Enclave) (pattern name : string) : Prop :=
  matches pattern name = true -> exists policy, Enclave_GetPolicy v e name = Ok policy.


Definition accepts_write (w : ResponseWriter) : bool :=
  match quota w with
  | Some O => false
  | _ => true
  end.

(** What a handler returns, the world it leaves, and the events it adds
    to the trace. *)
Definition result (h : HandlerFunc) (r : Request) (s : World) : option error :=
  fst (h r s).
Definition final (h : HandlerFunc) (r : Request) (s : World) : World :=
  snd (h r s).
Definition events (h : HandlerFunc) (r : Request) (s : World) : list Event :=
  drop (length (trace s)) (trace (final h r s)).

(** A describe or read answered with success: no error returned, status
    200 with the JSON content type, and the one line in the body unless the
    connection refused it. *)
Definition reports_success (h : HandlerFunc) (r : Request) (s : World) (l : Line) : Prop :=
  result h r s = None
  /\ status (rw (final h r s)) = Some http.StatusOK
  /\ sentHeader (rw (final h r s)) "Content-Type" = Some json_ContentType
  /\ body (rw (final h r s)) = body (rw s) ++ (if accepts_write (rw s) then [l] else []).

(** The world a describe or read leaves once the policy is found. *)
Definition answered (s : World) (l : Line) (t : list Event) : World :=
  {| vault := vault s;
     rw := fst (rw_Write l (rw_WriteHeader http.StatusOK
                              (Header_Set "Content-Type" json_ContentType (rw s))));
     trace := t; clock := clock s |}.

Definition is_assign (ev : Event) : bool :=
  match ev with
  | EvAssignPolicy _ _ _ => true
  | _ => false
  end.

End Handlers.

(** ** An in-memory vault *)

Module MemVault.

(** A request as the helpers of package api see it. *)
Inductive Body : Type :=
| NoBody
| AssignBody (identity : Identity)
| WriteBody (allow deny : list string)
| Garbage.

Record Req : Type := mkReq {
  req_name : string;
  req_enclave : string;
  req_peer : Identity;
  req_body : Body;
  req_length : Z
}.

(** Modelled from the spec: the enclave of section 3, whose implementation
    (package sys) is not in policy.go.  It owns the policies by name and
    the assignment of at most one policy per identity.  [unreadable] and
    [close_error] stand for the failures of the backing store: names whose
    metadata cannot be fetched, and what closing an iterator reports. *)
Record EnclaveState : Type := mkEnclave {
  policies : gmap string Policy;
  identityAssignments : gmap Identity string;
  unreadable : list string;
  close_error : option error
}.

(** Modelled from the spec: the vault of section 3, one admin identity
    and the enclaves by name. *)
Record VaultState : Type := mkVault {
  admin : Identity;
  enclaves : gmap string EnclaveState
}.

Definition errEnclaveNotFound : error :=
  kes.NewError http.StatusNotFound "enclave does not exist".
Definition errPolicyNotFound : error :=
  kes.NewError http.StatusNotFound "policy does not exist".
Definition errNotAllowed : error :=
  kes.NewError http.StatusForbidden "not authorized: insufficient permissions".
Definition errInvalidName : error :=
  kes.NewError http.StatusBadRequest "invalid argument: name contains invalid character".
Definition errDecode : error := opaque_error "json: cannot decode request body".
Definition errStore : error := opaque_error "store: read failed".
Definition ErrBadPattern : error := opaque_error "syntax error in pattern".

Fixpoint contains (c : ascii) (s : string) : bool :=
  match s with
  | EmptyString => false
  | String d s' => Ascii.eqb c d || contains c s'
  end.

(** Modelled from the spec: a well-formed resource name; here, one without
    a path separator. *)
Definition mem_verifyName (name : string) : option error :=
  if contains "/"%char name then Some errInvalidName else None.

Definition mem_nameFromRequest (r : Req) (APIPath : string) : Result string :=
  match mem_verifyName (req_name r) with
  | Some e => Err e
  | None => Ok (req_name r)
  end.

(** Modelled from the spec: the pattern defaults to match-all. *)
Definition mem_patternFromRequest (r : Req) (APIPath : string) : Result string :=
  match mem_verifyName (req_name r) with
  | Some e => Err e
  | None => Ok (if String.eqb (req_name r) "" then "*" else req_name r)
  end.

Definition mem_enclaveFromRequest (v : VaultState) (r : Req) : Result string :=
  match enclaves v !! req_enclave r with
  | Some _ => Ok (req_enclave r)
  | None => Err errEnclaveNotFound
  end.

Definition mem_decodeAssign (r : Req) : Result Identity :=
  match req_body r with
  | AssignBody id => Ok id
  | _ => Err errDecode
  end.

Definition mem_decodeWrite (r : Req) : Result (list string * list string) :=
  match req_body r with
  | WriteBody allow deny => Ok (allow, deny)
  | _ => Err errDecode
  end.

(** Modelled from the spec: a request is verified when its identity is the
    admin or holds an assignment in the enclave. *)
Definition mem_VerifyRequest (v : VaultState) (e : string) (r : Req) : option error :=
  if IsUnknown (req_peer r) then Some errNotAllowed
  else if String.eqb (req_peer r) (admin v) then None
  else match enclaves v !! e with
       | Some es =>
         match identityAssignments es !! req_peer r with
         | Some _ => None
         | None => Some errNotAllowed
         end
       | None => Some errEnclaveNotFound
       end.

(** Modelled from the spec: lookup by name, not found when absent. *)
Definition mem_GetPolicy (v : VaultState) (e : string) (name : string) : Result Policy :=
  match enclaves v !! e with
  | Some es =>
    if existsb (String.eqb name) (unreadable es) then Err errStore
    else match policies es !! name with
         | Some p => Ok p
         | None => Err errPolicyNotFound
         end
  | None => Err errEnclaveNotFound
  end.

Definition mem_ListPolicies (v : VaultState) (e : string) : Result Iter :=
  match enclaves v !! e with
  | Some es =>
    Ok {| iter_names := (map_to_list (policies es)).*1; iter_Close := close_error es |}
  | None => Err errEnclaveNotFound
  end.

Definition with_enclave (v : VaultState) (e : string) (es : EnclaveState) : VaultState :=
  {| admin := admin v; enclaves := <[e := es]> (enclaves v) |}.

Definition with_policy (es : EnclaveState) (name : string) (p : Policy) : EnclaveState :=
  {| policies := <[name := p]> (policies es);
     identityAssignments := identityAssignments es;
     unreadable := unreadable es;
     close_error := close_error es |}.

(** Modelled from the spec: a write wholly replaces the policy of that
    name. *)
Definition mem_SetPolicy (v : VaultState) (e : string) (name : string) (p : Policy)
  : VaultState * option error :=
  match enclaves v !! e with
  | Some es => (with_enclave v e (with_policy es name p), None)
  | None => (v, Some errEnclaveNotFound)
  end.

(** Modelled from the spec: deleting an absent policy is not found. *)
Definition mem_DeletePolicy (v : VaultState) (e : string) (name : string)
  : VaultState * option error :=
  match enclaves v !! e with
  | Some es =>
    match policies es !! name with
    | Some _ =>
      (with_enclave v e
         {| policies := delete name (policies es);
            identityAssignments := identityAssignments es;
            unreadable := unreadable es;
            close_error := close_error es |}, None)
    | None => (v, Some errPolicyNotFound)
    end
  | None => (v, Some errEnclaveNotFound)
  end.

(** Modelled from the spec: the policy must exist; the identity then
    holds exactly that policy. *)
Definition mem_AssignPolicy (v : VaultState) (e : string) (name : string) (id : Identity)
  : VaultState * option error :=
  match enclaves v !! e with
  | Some es =>
    match policies es !! name with
    | Some _ =>
      (with_enclave v e
         {| policies := policies es;
            identityAssignments := <[id := name]> (identityAssignments es);
            unreadable := unreadable es;
            close_error := close_error es |}, None)
    | None => (v, Some errPolicyNotFound)
    end
  | None => (v, Some errEnclaveNotFound)
  end.

(** A fragment of [path.Match]: literal characters, [?] and [*], neither
    of which crosses a slash.  Classes and escapes are not supported; a
    pattern using them is reported as Go reports a malformed pattern. *)
Fixpoint glob (pattern name : string) : bool :=
  match pattern with
  | EmptyString =>
    match name with
    | EmptyString => true
    | String _ _ => false
    end
  | String c pattern' =>
    if Ascii.eqb c "*"%char then
      (fix star (name : string) : bool :=
         glob pattern' name ||
         match name with
         | EmptyString => false
         | String d name' => negb (Ascii.eqb d "/"%char) && star name'
         end) name
    else
      match name with
      | EmptyString => false
      | String d name' =>
        (if Ascii.eqb c "?"%char then negb (Ascii.eqb d "/"%char) else Ascii.eqb c d)
        && glob pattern' name'
      end
  end.

Definition mem_Match (pattern name : string) : bool * option error :=
  if contains "["%char pattern || contains "\"%char pattern
  then (false, Some ErrBadPattern)
  else (glob pattern name, None).

#[export] Instance memVault : Collaborators := {|
  Request := Req;
  Vault := VaultState;
  Enclave := string;
  IdentitySet := gmap Identity string;
  nameFromRequest := mem_nameFromRequest;
  patternFromRequest := mem_patternFromRequest;
  enclaveFromRequest := mem_enclaveFromRequest;
  verifyName := mem_verifyName;
  Identify := req_peer;
  decodeAssign := mem_decodeAssign;
  decodeWrite := mem_decodeWrite;
  ContentLength := req_length;
  Vault_Admin := fun v => Ok (admin v);
  Enclave_VerifyRequest := mem_VerifyRequest;
  Enclave_GetPolicy := mem_GetPolicy;
  Enclave_ListPolicies := mem_ListPolicies;
  Enclave_SetPolicy := mem_SetPolicy;
  Enclave_DeletePolicy := mem_DeletePolicy;
  Enclave_AssignPolicy := mem_AssignPolicy;
  path_Match := mem_Match
|}.

(** The edge server: a policy set and the identities allowed in. *)
Definition mem_Policies (ps : gmap string Policy) (bad : list string)
    (closing : option error) : PolicySet :=
  {| Policies_Get := fun name =>
       if existsb (String.eqb name) bad then Err errStore
       else match ps !! name with
            | Some p => Ok p
            | None => Err errPolicyNotFound
            end;
     Policies_List := Ok {| iter_names := (map_to_list ps).*1; iter_Close := closing |} |}.

Definition mem_auth_VerifyRequest (r : Req) (ps : PolicySet) (ids : gmap Identity string)
  : option error :=
  if IsUnknown (req_peer r) then Some errNotAllowed
  else match ids !! req_peer r with
       | Some _ => None
       | None => Some errNotAllowed
       end.

Definition plain : Instrumentation (C := memVault) :=
  {| Metrics_Count := fun h => h; Metrics_Latency := fun h => h; audit_Log := fun h => h |}.

Definition mem_edge (timeouts : gmap string Config) (ps : gmap string Policy)
    (bad : list string) (closing : option error) (ids : gmap Identity string)
  : EdgeRouterConfig (C := memVault) :=
  {| APIConfig := timeouts;
     Policies := mem_Policies ps bad closing;
     Identities := ids;
     auth_VerifyRequest := mem_auth_VerifyRequest;
     edge_instr := plain |}.

(** *** A tenant to run the handlers on *)

Definition readonly : Policy :=
  {| Allow := ["/v1/key/read/*"]; Deny := []; CreatedAt := 1700000000; CreatedBy := "admin" |}.
Definition ops : Policy :=
  {| Allow := ["/v1/key/*"]; Deny := ["/v1/key/delete/*"]; CreatedAt := 1700000001;
     CreatedBy := "admin" |}.

Definition tenant (bad : list string) (closing : option error) : EnclaveState :=
  {| policies := {[ "ops" := ops; "readonly" := readonly ]};
     identityAssignments := {[ "alice" := "readonly" ]};
     unreadable := bad;
     close_error := closing |}.

Definition demo_vault (bad : list string) (closing : option error) : VaultState :=
  {| admin := "admin"; enclaves := {[ "tenant" := tenant bad closing ]} |}.

Definition world (v : VaultState) (q : option nat) (now : Time) : World (C := memVault) :=
  {| vault := v; rw := newWriter q; trace := []; clock := now |}.

Definition request (name : string) (peer : Identity) (b : Body) : Req :=
  {| req_name := name; req_enclave := "tenant"; req_peer := peer;
     req_body := b; req_length := 0 |}.

Definition demo_edge (bad : list string) (closing : option error) : EdgeRouterConfig :=
  mem_edge ∅ {[ "ops" := ops; "readonly" := readonly ]} bad closing {[ "alice" := "readonly" ]}.

Definition quiet : World := world (demo_vault [] None) None 1700000100.

(** A world whose client has gone away: every write fails. *)
Definition hung_up : World := world (demo_vault [] None) (Some 0%nat) 1700000100.

Definition describe_readonly : Req := request "readonly" "alice" NoBody.

(** An assign request announcing a body of two KiB. *)
Definition oversized : Req :=
  {| req_name := "readonly"; req_enclave := "tenant"; req_peer := "admin";
     req_body := AssignBody "bob"; req_length := 2048 |}.

Definition router : RouterConfig := {| router_instr := plain |}.

(** An edge server configured with a describe timeout of 30 seconds. *)
Definition slow_edge : EdgeRouterConfig :=
  mem_edge {[ describe_APIPath := {| cfg_Timeout := 30 * time.Second |} ]}
    {[ "readonly" := readonly ]} [] None {[ "alice" := "readonly" ]}.

(** Listing everything, on the vault and on the edge. *)
Definition list_all : Req := request "*" "admin" NoBody.
Definition edge_list_all : Req := request "*" "alice" NoBody.
(** Listing with a malformed pattern and with one that matches nothing. *)
Definition list_malformed : Req := request "[" "admin" NoBody.
Definition list_none : Req := request "zz*" "admin" NoBody.

(** The same tenant with a policy that cannot be fetched. *)
Definition broken (name : string) : World := world (demo_vault [name] None) None 1700000100.

(** Two writes of the same policy, by the admin and then by alice. *)
Definition write_first : Req :=
  request "readonly" "admin" (WriteBody ["/v1/key/read/*"; "/v1/key/list/*"] []).
Definition write_second : Req :=
  request "readonly" "alice" (WriteBody ["/v1/key/read/*"] ["/v1/key/read/secret*"]).

(** The admin assigning a policy to the admin, and alice doing so. *)
Definition admin_to_admin : Req := request "readonly" "admin" (AssignBody "admin").
Definition alice_to_admin : Req := request "readonly" "alice" (AssignBody "admin").

End MemVault.


(** ** The lines on the wire *)

(** What encoding/json writes for a [Response] struct: one member per
    field, in the order of declaration, under the key of the field's tag.
    A field tagged [omitempty] is left out when its value is empty; a
    string and a slice can be empty, a struct such as [time.Time] never is,
    so that [created_at] is written whatever its value.  The [name] of a
    list record carries no [omitempty]. *)
Inductive JSON : Type :=
| JString (s : string)
| JTime (t : Time)
| JStrings (l : list string).

Definition Member : Type := (string * JSON)%type.

Definition omitempty_string (key v : string) : list Member :=
  if String.eqb v "" then [] else [(key, JString v)].

Definition omitempty_slice (key : string) (v : list string) : list Member :=
  match v with
  | [] => []
  | _ :: _ => [(key, JStrings v)]
  end.

Definition json_Marshal (l : Line) : list Member :=
  match l with
  | DescribeResponse created_at created_by =>
    [("created_at", JTime created_at)] ++ omitempty_string "created_by" created_by
  | ReadResponse allow deny created_at created_by =>
    omitempty_slice "allow" allow ++ omitempty_slice "deny" deny
      ++ [("created_at", JTime created_at)] ++ omitempty_string "created_by" created_by
  | ListResponse name created_at created_by err =>
    [("name", JString name); ("created_at", JTime created_at)]
      ++ omitempty_string "created_by" created_by ++ omitempty_string "error" err
  end.

(** The keys of a line, in the order they are written. *)
Definition json_keys (l : Line) : list string := map fst (json_Marshal l).

(** ** Further vocabulary *)

Section MoreVocabulary.
Context `{C : Collaborators}.

(** The failures [listPolicy] answers by returning the error: the pattern
    does not parse, the enclave does not resolve, the request is not
    verified, the iterator does not open, or it fails to close after a
    run in which no name matched. *)
Inductive list_refusal (r : Request) (s : World) (e : error) : Prop :=
| refused_pattern :
    patternFromRequest r list_APIPath = Err e -> list_refusal r s e
| refused_enclave (pattern : string) :
    patternFromRequest r list_APIPath = Ok pattern ->
    enclaveFromRequest (vault s) r = Err e -> list_refusal r s e
| refused_request (pattern : string) (enclave : Enclave) :
    patternFromRequest r list_APIPath = Ok pattern ->
    enclaveFromRequest (vault s) r = Ok enclave ->
    Enclave_VerifyRequest (vault s) enclave r = Some e -> list_refusal r s e
| refused_iterator (pattern : string) (enclave : Enclave) :
    patternFromRequest r list_APIPath = Ok pattern ->
    enclaveFromRequest (vault s) r = Ok enclave ->
    Enclave_VerifyRequest (vault s) enclave r = None ->
    Enclave_ListPolicies (vault s) enclave = Err e -> list_refusal r s e
| refused_close (pattern : string) (enclave : Enclave) (it : Iter) :
    patternFromRequest r list_APIPath = Ok pattern ->
    enclaveFromRequest (vault s) r = Ok enclave ->
    Enclave_VerifyRequest (vault s) enclave r = None ->
    Enclave_ListPolicies (vault s) enclave = Ok it ->
    Forall (fun n => matches pattern n = false) (iter_names it) ->
    iter_Close it = Some e -> list_refusal r s e.

(** The same for [edgeListPolicy], which resolves no enclave. *)
Inductive edge_list_refusal (config : EdgeRouterConfig) (r : Request) (e : error) : Prop :=
| edge_refused_pattern :
    patternFromRequest r list_APIPath = Err e -> edge_list_refusal config r e
| edge_refused_request (pattern : string) :
    patternFromRequest r list_APIPath = Ok pattern ->
    auth_VerifyRequest config r (Policies config) (Identities config) = Some e ->
    edge_list_refusal config r e
| edge_refused_iterator (pattern : string) :
    patternFromRequest r list_APIPath = Ok pattern ->
    auth_VerifyRequest config r (Policies config) (Identities config) = None ->
    Policies_List (Policies config) = Err e -> edge_list_refusal config r e
| edge_refused_close (pattern : string) (it : Iter) :
    patternFromRequest r list_APIPath = Ok pattern ->
    auth_VerifyRequest config r (Policies config) (Identities config) = None ->
    Policies_List (Policies config) = Ok it ->
    Forall (fun n => matches pattern n = false) (iter_names it) ->
    iter_Close it = Some e -> edge_list_refusal config r e.

(** The path segment an edge operation parses first. *)
Definition edge_parse (op : EdgeOp) (r : Request) : Result string :=
  match op with
  | EdgeDescribe => nameFromRequest r describe_APIPath
  | EdgeRead => nameFromRequest r read_APIPath
  | EdgeList => patternFromRequest r list_APIPath
  end.

(** The events one request adds once both locks are held and the
    verification is done, [ops] being what the operation does in between. *)
Definition locked_events (lock : Enclave -> Locker) (enclave : Enclave) (ops : list Event)
  : list Event :=
  [EvLock Vault_RLocker; EvResolve; EvLock (lock enclave); EvVerify enclave]
    ++ ops ++ [EvUnlock (lock enclave); EvUnlock Vault_RLocker].

Definition is_mutation_event (ev : Event) : bool :=
  match ev with
  | EvSetPolicy _ _ _ | EvDeletePolicy _ _ | EvAssignPolicy _ _ _ => true
  | _ => false
  end.

(** The policy a write request stores. *)
Definition written_policy (r : Request) (s : World) (allow deny : list string) : Policy :=
  {| Allow := allow; Deny := deny; CreatedAt := clock s; CreatedBy := Identify r |}.

(** A computation that only reads: it leaves the vault as it is and logs
    no mutation. *)
Definition read_only {A} (m : M A) : Prop :=
  forall s,
    vault (snd (m s)) = vault s
    /\ exists ops,
        trace (snd (m s)) = trace s ++ ops
        /\ Forall (fun ev => is_mutation_event ev = false) ops.

(** How a handler's outcome and its response go together: an error is
    returned with nothing committed and nothing added to the body, success
    with status 200 committed. *)
Definition answers (h : HandlerFunc) (r : Request) (s : World) : Prop :=
  match result h r s with
  | Some _ =>
    committed (rw (final h r s)) = None /\ body (rw (final h r s)) = body (rw s)
  | None => status (rw (final h r s)) = Some http.StatusOK
  end.

(** The name a list record carries. *)
Definition record_name (l : Line) : string :=
  match l with
  | ListResponse name _ _ _ => name
  | _ => ""
  end.

(** The success record of a name on the edge, if its policy can be
    fetched, and the records of the names a pattern matches. *)
Definition edge_record_of (config : EdgeRouterConfig) (name : string) : list Line :=
  match Policies_Get (Policies config) name with
  | Ok policy => [ListResponse name (CreatedAt policy) (CreatedBy policy) ""]
  | Err _ => []
  end.

Definition edge_records (config : EdgeRouterConfig) (pattern : string) (names : list string)
  : list Line :=
  flat_map (edge_record_of config) (List.filter (matches pattern) names).

Definition edge_fetchable (config : EdgeRouterConfig) (pattern name : string) : Prop :=
  matches pattern name = true -> exists policy, Policies_Get (Policies config) name = Ok policy.

(** The world the loop of [edgeListPolicy] reaches after the names
    [names], all of them fetched and written: the first record commits the
    status with the headers set so far. *)
Definition edge_listed (config : EdgeRouterConfig) (pattern : string) (hasWritten : bool)
    (s : World) (names : list string) : World :=
  {| vault := vault s;
     rw := push (edge_records config pattern names)
             (if hasWritten then rw s
              else if existsb (matches pattern) names then commit_ndjson (rw s)
              else rw s);
     trace := trace s ++ map EvPoliciesGet (List.filter (matches pattern) names);
     clock := clock s |}.

(** An edge configuration with the entry of one path replaced. *)
Definition configure (config : EdgeRouterConfig) (APIPath : string) (c : Config)
  : EdgeRouterConfig :=
  {| APIConfig := <[APIPath := c]> (APIConfig config);
     Policies := Policies config;
     Identities := Identities config;
     auth_VerifyRequest := auth_VerifyRequest config;
     edge_instr := edge_instr config |}.

End MoreVocabulary.

(** ** More requests for the in-memory vault *)

Module MemRuns.

(** A client that holds no assignment, a request for an enclave that does
    not exist, and one whose name does not parse. *)
Definition stranger_delete : MemVault.Req :=
  MemVault.request "readonly" "mallory" MemVault.NoBody.
Definition lost : MemVault.Req :=
  {| MemVault.req_name := "readonly"; MemVault.req_enclave := "nowhere";
     MemVault.req_peer := "admin"; MemVault.req_body := MemVault.NoBody;
     MemVault.req_length := 0 |}.
Definition unparsed : MemVault.Req := MemVault.request "a/b" "admin" MemVault.NoBody.

Definition describe_missing : MemVault.Req :=
  MemVault.request "missing" "alice" MemVault.NoBody.
Definition admin_to_bob : MemVault.Req :=
  MemVault.request "readonly" "admin" (MemVault.AssignBody "bob").
Definition delete_ops : MemVault.Req := MemVault.request "ops" "admin" MemVault.NoBody.


End MemRuns.
(** * Properties *)

(** Unfold the effects of the monad down to functions on worlds. *)
Ltac unfold_effects :=
  unfold Sync, VSync, resolveEnclave, VerifyRequest, Admin, GetPolicy, ListPolicies,
    SetPolicy, DeletePolicy, AssignPolicy, iterator_Close, w_Header_Set, w_WriteHeader,
    Encode, time_Now, onWriter, updVault, readVault, emit,
    edge_VerifyRequest, edge_Get, edge_List, bind, ret in *.

(** Bring the trace of a run to the form old events, then new ones. *)
Ltac trace_tail :=
  simpl; rewrite <- ?app_assoc; simpl; try rewrite drop_app_length; simpl.

Section AssignProperties.
Context `{C : Collaborators}.

(** Every way [assignPolicy_locked] can run when the decoded target is
    rejected by one of the identity checks: an error, the vault as it was,
    the verification as only event or the verification and the admin
    lookup. *)
Lemma assignPolicy_locked_rejects (r : Request) (name : string) (enclave : Enclave)
    (s : World) (target : Identity) :
  decodeAssign r = Ok target ->
  IsUnknown target = true \/ Identify r = target \/ Vault_Admin (vault s) = Ok target ->
  exists e t,
    assignPolicy_locked r name enclave s =
      (Some e, {| vault := vault s; rw := rw s; trace := trace s ++ EvVerify enclave :: t;
                  clock := clock s |})
    /\ (t = [] \/ t = [EvAdmin]).
Proof.
  intros Hdec Hrej. unfold assignPolicy_locked. unfold_effects. simpl.
  destruct (Enclave_VerifyRequest (vault s) enclave r) as [e|].
  { exists e, []. split; [reflexivity | now left]. }
  rewrite Hdec.
  destruct (verifyName (Identity_String target)) as [e|].
  { exists e, []. split; [reflexivity | now left]. }
  destruct (IsUnknown target) eqn:Hunk.
  { exists errUnknownIdentity, []. split; [reflexivity | now left]. }
  destruct (String.eqb (Identify r) target) eqn:Hself.
  { exists errSelfAssign, []. split; [reflexivity | now left]. }
  destruct Hrej as [Hrej | [Hrej | Hrej]].
  - discriminate.
  - apply String.eqb_neq in Hself. contradiction.
  - simpl. rewrite Hrej. rewrite String.eqb_refl.
    exists errAdminAssign, [EvAdmin]. split; [|now right].
    rewrite <- app_assoc. reflexivity.
Qed.

(** The same for the whole handler: it fails, leaves vault and writer
    alone and never reaches [AssignPolicy]. *)
Lemma assignPolicy_handler_rejects (r : Request) (s : World) (target : Identity) :
  decodeAssign r = Ok target ->
  IsUnknown target = true \/ Identify r = target \/ Vault_Admin (vault s) = Ok target ->
  result assignPolicy_handler r s <> None
  /\ vault (final assignPolicy_handler r s) = vault s
  /\ rw (final assignPolicy_handler r s) = rw s
  /\ Forall (fun ev => is_assign ev = false) (events assignPolicy_handler r s).
Proof.
  intros Hdec Hrej. unfold events, result, final, assignPolicy_handler.
  unfold_effects.
  destruct (nameFromRequest r assign_APIPath) as [name|e].
  2:{ simpl. rewrite drop_all. repeat split; [discriminate | constructor]. }
  simpl.
  destruct (enclaveFromRequest (vault s) r) as [enclave|e].
  2:{ trace_tail. repeat split; [discriminate | repeat constructor]. }
  simpl.
  match goal with
  | |- context [assignPolicy_locked r name enclave ?s1] =>
    destruct (assignPolicy_locked_rejects r name enclave s1 target Hdec) as (e & t & Heq & Ht);
      [exact Hrej | rewrite Heq]
  end.
  trace_tail. repeat split; [discriminate |].
  destruct Ht as [-> | ->]; repeat constructor.
Qed.

(** What the handler answers once the request is parsed, resolved,
    verified and decoded, by the first identity check that fails. *)
Lemma assignPolicy_handler_checks (r : Request) (s : World) (name : string)
    (enclave : Enclave) (target : Identity) :
  nameFromRequest r assign_APIPath = Ok name ->
  enclaveFromRequest (vault s) r = Ok enclave ->
  Enclave_VerifyRequest (vault s) enclave r = None ->
  decodeAssign r = Ok target ->
  verifyName (Identity_String target) = None ->
  (IsUnknown target = true ->
     result assignPolicy_handler r s = Some errUnknownIdentity
     /\ events assignPolicy_handler r s =
         [EvLock Vault_RLocker; EvResolve; EvLock (Enclave_Locker enclave); EvVerify enclave;
          EvUnlock (Enclave_Locker enclave); EvUnlock Vault_RLocker])
  /\ (IsUnknown target = false -> Identify r = target ->
     result assignPolicy_handler r s = Some errSelfAssign
     /\ events assignPolicy_handler r s =
         [EvLock Vault_RLocker; EvResolve; EvLock (Enclave_Locker enclave); EvVerify enclave;
          EvUnlock (Enclave_Locker enclave); EvUnlock Vault_RLocker])
  /\ (IsUnknown target = false -> Identify r <> target ->
     Vault_Admin (vault s) = Ok target ->
     result assignPolicy_handler r s = Some errAdminAssign
     /\ events assignPolicy_handler r s =
         [EvLock Vault_RLocker; EvResolve; EvLock (Enclave_Locker enclave); EvVerify enclave;
          EvAdmin; EvUnlock (Enclave_Locker enclave); EvUnlock Vault_RLocker]).
Proof.
  intros Hname Henc Hver Hdec Hvn.
  unfold events, result, final, assignPolicy_handler, assignPolicy_locked.
  rewrite Hname. unfold_effects. simpl. rewrite Henc. simpl. rewrite Hver, Hdec, Hvn.
  split; [intros Hunk | split; [intros Hunk Hid | intros Hunk Hne Hadm]];
    rewrite Hunk.
  - split; [reflexivity | trace_tail; reflexivity].
  - rewrite Hid, String.eqb_refl. split; [reflexivity | trace_tail; reflexivity].
  - apply String.eqb_neq in Hne. rewrite Hne. simpl.
    rewrite Hadm, String.eqb_refl. split; [reflexivity | trace_tail; reflexivity].
Qed.

(** C1.  An assign request whose target is the requester's own identity
    never succeeds and changes neither the vault nor the response; once it
    is parsed, resolved and verified and the identity is a well-formed known
    one, the failure is the forbidden self-assignment, reported without the
    admin being looked up: so also when the requester is the admin,
    where it is not the admin bad-request failure. *)
Theorem assign_to_self_forbidden (r : Request) (s : World) :
  decodeAssign r = Ok (Identify r) ->
  (result assignPolicy_handler r s <> None
   /\ vault (final assignPolicy_handler r s) = vault s
   /\ rw (final assignPolicy_handler r s) = rw s
   /\ Forall (fun ev => is_assign ev = false) (events assignPolicy_handler r s))
  /\ (forall name enclave,
        nameFromRequest r assign_APIPath = Ok name ->
        enclaveFromRequest (vault s) r = Ok enclave ->
        Enclave_VerifyRequest (vault s) enclave r = None ->
        verifyName (Identity_String (Identify r)) = None ->
        IsUnknown (Identify r) = false ->
        result assignPolicy_handler r s = Some errSelfAssign
        /\ statusOf (result assignPolicy_handler r s) = Some http.StatusForbidden
        /\ ~ In EvAdmin (events assignPolicy_handler r s)
        /\ (Vault_Admin (vault s) = Ok (Identify r) ->
            result assignPolicy_handler r s <> Some errAdminAssign)).
Proof.
  intros Hdec. split.
  - apply (assignPolicy_handler_rejects r s (Identify r) Hdec). right. now left.
  - intros name enclave Hname Henc Hver Hvn Hunk.
    destruct (assignPolicy_handler_checks r s name enclave (Identify r)
                Hname Henc Hver Hdec Hvn) as (_ & Hself & _).
    destruct (Hself Hunk eq_refl) as [Hres Hev].
    rewrite Hres, Hev. repeat split.
    + simpl. intros H. repeat (destruct H as [H | H]; [discriminate |]). exact H.
    + intros _. discriminate.
Qed.

(** C2, as amended.  An assign request whose target is the unknown identity
    or the admin never succeeds and changes nothing, whoever sends it.  Once
    it reaches the identity checks, the unknown target is a bad request
    before requester and admin are looked at; the admin target is a bad
    request for every requester but the admin, who gets the forbidden
    self-assignment failure first. *)
Theorem assign_to_protected_identity (r : Request) (s : World) (target : Identity) :
  decodeAssign r = Ok target ->
  (IsUnknown target = true \/ Vault_Admin (vault s) = Ok target ->
   result assignPolicy_handler r s <> None
   /\ vault (final assignPolicy_handler r s) = vault s
   /\ rw (final assignPolicy_handler r s) = rw s
   /\ Forall (fun ev => is_assign ev = false) (events assignPolicy_handler r s))
  /\ (forall name enclave,
        nameFromRequest r assign_APIPath = Ok name ->
        enclaveFromRequest (vault s) r = Ok enclave ->
        Enclave_VerifyRequest (vault s) enclave r = None ->
        verifyName (Identity_String target) = None ->
        (IsUnknown target = true ->
           result assignPolicy_handler r s = Some errUnknownIdentity
           /\ statusOf (result assignPolicy_handler r s) = Some http.StatusBadRequest
           /\ ~ In EvAdmin (events assignPolicy_handler r s))
        /\ (IsUnknown target = false -> Vault_Admin (vault s) = Ok target ->
             Identify r <> target ->
             result assignPolicy_handler r s = Some errAdminAssign
             /\ statusOf (result assignPolicy_handler r s) = Some http.StatusBadRequest)
        /\ (IsUnknown target = false -> Vault_Admin (vault s) = Ok target ->
             Identify r = target ->
             statusOf (result assignPolicy_handler r s) = Some http.StatusForbidden)).
Proof.
  intros Hdec. split.
  - intros Hrej. apply (assignPolicy_handler_rejects r s target Hdec).
    destruct Hrej as [H | H]; [now left | now right; right].
  - intros name enclave Hname Henc Hver Hvn.
    destruct (assignPolicy_handler_checks r s name enclave target
                Hname Henc Hver Hdec Hvn) as (Hunknown & Hself & Hadmin).
    split; [intros Hunk | split; [intros Hunk Hadm Hne | intros Hunk _ Hid]].
    + destruct (Hunknown Hunk) as [Hres Hev]. rewrite Hres, Hev.
      split; [reflexivity | split; [reflexivity |]].
      simpl. intros H. repeat (destruct H as [H | H]; [discriminate |]). exact H.
    + destruct (Hadmin Hunk Hne Hadm) as [Hres _]. rewrite Hres. split; reflexivity.
    + destruct (Hself Hunk Hid) as [Hres _]. rewrite Hres. reflexivity.
Qed.

End AssignProperties.


Section LookupProperties.
Context `{C : Collaborators}.

(** Writing one line to a writer that has sent nothing yet, after the
    handler set the content type and the status. *)
Lemma first_line_written (w : ResponseWriter) (l : Line) (ct : string) :
  committed w = None ->
  let w' := fst (rw_Write l (rw_WriteHeader http.StatusOK (Header_Set "Content-Type" ct w))) in
  status w' = Some http.StatusOK
  /\ sentHeader w' "Content-Type" = Some ct
  /\ body w' = body w ++ (if accepts_write w then [l] else []).
Proof.
  intros Hc. unfold rw_Write, rw_WriteHeader, Header_Set, status, sentHeader, accepts_write.
  simpl. rewrite Hc. simpl.
  destruct (quota w) as [[|n]|]; simpl; rewrite ?lookup_insert_eq, ?app_nil_r; auto.
Qed.

(** A writer that takes no more writes makes [Encode] fail. *)
Lemma Encode_hung_up (l : Line) (s : World) :
  quota (rw s) = Some 0%nat -> fst (Encode l s) = Some errBrokenPipe.
Proof.
  intros Hq. unfold Encode, rw_Write, rw_WriteHeader.
  destruct (committed (rw s)); simpl; rewrite Hq; reflexivity.
Qed.

Lemma lookupPolicy_locked_found (r : Request) (s : World) (name : string)
    (enclave : Enclave) (policy : Policy) :
  enclaveFromRequest (vault s) r = Ok enclave ->
  Enclave_VerifyRequest (vault s) enclave r = None ->
  Enclave_GetPolicy (vault s) enclave name = Ok policy ->
  exists t, lookupPolicy_locked r name s =
    ((policy, None), {| vault := vault s; rw := rw s; trace := t; clock := clock s |}).
Proof.
  intros Henc Hver Hget. unfold lookupPolicy_locked. unfold_effects. simpl.
  rewrite Henc. simpl. rewrite Hver. simpl. rewrite Hget. simpl. eexists. reflexivity.
Qed.

Lemma answered_reports (h : HandlerFunc) (r : Request) (s : World) (l : Line)
    (t : list Event) :
  committed (rw s) = None ->
  h r s = (None, answered s l t) ->
  reports_success h r s l.
Proof.
  intros Hc Heq. unfold reports_success, result, final. rewrite Heq. simpl.
  split; [reflexivity |]. apply first_line_written. exact Hc.
Qed.

Lemma describePolicy_handler_found (r : Request) (s : World) (name : string)
    (enclave : Enclave) (policy : Policy) :
  nameFromRequest r describe_APIPath = Ok name ->
  enclaveFromRequest (vault s) r = Ok enclave ->
  Enclave_VerifyRequest (vault s) enclave r = None ->
  Enclave_GetPolicy (vault s) enclave name = Ok policy ->
  exists t, describePolicy_handler r s =
    (None, answered s (DescribeResponse (CreatedAt policy) (CreatedBy policy)) t).
Proof.
  intros Hname Henc Hver Hget.
  destruct (lookupPolicy_locked_found r s name enclave policy Henc Hver Hget) as [t Heq].
  exists t. unfold describePolicy_handler. rewrite Hname. unfold bind at 1. rewrite Heq.
  unfold_effects. unfold answered. simpl.
  destruct (rw_Write _ _). reflexivity.
Qed.

Lemma readPolicy_handler_found (r : Request) (s : World) (name : string)
    (enclave : Enclave) (policy : Policy) :
  nameFromRequest r read_APIPath = Ok name ->
  enclaveFromRequest (vault s) r = Ok enclave ->
  Enclave_VerifyRequest (vault s) enclave r = None ->
  Enclave_GetPolicy (vault s) enclave name = Ok policy ->
  exists t, readPolicy_handler r s =
    (None, answered s (ReadResponse (Allow policy) (Deny policy)
                         (CreatedAt policy) (CreatedBy policy)) t).
Proof.
  intros Hname Henc Hver Hget.
  destruct (lookupPolicy_locked_found r s name enclave policy Henc Hver Hget) as [t Heq].
  exists t. unfold readPolicy_handler. rewrite Hname. unfold bind at 1. rewrite Heq.
  unfold_effects. unfold answered. simpl.
  destruct (rw_Write _ _). reflexivity.
Qed.

Lemma edgeDescribePolicy_handler_found (config : EdgeRouterConfig) (r : Request)
    (s : World) (name : string) (policy : Policy) :
  nameFromRequest r describe_APIPath = Ok name ->
  auth_VerifyRequest config r (Policies config) (Identities config) = None ->
  Policies_Get (Policies config) name = Ok policy ->
  exists t, edgeDescribePolicy_handler config r s =
    (None, answered s (DescribeResponse (CreatedAt policy) (CreatedBy policy)) t).
Proof.
  intros Hname Hver Hget. unfold edgeDescribePolicy_handler. rewrite Hname.
  unfold_effects. unfold answered. simpl. rewrite Hver, Hget. simpl.
  destruct (rw_Write _ _). eexists. reflexivity.
Qed.

Lemma edgeReadPolicy_handler_found (config : EdgeRouterConfig) (r : Request)
    (s : World) (name : string) (policy : Policy) :
  nameFromRequest r read_APIPath = Ok name ->
  auth_VerifyRequest config r (Policies config) (Identities config) = None ->
  Policies_Get (Policies config) name = Ok policy ->
  exists t, edgeReadPolicy_handler config r s =
    (None, answered s (ReadResponse (Allow policy) (Deny policy)
                         (CreatedAt policy) (CreatedBy policy)) t).
Proof.
  intros Hname Hver Hget. unfold edgeReadPolicy_handler. rewrite Hname.
  unfold_effects. unfold answered. simpl. rewrite Hver, Hget. simpl.
  destruct (rw_Write _ _). eexists. reflexivity.
Qed.

(** C10.  A describe or read request whose lookup succeeds is answered
    with success whatever becomes of the encoding: the handler returns no
    error and the status sent is 200, also when the connection refuses the
    body and [Encode] fails.  The same holds for the edge handlers. *)
Theorem lookup_success_is_reported (r : Request) (s : World) (name : string)
    (policy : Policy) :
  committed (rw s) = None ->
  (forall enclave,
     enclaveFromRequest (vault s) r = Ok enclave ->
     Enclave_VerifyRequest (vault s) enclave r = None ->
     Enclave_GetPolicy (vault s) enclave name = Ok policy ->
     (nameFromRequest r describe_APIPath = Ok name ->
      reports_success describePolicy_handler r s
        (DescribeResponse (CreatedAt policy) (CreatedBy policy)))
     /\ (nameFromRequest r read_APIPath = Ok name ->
         reports_success readPolicy_handler r s
           (ReadResponse (Allow policy) (Deny policy) (CreatedAt policy) (CreatedBy policy))))
  /\ (forall config,
        auth_VerifyRequest config r (Policies config) (Identities config) = None ->
        Policies_Get (Policies config) name = Ok policy ->
        (nameFromRequest r describe_APIPath = Ok name ->
         reports_success (edgeDescribePolicy_handler config) r s
           (DescribeResponse (CreatedAt policy) (CreatedBy policy)))
        /\ (nameFromRequest r read_APIPath = Ok name ->
            reports_success (edgeReadPolicy_handler config) r s
              (ReadResponse (Allow policy) (Deny policy) (CreatedAt policy)
                 (CreatedBy policy)))).
Proof.
  intros Hc. split.
  - intros enclave Henc Hver Hget. split; intros Hname.
    + destruct (describePolicy_handler_found r s name enclave policy Hname Henc Hver Hget)
        as [t Heq].
      exact (answered_reports _ r s _ t Hc Heq).
    + destruct (readPolicy_handler_found r s name enclave policy Hname Henc Hver Hget)
        as [t Heq].
      exact (answered_reports _ r s _ t Hc Heq).
  - intros config Hver Hget. split; intros Hname.
    + destruct (edgeDescribePolicy_handler_found config r s name policy Hname Hver Hget)
        as [t Heq].
      exact (answered_reports _ r s _ t Hc Heq).
    + destruct (edgeReadPolicy_handler_found config r s name policy Hname Hver Hget)
        as [t Heq].
      exact (answered_reports _ r s _ t Hc Heq).
Qed.

(** C8, as amended.  The six operations of the vault router carry a
    timeout of 15 seconds and the body bounds of the interface table.  The
    three edge operations accept no body and keep the 15 seconds unless the
    configuration names a positive timeout for their path, which then
    replaces it.  A request longer than the bound of its operation is
    turned away by the dispatch with the handler left out. *)
Theorem api_limits :
  (forall op config,
     Timeout (router_API op config) = 15 * time.Second
     /\ MaxBody (router_API op config) =
        match op with
        | OpAssign => 1 * mem.KiB
        | OpWrite => 1 * mem.MiB
        | OpDescribe | OpRead | OpDelete | OpList => 0
        end)
  /\ (forall op config,
        MaxBody (edge_API op config) = 0
        /\ (APIConfig config !! edge_Path op = None ->
            Timeout (edge_API op config) = 15 * time.Second)
        /\ (forall c, APIConfig config !! edge_Path op = Some c ->
            (0 < cfg_Timeout c -> Timeout (edge_API op config) = cfg_Timeout c)
            /\ (cfg_Timeout c <= 0 -> Timeout (edge_API op config) = 15 * time.Second)))
  /\ (forall (a : API) (r : Request) (s : World),
        MaxBody a < ContentLength r ->
        ServeHTTP a r s = (Some errBodyTooLarge, s)).
Proof.
  split; [| split].
  - intros [] config; split; reflexivity.
  - intros [] config; (split; [reflexivity |]); simpl; unfold edgeTimeout;
      (split; [intros -> ; reflexivity |]);
      intros c ->; (split; intros Hc);
        [ apply Z.ltb_lt in Hc | apply Z.ltb_ge in Hc
        | apply Z.ltb_lt in Hc | apply Z.ltb_ge in Hc
        | apply Z.ltb_lt in Hc | apply Z.ltb_ge in Hc ];
        rewrite Hc; reflexivity.
  - intros a r s Hlen. unfold ServeHTTP. apply Z.ltb_lt in Hlen. rewrite Hlen. reflexivity.
Qed.

End LookupProperties.

Section ListProperties.
Context `{C : Collaborators}.

(** *** The writer *)

Lemma rw_Write_committed (l : Line) (w : ResponseWriter) (c : Z * gmap string string) :
  committed w = Some c -> committed (fst (rw_Write l w)) = Some c.
Proof.
  intros Hc. unfold rw_Write, rw_WriteHeader. rewrite Hc.
  destruct (quota w) as [[|n]|]; simpl; exact Hc.
Qed.

Lemma rw_Write_healthy (l : Line) (w : ResponseWriter) :
  quota w = None -> committed w <> None -> rw_Write l w = (push [l] w, None).
Proof.
  intros Hq Hc. unfold rw_Write, rw_WriteHeader, push.
  destruct (committed w) eqn:Hcw; [| contradiction].
  rewrite Hq. rewrite Hcw. reflexivity.
Qed.

Lemma rw_Write_first (l : Line) (w : ResponseWriter) :
  quota w = None -> committed w = None ->
  rw_Write l w =
    ({| Header := Header w; committed := Some (http.StatusOK, Header w);
        body := body w ++ [l]; quota := None |}, None).
Proof.
  intros Hq Hc. unfold rw_Write, rw_WriteHeader. rewrite Hc. simpl. rewrite Hq. reflexivity.
Qed.

Lemma commit_ndjson_committed (w : ResponseWriter) :
  committed w = None ->
  committed (commit_ndjson w) =
    Some (http.StatusOK, <["Content-Type" := ndjson_ContentType]> (Header w)).
Proof.
  intros Hc. unfold commit_ndjson, rw_WriteHeader, Header_Set. simpl. rewrite Hc. reflexivity.
Qed.

Lemma commit_ndjson_stable (w : ResponseWriter) (c : Z * gmap string string) :
  committed w = Some c -> committed (commit_ndjson w) = Some c.
Proof.
  intros Hc. unfold commit_ndjson, rw_WriteHeader, Header_Set. simpl. rewrite Hc. reflexivity.
Qed.

Lemma commit_ndjson_quota (w : ResponseWriter) : quota (commit_ndjson w) = quota w.
Proof.
  unfold commit_ndjson, rw_WriteHeader, Header_Set. simpl.
  destruct (committed w); reflexivity.
Qed.

Lemma commit_ndjson_body (w : ResponseWriter) : body (commit_ndjson w) = body w.
Proof.
  unfold commit_ndjson, rw_WriteHeader, Header_Set. simpl.
  destruct (committed w); reflexivity.
Qed.

Lemma push_push (a b : list Line) (w : ResponseWriter) :
  push b (push a w) = push (a ++ b) w.
Proof. unfold push. simpl. rewrite <- app_assoc. reflexivity. Qed.

Lemma push_nil (w : ResponseWriter) : push [] w = w.
Proof. destruct w. unfold push. simpl. rewrite app_nil_r. reflexivity. Qed.

(** *** Names the pattern does not match *)

Lemma listPolicy_loop_skip (enclave : Enclave) (pattern : string) (it : Iter)
    (pre rest : list string) (hasWritten : bool) (s : World) :
  Forall (fun n => matches pattern n = false) pre ->
  listPolicy_loop enclave pattern it (pre ++ rest) hasWritten s =
  listPolicy_loop enclave pattern it rest hasWritten s.
Proof.
  induction 1 as [| name pre Hname _ IH]; [reflexivity |].
  simpl. unfold matches in Hname.
  destruct (path_Match pattern name) as [ok e]. simpl in Hname. subst ok. simpl. exact IH.
Qed.

Lemma edgeListPolicy_loop_skip (config : EdgeRouterConfig) (pattern : string) (it : Iter)
    (pre rest : list string) (hasWritten : bool) (s : World) :
  Forall (fun n => matches pattern n = false) pre ->
  edgeListPolicy_loop config pattern it (pre ++ rest) hasWritten s =
  edgeListPolicy_loop config pattern it rest hasWritten s.
Proof.
  induction 1 as [| name pre Hname _ IH]; [reflexivity |].
  simpl. unfold matches in Hname.
  destruct (path_Match pattern name) as [ok e]. simpl in Hname. subst ok. simpl. exact IH.
Qed.

(** *** One matching name *)

Lemma listPolicy_loop_match (enclave : Enclave) (pattern : string) (it : Iter)
    (name : string) (rest : list string) (hasWritten : bool) (s : World) :
  matches pattern name = true ->
  listPolicy_loop enclave pattern it (name :: rest) hasWritten s =
    let w1 := if hasWritten then rw s else commit_ndjson (rw s) in
    let t1 := trace s ++ [EvGetPolicy enclave name] in
    match Enclave_GetPolicy (vault s) enclave name with
    | Err e => ((true, Some e), {| vault := vault s; rw := w1; trace := t1; clock := clock s |})
    | Ok policy =>
      match rw_Write (ListResponse name (CreatedAt policy) (CreatedBy policy) "") w1 with
      | (w2, Some e) =>
        ((true, Some e), {| vault := vault s; rw := w2; trace := t1; clock := clock s |})
      | (w2, None) =>
        listPolicy_loop enclave pattern it rest true
          {| vault := vault s; rw := w2; trace := t1; clock := clock s |}
      end
    end.
Proof.
  intros Hname. simpl. unfold matches in Hname.
  destruct (path_Match pattern name) as [ok e]. simpl in Hname. subst ok. simpl.
  unfold_effects. unfold commit_ndjson.
  destruct hasWritten; simpl;
    destruct (Enclave_GetPolicy (vault s) enclave name) as [policy | e']; simpl;
      try reflexivity;
      destruct (rw_Write _ _) as [w2 [e'' |]]; reflexivity.
Qed.

Lemma records_cons_skip (v : Vault) (enclave : Enclave) (pattern name : string)
    (names : list string) :
  matches pattern name = false ->
  records v enclave pattern (name :: names) = records v enclave pattern names.
Proof. intros H. unfold records. simpl. rewrite H. reflexivity. Qed.

Lemma records_cons_match (v : Vault) (enclave : Enclave) (pattern name : string)
    (names : list string) (policy : Policy) :
  matches pattern name = true ->
  Enclave_GetPolicy v enclave name = Ok policy ->
  records v enclave pattern (name :: names) =
    ListResponse name (CreatedAt policy) (CreatedBy policy) ""
      :: records v enclave pattern names.
Proof.
  intros H Hget. unfold records. simpl. rewrite H. simpl.
  unfold record_of at 1. rewrite Hget. reflexivity.
Qed.



Lemma edgeListPolicy_loop_match (config : EdgeRouterConfig) (pattern : string) (it : Iter)
    (name : string) (rest : list string) (hasWritten : bool) (s : World) :
  matches pattern name = true ->
  edgeListPolicy_loop config pattern it (name :: rest) hasWritten s =
    let w1 := if hasWritten then rw s
              else Header_Set "Content-Type" ndjson_ContentType (rw s) in
    let t1 := trace s ++ [EvPoliciesGet name] in
    match Policies_Get (Policies config) name with
    | Err e =>
      (None, {| vault := vault s; rw := fst (rw_Write (ErrorRecord (Error e)) w1);
                trace := t1; clock := clock s |})
    | Ok policy =>
      match rw_Write (ListResponse name (CreatedAt policy) (CreatedBy policy) "") w1 with
      | (w2, Some _) => (None, {| vault := vault s; rw := w2; trace := t1; clock := clock s |})
      | (w2, None) =>
        edgeListPolicy_loop config pattern it rest true
          {| vault := vault s; rw := w2; trace := t1; clock := clock s |}
      end
    end.
Proof.
  intros Hname. simpl. unfold matches in Hname.
  destruct (path_Match pattern name) as [ok e]. simpl in Hname. subst ok. simpl.
  unfold_effects.
  destruct hasWritten; simpl;
    destruct (Policies_Get (Policies config) name) as [policy | e']; simpl;
      destruct (rw_Write _ _) as [w2 [e'' |]]; reflexivity.
Qed.

(** *** A run of names that can all be fetched *)

Lemma listPolicy_loop_prefix (enclave : Enclave) (pattern : string) (it : Iter)
    (pre rest : list string) :
  forall (hasWritten : bool) (s : World),
    quota (rw s) = None ->
    (if hasWritten then committed (rw s) <> None else committed (rw s) = None) ->
    Forall (fetchable (vault s) enclave pattern) pre ->
    listPolicy_loop enclave pattern it (pre ++ rest) hasWritten s =
    listPolicy_loop enclave pattern it rest
      (hasWritten || existsb (matches pattern) pre)
      (listed enclave pattern hasWritten s pre).
Proof.
  induction pre as [| name pre IH]; intros hasWritten s Hq Hc Hfetch.
  - simpl. rewrite orb_false_r. f_equal.
    unfold listed, records. simpl. rewrite app_nil_r.
    destruct s as [v w t c]. simpl.
    destruct hasWritten; rewrite push_nil; reflexivity.
  - apply Forall_cons in Hfetch. destruct Hfetch as [Hname Hfetch].
    destruct (matches pattern name) eqn:Hm.
    + change ((name :: pre) ++ rest) with (name :: (pre ++ rest)).
      rewrite (listPolicy_loop_match _ _ _ _ _ _ _ Hm). cbv zeta.
      destruct (Hname Hm) as [policy Hget]. rewrite Hget.
      set (w1 := if hasWritten then rw s else commit_ndjson (rw s)).
      assert (Hq1 : quota w1 = None).
      { subst w1. destruct hasWritten; [exact Hq | rewrite commit_ndjson_quota; exact Hq]. }
      assert (Hc1 : committed w1 <> None).
      { subst w1. destruct hasWritten; [exact Hc |].
        rewrite (commit_ndjson_committed _ Hc). discriminate. }
      rewrite (rw_Write_healthy _ _ Hq1 Hc1).
      rewrite IH; simpl; [| exact Hq1 | exact Hc1 | exact Hfetch].
      rewrite Hm. rewrite orb_true_r. simpl. f_equal.
      unfold listed. simpl. rewrite Hm. simpl.
      rewrite (records_cons_match _ _ _ _ _ policy Hm Hget).
      rewrite push_push. rewrite <- app_assoc. reflexivity.
    + change ((name :: pre) ++ rest) with ([name] ++ (pre ++ rest)).
      rewrite listPolicy_loop_skip; [| repeat constructor; exact Hm].
      rewrite IH; [| exact Hq | exact Hc | exact Hfetch].
      simpl. rewrite Hm. simpl. f_equal.
      unfold listed. simpl. rewrite Hm. rewrite (records_cons_skip _ _ _ _ _ Hm).
      reflexivity.
Qed.

(** *** Once the header is committed it stays *)

Lemma listPolicy_loop_committed (enclave : Enclave) (pattern : string) (it : Iter)
    (names : list string) (c : Z * gmap string string) :
  forall (hasWritten : bool) (s : World),
    committed (rw s) = Some c ->
    committed (rw (snd (listPolicy_loop enclave pattern it names hasWritten s))) = Some c.
Proof.
  induction names as [| name names IH]; intros hasWritten s Hc.
  - exact Hc.
  - destruct (matches pattern name) eqn:Hm.
    + rewrite (listPolicy_loop_match _ _ _ _ _ _ _ Hm). cbv zeta.
      assert (Hc1 : committed (if hasWritten then rw s else commit_ndjson (rw s)) = Some c).
      { destruct hasWritten; [exact Hc | apply commit_ndjson_stable; exact Hc]. }
      destruct (Enclave_GetPolicy (vault s) enclave name) as [policy | e]; [| exact Hc1].
      match goal with
      | |- context [rw_Write ?l ?w] =>
        pose proof (rw_Write_committed l w c Hc1) as Hw; destruct (rw_Write l w) as [w2 [e |]]
      end; simpl in Hw; [exact Hw |].
      apply IH. exact Hw.
    + change (name :: names) with ([name] ++ names).
      rewrite listPolicy_loop_skip; [| repeat constructor; exact Hm].
      apply IH. exact Hc.
Qed.

Lemma listPolicy_loop_flag (enclave : Enclave) (pattern : string) (it : Iter)
    (names : list string) :
  forall (s : World), fst (fst (listPolicy_loop enclave pattern it names true s)) = true.
Proof.
  induction names as [| name names IH]; intros s.
  - reflexivity.
  - destruct (matches pattern name) eqn:Hm.
    + rewrite (listPolicy_loop_match _ _ _ _ _ _ _ Hm). cbv zeta.
      destruct (Enclave_GetPolicy (vault s) enclave name) as [policy | e]; [| reflexivity].
      destruct (rw_Write _ _) as [w2 [e |]]; [reflexivity | apply IH].
    + change (name :: names) with ([name] ++ names).
      rewrite listPolicy_loop_skip; [| repeat constructor; exact Hm].
      apply IH.
Qed.

(** *** The handlers around their loops *)

Lemma listPolicy_handler_enters (r : Request) (s : World) (pattern : string)
    (enclave : Enclave) (it : Iter) :
  patternFromRequest r list_APIPath = Ok pattern ->
  enclaveFromRequest (vault s) r = Ok enclave ->
  Enclave_VerifyRequest (vault s) enclave r = None ->
  Enclave_ListPolicies (vault s) enclave = Ok it ->
  listPolicy_handler r s =
    listPolicy_finish enclave
      (listPolicy_loop enclave pattern it (iter_names it) false (entered enclave s)).
Proof.
  intros Hpat Henc Hver Hlist.
  unfold listPolicy_handler, listPolicy_locked. rewrite Hpat.
  unfold_effects. simpl. rewrite Henc. simpl. rewrite Hver. simpl. rewrite Hlist.
  unfold entered. rewrite <- !app_assoc. simpl.
  destruct (listPolicy_loop _ _ _ _ _ _) as [[hasWritten err] s1]. simpl.
  rewrite <- !app_assoc. simpl.
  destruct err as [e |], hasWritten; simpl; try reflexivity.
  destruct (rw_Write _ _). reflexivity.
Qed.

Lemma edgeListPolicy_handler_enters (config : EdgeRouterConfig) (r : Request) (s : World)
    (pattern : string) (it : Iter) :
  patternFromRequest r list_APIPath = Ok pattern ->
  auth_VerifyRequest config r (Policies config) (Identities config) = None ->
  Policies_List (Policies config) = Ok it ->
  edgeListPolicy_handler config r s =
    edge_finish (edgeListPolicy_loop config pattern it (iter_names it) false (edge_entered s)).
Proof.
  intros Hpat Hver Hlist.
  unfold edgeListPolicy_handler. rewrite Hpat.
  unfold_effects. simpl. rewrite Hver. simpl. rewrite Hlist.
  unfold edge_entered, edge_finish. rewrite <- !app_assoc. simpl.
  destruct (edgeListPolicy_loop _ _ _ _ _ _) as [res s1]. reflexivity.
Qed.

(** *** Complete runs of [listPolicy] *)

Lemma records_none (v : Vault) (enclave : Enclave) (pattern : string) (names : list string) :
  existsb (matches pattern) names = false ->
  records v enclave pattern names = [] /\ List.filter (matches pattern) names = [].
Proof.
  unfold records. induction names as [| name names IH]; simpl; [auto |].
  destruct (matches pattern name); simpl; [discriminate | exact IH].
Qed.

(** The loop stopped by a fetch that fails, after names that could all be
    fetched. *)
Lemma listPolicy_loop_fetch_fails (enclave : Enclave) (pattern : string) (it : Iter)
    (pre post : list string) (name : string) (e : error) (s : World) :
  quota (rw s) = None ->
  committed (rw s) = None ->
  Forall (fetchable (vault s) enclave pattern) pre ->
  matches pattern name = true ->
  Enclave_GetPolicy (vault s) enclave name = Err e ->
  listPolicy_loop enclave pattern it (pre ++ name :: post) false s =
    ((true, Some e),
     {| vault := vault s;
        rw := push (records (vault s) enclave pattern pre) (commit_ndjson (rw s));
        trace := trace s ++ map (EvGetPolicy enclave) (List.filter (matches pattern) pre)
                   ++ [EvGetPolicy enclave name];
        clock := clock s |}).
Proof.
  intros Hq Hc Hfetch Hm Hget.
  rewrite (listPolicy_loop_prefix _ _ _ _ _ false s Hq Hc Hfetch).
  rewrite (listPolicy_loop_match _ _ _ _ _ _ _ Hm). cbv zeta.
  unfold listed at 1. cbn [vault]. rewrite Hget.
  unfold listed. cbn [vault rw trace clock]. rewrite <- app_assoc.
  destruct (existsb (matches pattern) pre) eqn:Hex; cbn [orb].
  - reflexivity.
  - destruct (records_none (vault s) enclave pattern pre Hex) as [-> ->].
    rewrite !push_nil. reflexivity.
Qed.

(** The loop running to the end. *)
Lemma listPolicy_loop_complete (enclave : Enclave) (pattern : string) (it : Iter)
    (names : list string) (s : World) :
  quota (rw s) = None ->
  committed (rw s) = None ->
  Forall (fetchable (vault s) enclave pattern) names ->
  listPolicy_loop enclave pattern it names false s =
    ((existsb (matches pattern) names, iter_Close it),
     {| vault := vault s;
        rw := push (records (vault s) enclave pattern names)
                (if existsb (matches pattern) names then commit_ndjson (rw s) else rw s);
        trace := trace s ++ map (EvGetPolicy enclave) (List.filter (matches pattern) names)
                   ++ [EvClose];
        clock := clock s |}).
Proof.
  intros Hq Hc Hfetch.
  rewrite <- (app_nil_r names) at 1.
  rewrite (listPolicy_loop_prefix _ _ _ _ _ false s Hq Hc Hfetch).
  simpl. unfold_effects. unfold listed. simpl. rewrite <- app_assoc. reflexivity.
Qed.

Lemma push_commit_written (lines : list Line) (w : ResponseWriter) (l : Line) :
  quota w = None -> committed w = None ->
  fst (rw_Write l (push lines (commit_ndjson w))) = push (lines ++ [l]) (commit_ndjson w).
Proof.
  intros Hq Hc. rewrite rw_Write_healthy.
  - simpl. apply push_push.
  - simpl. rewrite commit_ndjson_quota. exact Hq.
  - simpl. rewrite (commit_ndjson_committed _ Hc). discriminate.
Qed.

Lemma push_commit_view (lines : list Line) (w : ResponseWriter) :
  committed w = None ->
  status (push lines (commit_ndjson w)) = Some http.StatusOK
  /\ sentHeader (push lines (commit_ndjson w)) "Content-Type" = Some ndjson_ContentType
  /\ body (push lines (commit_ndjson w)) = body w ++ lines.
Proof.
  intros Hc. unfold status, sentHeader. simpl.
  rewrite (commit_ndjson_committed _ Hc), commit_ndjson_body. simpl.
  rewrite lookup_insert_eq. auto.
Qed.


(** *** Failures before and at the first match *)

Lemma listPolicy_finish_committed (enclave : Enclave) (out : (bool * option error) * World)
    (c : Z * gmap string string) :
  fst (fst out) = true ->
  committed (rw (snd out)) = Some c ->
  fst (listPolicy_finish enclave out) = None
  /\ committed (rw (snd (listPolicy_finish enclave out))) = Some c.
Proof.
  destruct out as [[hasWritten err] s1]. simpl. intros -> Hc.
  destruct err as [e |]; simpl; split; try reflexivity; try exact Hc.
  apply rw_Write_committed. exact Hc.
Qed.

Lemma listPolicy_refused (r : Request) (s : World) (pattern : string) (enclave : Enclave) :
  patternFromRequest r list_APIPath = Ok pattern ->
  enclaveFromRequest (vault s) r = Ok enclave ->
  (forall e, Enclave_VerifyRequest (vault s) enclave r = Some e ->
     result listPolicy_handler r s = Some e /\ rw (final listPolicy_handler r s) = rw s)
  /\ (forall e, Enclave_VerifyRequest (vault s) enclave r = None ->
        Enclave_ListPolicies (vault s) enclave = Err e ->
        result listPolicy_handler r s = Some e /\ rw (final listPolicy_handler r s) = rw s).
Proof.
  intros Hpat Henc.
  split; [intros e Hver | intros e Hver Hlist];
    unfold result, final, listPolicy_handler, listPolicy_locked; rewrite Hpat;
    unfold_effects; simpl; rewrite Henc; simpl; rewrite Hver; simpl;
    [| rewrite Hlist]; split; reflexivity.
Qed.

Lemma edgeListPolicy_refused (config : EdgeRouterConfig) (r : Request) (s : World)
    (pattern : string) :
  patternFromRequest r list_APIPath = Ok pattern ->
  (forall e, auth_VerifyRequest config r (Policies config) (Identities config) = Some e ->
     result (edgeListPolicy_handler config) r s = Some e
     /\ rw (final (edgeListPolicy_handler config) r s) = rw s)
  /\ (forall e, auth_VerifyRequest config r (Policies config) (Identities config) = None ->
        Policies_List (Policies config) = Err e ->
        result (edgeListPolicy_handler config) r s = Some e
        /\ rw (final (edgeListPolicy_handler config) r s) = rw s).
Proof.
  intros Hpat.
  split; [intros e Hver | intros e Hver Hlist];
    unfold result, final, edgeListPolicy_handler; rewrite Hpat;
    unfold_effects; simpl; rewrite Hver; simpl;
    [| rewrite Hlist]; split; reflexivity.
Qed.

(** The edge loop when no name matches. *)
Lemma edgeListPolicy_loop_no_match (config : EdgeRouterConfig) (pattern : string)
    (it : Iter) (names : list string) (s : World) :
  Forall (fun n => matches pattern n = false) names ->
  edgeListPolicy_loop config pattern it names false s =
    match iter_Close it with
    | Some e => (Some e, {| vault := vault s; rw := rw s; trace := trace s ++ [EvClose];
                            clock := clock s |})
    | None => (None, {| vault := vault s; rw := commit_ndjson (rw s);
                        trace := trace s ++ [EvClose]; clock := clock s |})
    end.
Proof.
  intros Hnames. rewrite <- (app_nil_r names).
  rewrite (edgeListPolicy_loop_skip _ _ _ _ _ _ _ Hnames).
  simpl. unfold_effects. simpl. destruct (iter_Close it); reflexivity.
Qed.

Lemma listPolicy_loop_no_match (enclave : Enclave) (pattern : string)
    (it : Iter) (names : list string) (s : World) :
  Forall (fun n => matches pattern n = false) names ->
  listPolicy_loop enclave pattern it names false s =
    ((false, iter_Close it),
     {| vault := vault s; rw := rw s; trace := trace s ++ [EvClose]; clock := clock s |}).
Proof.
  intros Hnames. rewrite <- (app_nil_r names).
  rewrite (listPolicy_loop_skip _ _ _ _ _ _ _ Hnames). reflexivity.
Qed.

(** C5.  In [listPolicy] the names the pattern does not match leave the
    response untouched; the first matching name commits status 200 together
    with the ndjson content type, and they stay committed whatever follows.
    When no name matches and the iterator closes cleanly the answer is a
    bare 200: the header map as it was, nothing added to the body, no
    policy fetched. *)
Theorem list_commits_on_first_match (r : Request) (s : World) (pattern : string)
    (enclave : Enclave) (it : Iter) :
  patternFromRequest r list_APIPath = Ok pattern ->
  enclaveFromRequest (vault s) r = Ok enclave ->
  Enclave_VerifyRequest (vault s) enclave r = None ->
  Enclave_ListPolicies (vault s) enclave = Ok it ->
  committed (rw s) = None ->
  (forall pre name post,
     iter_names it = pre ++ name :: post ->
     Forall (fun n => matches pattern n = false) pre ->
     matches pattern name = true ->
     listPolicy_loop enclave pattern it (iter_names it) false (entered enclave s) =
       listPolicy_loop enclave pattern it (name :: post) false (entered enclave s)
     /\ result listPolicy_handler r s = None
     /\ committed (rw (final listPolicy_handler r s)) =
        Some (http.StatusOK, <["Content-Type" := ndjson_ContentType]> (Header (rw s))))
  /\ (Forall (fun n => matches pattern n = false) (iter_names it) ->
      (iter_Close it = None ->
         result listPolicy_handler r s = None
         /\ committed (rw (final listPolicy_handler r s)) = Some (http.StatusOK, Header (rw s))
         /\ body (rw (final listPolicy_handler r s)) = body (rw s)
         /\ events listPolicy_handler r s =
            [EvLock Vault_RLocker; EvResolve; EvLock (Enclave_RLocker enclave);
             EvVerify enclave; EvListPolicies enclave; EvClose; EvClose;
             EvUnlock (Enclave_RLocker enclave); EvUnlock Vault_RLocker])
      /\ (forall e, iter_Close it = Some e ->
            result listPolicy_handler r s = Some e
            /\ rw (final listPolicy_handler r s) = rw s)).
Proof.
  intros Hpat Henc Hver Hlist Hc. split.
  - intros pre name post Hnames Hpre Hm.
    assert (Hskip : listPolicy_loop enclave pattern it (iter_names it) false (entered enclave s)
                    = listPolicy_loop enclave pattern it (name :: post) false (entered enclave s)).
    { rewrite Hnames. apply listPolicy_loop_skip. exact Hpre. }
    split; [exact Hskip |].
    unfold result, final.
    rewrite (listPolicy_handler_enters r s pattern enclave it Hpat Henc Hver Hlist).
    rewrite Hskip.
    apply listPolicy_finish_committed;
      rewrite (listPolicy_loop_match _ _ _ _ _ _ _ Hm); cbv zeta;
      cbn [vault rw trace clock entered];
      pose proof (commit_ndjson_committed (rw s) Hc) as Hw1;
      (destruct (Enclave_GetPolicy (vault s) enclave name) as [policy | e];
       [| first [reflexivity | exact Hw1]]);
      match goal with
      | |- context [rw_Write ?l ?w] =>
        pose proof (rw_Write_committed l w _ Hw1) as Hw2;
          destruct (rw_Write l w) as [w2 [e |]]
      end; simpl in Hw2; try reflexivity; try exact Hw2.
    + apply listPolicy_loop_flag.
    + apply listPolicy_loop_committed. exact Hw2.
  - intros Hnames. split.
    + intros Hclose. unfold events, result, final.
      rewrite (listPolicy_handler_enters r s pattern enclave it Hpat Henc Hver Hlist).
      rewrite (listPolicy_loop_no_match _ _ _ _ _ Hnames). rewrite Hclose.
      unfold listPolicy_finish, entered, rw_WriteHeader. simpl. rewrite Hc. simpl.
      repeat split. rewrite <- !app_assoc. rewrite drop_app_length. reflexivity.
    + intros e Hclose. unfold result, final.
      rewrite (listPolicy_handler_enters r s pattern enclave it Hpat Henc Hver Hlist).
      rewrite (listPolicy_loop_no_match _ _ _ _ _ Hnames). rewrite Hclose.
      split; reflexivity.
Qed.

Lemma match_error_is_mismatch (pattern name : string) :
  path_Match_contract ->
  snd (path_Match pattern name) <> None ->
  matches pattern name = false.
Proof.
  intros Hcontract Herr. unfold matches.
  destruct (path_Match pattern name) as [ok [e |]] eqn:Hm; simpl in *; [| contradiction].
  exact (Hcontract pattern name ok e Hm).
Qed.

(** C9.  The error of [path.Match] is dropped in both list handlers: a
    name on which the match fails is passed over exactly like a name that
    does not match, wherever it stands in the iteration, and a pattern that
    fails on every name yields an empty success, not a failure. *)
Theorem list_match_errors_skipped (pattern : string) :
  path_Match_contract ->
  (forall name, snd (path_Match pattern name) <> None ->
     (forall enclave it rest hasWritten s,
        listPolicy_loop enclave pattern it (name :: rest) hasWritten s =
        listPolicy_loop enclave pattern it rest hasWritten s)
     /\ (forall config it rest hasWritten s,
           edgeListPolicy_loop config pattern it (name :: rest) hasWritten s =
           edgeListPolicy_loop config pattern it rest hasWritten s))
  /\ (forall r s,
        patternFromRequest r list_APIPath = Ok pattern ->
        committed (rw s) = None ->
        (forall enclave it,
           enclaveFromRequest (vault s) r = Ok enclave ->
           Enclave_VerifyRequest (vault s) enclave r = None ->
           Enclave_ListPolicies (vault s) enclave = Ok it ->
           Forall (fun n => snd (path_Match pattern n) <> None) (iter_names it) ->
           iter_Close it = None ->
           result listPolicy_handler r s = None
           /\ status (rw (final listPolicy_handler r s)) = Some http.StatusOK
           /\ body (rw (final listPolicy_handler r s)) = body (rw s)
           /\ vault (final listPolicy_handler r s) = vault s)
        /\ (forall config it,
              auth_VerifyRequest config r (Policies config) (Identities config) = None ->
              Policies_List (Policies config) = Ok it ->
              Forall (fun n => snd (path_Match pattern n) <> None) (iter_names it) ->
              iter_Close it = None ->
              result (edgeListPolicy_handler config) r s = None
              /\ status (rw (final (edgeListPolicy_handler config) r s)) = Some http.StatusOK
              /\ body (rw (final (edgeListPolicy_handler config) r s)) = body (rw s))).
Proof.
  intros Hcontract. split.
  - intros name Herr.
    pose proof (match_error_is_mismatch pattern name Hcontract Herr) as Hm.
    split; intros.
    + change (name :: rest) with ([name] ++ rest).
      apply listPolicy_loop_skip. repeat constructor. exact Hm.
    + change (name :: rest) with ([name] ++ rest).
      apply edgeListPolicy_loop_skip. repeat constructor. exact Hm.
  - intros r s Hpat Hc. split.
    + intros enclave it Henc Hver Hlist Herrs Hclose.
      assert (Hnames : Forall (fun n => matches pattern n = false) (iter_names it)).
      { eapply Forall_impl; [exact Herrs |]. intros n Hn.
        apply match_error_is_mismatch; assumption. }
      unfold result, final.
      rewrite (listPolicy_handler_enters r s pattern enclave it Hpat Henc Hver Hlist).
      rewrite (listPolicy_loop_no_match _ _ _ _ _ Hnames). rewrite Hclose.
      unfold listPolicy_finish, entered, rw_WriteHeader, status. simpl. rewrite Hc. simpl.
      repeat split.
    + intros config it Hver Hlist Herrs Hclose.
      assert (Hnames : Forall (fun n => matches pattern n = false) (iter_names it)).
      { eapply Forall_impl; [exact Herrs |]. intros n Hn.
        apply match_error_is_mismatch; assumption. }
      unfold result, final.
      rewrite (edgeListPolicy_handler_enters config r s pattern it Hpat Hver Hlist).
      rewrite (edgeListPolicy_loop_no_match _ _ _ _ _ Hnames). rewrite Hclose.
      unfold edge_finish, edge_entered, commit_ndjson, rw_WriteHeader, status. simpl.
      rewrite Hc. simpl. repeat split.
Qed.

End ListProperties.

Section LockProperties.
Context `{C : Collaborators}.

Lemma under_locks_events {A} (lock : Enclave -> Locker) (fail : error -> A)
    (body : Enclave -> M A) (r : Request) (s : World) :
  verifies_first body ->
  match enclaveFromRequest (vault s) r with
  | Err _ =>
    trace (snd (under_locks lock fail body r s)) =
      trace s ++ [EvLock Vault_RLocker; EvResolve; EvUnlock Vault_RLocker]
  | Ok enclave =>
    exists ops,
      Forall (fun ev => is_access ev = true) ops
      /\ trace (snd (under_locks lock fail body r s)) =
         trace s ++ [EvLock Vault_RLocker; EvResolve; EvLock (lock enclave); EvVerify enclave]
           ++ ops ++ [EvUnlock (lock enclave); EvUnlock Vault_RLocker]
  end.
Proof.
  intros Hbody. unfold under_locks, locked. unfold_effects. simpl.
  destruct (enclaveFromRequest (vault s) r) as [enclave | e]; simpl.
  - match goal with
    | |- context [body enclave ?s0] =>
      destruct (Hbody enclave s0) as (ops & Htrace & Hops);
        destruct (body enclave s0) as [a s1]
    end.
    simpl in *. exists ops. split; [exact Hops |].
    rewrite Htrace. rewrite <- !app_assoc. reflexivity.
  - rewrite <- !app_assoc. reflexivity.
Qed.

(** A handler made of the parse, the locked region and a tail that only
    writes the response. *)
Lemma handler_events {A} (h : HandlerFunc) (parse : Result string)
    (lock : Enclave -> Locker) (fail : error -> A) (body : string -> Enclave -> M A)
    (tail : A -> M (option error)) (r : Request) (s : World) :
  h r s = match parse with
          | Err e => ret (Some e) s
          | Ok name => (let! a := under_locks lock fail (body name) r in tail a) s
          end ->
  (forall name, verifies_first (body name)) ->
  silent tail ->
  match parse with
  | Err _ => events h r s = []
  | Ok _ =>
    match enclaveFromRequest (vault s) r with
    | Err _ => events h r s = [EvLock Vault_RLocker; EvResolve; EvUnlock Vault_RLocker]
    | Ok enclave =>
      exists ops,
        Forall (fun ev => is_access ev = true) ops
        /\ events h r s =
           [EvLock Vault_RLocker; EvResolve; EvLock (lock enclave); EvVerify enclave]
             ++ ops ++ [EvUnlock (lock enclave); EvUnlock Vault_RLocker]
    end
  end.
Proof.
  intros Hh Hbody Htail. unfold events, final. rewrite Hh.
  destruct parse as [name | e].
  - pose proof (under_locks_events lock fail (body name) r s (Hbody name)) as Hlocks.
    unfold bind.
    destruct (under_locks lock fail (body name) r s) as [a s1]. simpl in Hlocks.
    rewrite (Htail a s1).
    destruct (enclaveFromRequest (vault s) r) as [enclave | e].
    + destruct Hlocks as (ops & Hops & Htrace). exists ops. split; [exact Hops |].
      rewrite Htrace. apply drop_app_length.
    + rewrite Hlocks. apply drop_app_length.
  - simpl. apply drop_all.
Qed.

(** *** The bodies under the enclave lock *)

Lemma assignPolicy_locked_verifies (r : Request) (name : string) :
  verifies_first (assignPolicy_locked r name).
Proof.
  intros enclave s. unfold assignPolicy_locked. unfold_effects. simpl.
  destruct (Enclave_VerifyRequest (vault s) enclave r);
    [exists []; split; [reflexivity | constructor] |].
  destruct (decodeAssign r) as [target |]; [| exists []; split; [reflexivity | constructor]].
  destruct (verifyName (Identity_String target)); [exists []; split; [reflexivity | constructor] |].
  destruct (IsUnknown target); [exists []; split; [reflexivity | constructor] |].
  destruct (String.eqb (Identify r) target); [exists []; split; [reflexivity | constructor] |].
  simpl.
  destruct (Vault_Admin (vault s)) as [admin |];
    [| exists [EvAdmin]; split; [rewrite <- app_assoc; reflexivity | repeat constructor]].
  destruct (String.eqb admin target);
    [exists [EvAdmin]; split; [rewrite <- app_assoc; reflexivity | repeat constructor] |].
  simpl. destruct (Enclave_AssignPolicy (vault s) enclave name target) as [v err]. simpl.
  exists [EvAdmin; EvAssignPolicy enclave name target].
  split; [rewrite <- !app_assoc; reflexivity | repeat constructor].
Qed.

Lemma writePolicy_locked_verifies (r : Request) (name : string) :
  verifies_first (writePolicy_locked r name).
Proof.
  intros enclave s. unfold writePolicy_locked. unfold_effects. simpl.
  destruct (Enclave_VerifyRequest (vault s) enclave r);
    [exists []; split; [reflexivity | constructor] |].
  destruct (decodeWrite r) as [[allow deny] |]; [| exists []; split; [reflexivity | constructor]].
  simpl. destruct (Enclave_SetPolicy _ _ _ _) as [v err]. simpl.
  eexists [_]. split; [rewrite <- !app_assoc; reflexivity | repeat constructor].
Qed.

Lemma deletePolicy_locked_verifies (r : Request) (name : string) :
  verifies_first (deletePolicy_locked r name).
Proof.
  intros enclave s. unfold deletePolicy_locked. unfold_effects. simpl.
  destruct (Enclave_VerifyRequest (vault s) enclave r);
    [exists []; split; [reflexivity | constructor] |].
  simpl. destruct (Enclave_DeletePolicy _ _ _) as [v err]. simpl.
  eexists [_]. split; [rewrite <- !app_assoc; reflexivity | repeat constructor].
Qed.

Lemma lookup_verifies (r : Request) (name : string) :
  verifies_first (lookup_body r name).
Proof.
  intros enclave s. unfold lookup_body. unfold_effects. simpl.
  destruct (Enclave_VerifyRequest (vault s) enclave r);
    [exists []; split; [reflexivity | constructor] |].
  simpl. eexists [_]. split; [rewrite <- !app_assoc; reflexivity | repeat constructor].
Qed.

Lemma listPolicy_loop_accesses (enclave : Enclave) (pattern : string) (it : Iter)
    (names : list string) :
  forall hasWritten s, exists ops,
    trace (snd (listPolicy_loop enclave pattern it names hasWritten s)) = trace s ++ ops
    /\ Forall (fun ev => is_access ev = true) ops.
Proof.
  induction names as [| name names IH]; intros hasWritten s.
  - exists [EvClose]. split; [reflexivity | repeat constructor].
  - destruct (matches pattern name) eqn:Hm.
    + rewrite (listPolicy_loop_match _ _ _ _ _ _ _ Hm). cbv zeta.
      destruct (Enclave_GetPolicy (vault s) enclave name) as [policy | e];
        [| exists [EvGetPolicy enclave name]; split; [reflexivity | repeat constructor]].
      destruct (rw_Write _ _) as [w2 [e |]];
        [exists [EvGetPolicy enclave name]; split; [reflexivity | repeat constructor] |].
      match goal with
      | |- context [listPolicy_loop enclave pattern it names true ?s2] =>
        destruct (IH true s2) as (ops & Htrace & Hops)
      end.
      exists (EvGetPolicy enclave name :: ops). rewrite Htrace. simpl.
      rewrite <- app_assoc. split; [reflexivity | constructor; [reflexivity | exact Hops]].
    + change (name :: names) with ([name] ++ names).
      rewrite listPolicy_loop_skip; [| repeat constructor; exact Hm].
      apply IH.
Qed.

Lemma listPolicy_locked_verifies (r : Request) (pattern : string) :
  verifies_first (listPolicy_locked r pattern).
Proof.
  intros enclave s. unfold listPolicy_locked. unfold_effects. simpl.
  destruct (Enclave_VerifyRequest (vault s) enclave r);
    [exists []; split; [reflexivity | constructor] |].
  simpl.
  destruct (Enclave_ListPolicies (vault s) enclave) as [it | e]; simpl;
    [| exists [EvListPolicies enclave]; split;
       [rewrite <- app_assoc; reflexivity | repeat constructor]].
  match goal with
  | |- context [listPolicy_loop enclave pattern it (iter_names it) false ?s0] =>
    destruct (listPolicy_loop_accesses enclave pattern it (iter_names it) false s0)
      as (ops & Htrace & Hops);
      destruct (listPolicy_loop enclave pattern it (iter_names it) false s0) as [out s1]
  end.
  simpl in *. exists (EvListPolicies enclave :: ops ++ [EvClose]).
  rewrite Htrace. simpl. rewrite <- !app_assoc. split; [reflexivity |].
  constructor; [reflexivity |]. apply Forall_app. split; [exact Hops | repeat constructor].
Qed.

(** *** The six handlers *)

Lemma status_tail_silent : silent status_tail.
Proof. intros [e |] s; reflexivity. Qed.

Lemma router_events (op : Op) (r : Request) (s : World) :
  match router_parse op r with
  | Err _ => events (router_handler op) r s = []
  | Ok _ =>
    match enclaveFromRequest (vault s) r with
    | Err _ =>
      events (router_handler op) r s =
        [EvLock Vault_RLocker; EvResolve; EvUnlock Vault_RLocker]
    | Ok enclave =>
      exists ops,
        Forall (fun ev => is_access ev = true) ops
        /\ events (router_handler op) r s =
           [EvLock Vault_RLocker; EvResolve; EvLock (enclave_lock op enclave); EvVerify enclave]
             ++ ops ++ [EvUnlock (enclave_lock op enclave); EvUnlock Vault_RLocker]
    end
  end.
Proof.
  destruct op; unfold router_parse, router_handler, enclave_lock, is_mutation.
  - apply (handler_events assignPolicy_handler _ Enclave_Locker Some
             (assignPolicy_locked r) status_tail r s).
    + unfold assignPolicy_handler. destruct (nameFromRequest r assign_APIPath); reflexivity.
    + apply assignPolicy_locked_verifies.
    + apply status_tail_silent.
  - apply (handler_events describePolicy_handler _ Enclave_RLocker
             (fun e => (Policy_zero, Some e)) (lookup_body r) describe_tail r s).
    + unfold describePolicy_handler. destruct (nameFromRequest r describe_APIPath); reflexivity.
    + intros name. apply lookup_verifies.
    + intros [policy [e |]] s0; [reflexivity |]. unfold describe_tail. unfold_effects. simpl.
      destruct (rw_Write _ _). reflexivity.
  - apply (handler_events readPolicy_handler _ Enclave_RLocker
             (fun e => (Policy_zero, Some e)) (lookup_body r) read_tail r s).
    + unfold readPolicy_handler. destruct (nameFromRequest r read_APIPath); reflexivity.
    + intros name. apply lookup_verifies.
    + intros [policy [e |]] s0; [reflexivity |]. unfold read_tail. unfold_effects. simpl.
      destruct (rw_Write _ _). reflexivity.
  - apply (handler_events writePolicy_handler _ Enclave_Locker Some
             (writePolicy_locked r) status_tail r s).
    + unfold writePolicy_handler. destruct (nameFromRequest r write_APIPath); reflexivity.
    + apply writePolicy_locked_verifies.
    + apply status_tail_silent.
  - apply (handler_events deletePolicy_handler _ Enclave_Locker Some
             (deletePolicy_locked r) status_tail r s).
    + unfold deletePolicy_handler. destruct (nameFromRequest r delete_APIPath); reflexivity.
    + apply deletePolicy_locked_verifies.
    + apply status_tail_silent.
  - apply (handler_events listPolicy_handler _ Enclave_RLocker
             (fun e => (false, Some e)) (listPolicy_locked r) list_tail r s).
    + unfold listPolicy_handler. destruct (patternFromRequest r list_APIPath); reflexivity.
    + apply listPolicy_locked_verifies.
    + intros [[|] [e |]] s0; try reflexivity. unfold list_tail. unfold_effects. simpl.
      destruct (rw_Write _ _). reflexivity.
Qed.

(** *** The edge handlers *)

Lemma edgeListPolicy_loop_accesses (config : EdgeRouterConfig) (pattern : string) (it : Iter)
    (names : list string) :
  forall hasWritten s, exists ops,
    trace (snd (edgeListPolicy_loop config pattern it names hasWritten s)) = trace s ++ ops
    /\ Forall (fun ev => is_edge_access ev = true) ops.
Proof.
  induction names as [| name names IH]; intros hasWritten s.
  - simpl. unfold_effects. simpl. exists [EvClose].
    split; [| repeat constructor].
    destruct (iter_Close it) as [e |]; simpl.
    + destruct hasWritten; simpl; [destruct (rw_Write _ _) |]; reflexivity.
    + destruct hasWritten; reflexivity.
  - destruct (matches pattern name) eqn:Hm.
    + rewrite (edgeListPolicy_loop_match _ _ _ _ _ _ _ Hm). cbv zeta.
      destruct (Policies_Get (Policies config) name) as [policy | e];
        [| exists [EvPoliciesGet name]; split; [reflexivity | repeat constructor]].
      destruct (rw_Write _ _) as [w2 [e |]];
        [exists [EvPoliciesGet name]; split; [reflexivity | repeat constructor] |].
      match goal with
      | |- context [edgeListPolicy_loop config pattern it names true ?s2] =>
        destruct (IH true s2) as (ops & Htrace & Hops)
      end.
      exists (EvPoliciesGet name :: ops). rewrite Htrace. simpl.
      rewrite <- app_assoc. split; [reflexivity | constructor; [reflexivity | exact Hops]].
    + change (name :: names) with ([name] ++ names).
      rewrite edgeListPolicy_loop_skip; [| repeat constructor; exact Hm].
      apply IH.
Qed.

Lemma edge_events (op : EdgeOp) (config : EdgeRouterConfig) (r : Request) (s : World) :
  edge_discipline (events (edge_handler op config) r s).
Proof.
  unfold events, final.
  destruct op; unfold edge_handler.
  - unfold edgeDescribePolicy_handler.
    destruct (nameFromRequest r describe_APIPath) as [name | e];
      [| simpl; rewrite drop_all; constructor].
    unfold_effects. simpl.
    destruct (auth_VerifyRequest _ _ _ _); simpl;
      [rewrite drop_app_length; repeat constructor |].
    destruct (Policies_Get _ _); simpl; [destruct (rw_Write _ _) |]; simpl;
      rewrite <- app_assoc, drop_app_length; repeat constructor.
  - unfold edgeReadPolicy_handler.
    destruct (nameFromRequest r read_APIPath) as [name | e];
      [| simpl; rewrite drop_all; constructor].
    unfold_effects. simpl.
    destruct (auth_VerifyRequest _ _ _ _); simpl;
      [rewrite drop_app_length; repeat constructor |].
    destruct (Policies_Get _ _); simpl; [destruct (rw_Write _ _) |]; simpl;
      rewrite <- app_assoc, drop_app_length; repeat constructor.
  - unfold edgeListPolicy_handler.
    destruct (patternFromRequest r list_APIPath) as [pattern | e];
      [| simpl; rewrite drop_all; constructor].
    unfold_effects. simpl.
    destruct (auth_VerifyRequest _ _ _ _); simpl;
      [rewrite drop_app_length; repeat constructor |].
    destruct (Policies_List _) as [it | e]; simpl;
      [| rewrite <- app_assoc, drop_app_length; repeat constructor].
    match goal with
    | |- context [edgeListPolicy_loop config pattern it (iter_names it) false ?s0] =>
      destruct (edgeListPolicy_loop_accesses config pattern it (iter_names it) false s0)
        as (ops & Htrace & Hops);
        destruct (edgeListPolicy_loop config pattern it (iter_names it) false s0) as [out s1]
    end.
    simpl in *. rewrite Htrace. rewrite <- !app_assoc. rewrite drop_app_length. simpl.
    constructor. constructor; [reflexivity |].
    apply Forall_app. split; [exact Hops | repeat constructor].
Qed.

Lemma edge_discipline_lock_free (t : list Event) :
  edge_discipline t -> Forall (fun ev => is_lock_event ev = false) t.
Proof.
  intros [| ops Hops]; constructor; [reflexivity |].
  eapply Forall_impl; [exact Hops |]. intros [] H; simpl in *; congruence.
Qed.

(** The six router handlers parse the path first: when that fails they
    return the error and leave the world as they found it. *)
Lemma router_unparsed (op : Op) (r : Request) (s : World) (e : error) :
  router_parse op r = Err e -> router_handler op r s = (Some e, s).
Proof.
  intros Hp.
  destruct op; simpl in Hp; unfold router_handler;
    [ unfold assignPolicy_handler | unfold describePolicy_handler
    | unfold readPolicy_handler | unfold writePolicy_handler
    | unfold deletePolicy_handler | unfold listPolicy_handler ];
    rewrite Hp; reflexivity.
Qed.

(** C7, as amended.  Each of the six router operations, once its path is
    parsed, takes the vault read lock, resolves the enclave, takes the
    enclave lock (the write lock for assign, write and delete, the read lock
    for describe, read and list), verifies the request before any access
    to vault or enclave state, and gives both locks back in reverse
    order, whatever the outcome.  A request whose path does not parse
    returns the parse error before any lock is taken: the world, its trace
    included, is as it was.  One whose enclave does not resolve takes only
    the vault lock.  The three edge operations take no lock at all: they
    verify the request and then read the policy set. *)
Theorem router_lock_discipline (r : Request) (s : World) :
  (forall op,
     lock_discipline (enclave_lock op) (events (router_handler op) r s)
     /\ (forall e, router_parse op r = Err e ->
          router_handler op r s = (Some e, s)
          /\ events (router_handler op) r s = [])
     /\ (forall p, router_parse op r = Ok p ->
          (forall e, enclaveFromRequest (vault s) r = Err e ->
             events (router_handler op) r s =
               [EvLock Vault_RLocker; EvResolve; EvUnlock Vault_RLocker])
          /\ (forall enclave, enclaveFromRequest (vault s) r = Ok enclave ->
                exists ops,
                  Forall (fun ev => is_access ev = true) ops
                  /\ events (router_handler op) r s =
                     [EvLock Vault_RLocker; EvResolve;
                      EvLock (enclave_lock op enclave); EvVerify enclave]
                       ++ ops
                       ++ [EvUnlock (enclave_lock op enclave); EvUnlock Vault_RLocker])))
  /\ (forall op config,
        edge_discipline (events (edge_handler op config) r s)
        /\ Forall (fun ev => is_lock_event ev = false) (events (edge_handler op config) r s)).
Proof.
  split.
  - intros op. pose proof (router_events op r s) as Hev. split; [| split].
    + destruct (router_parse op r) as [p | e]; [| rewrite Hev; constructor].
      destruct (enclaveFromRequest (vault s) r) as [enclave | e].
      * destruct Hev as (ops & Hops & ->). apply ld_locked. exact Hops.
      * rewrite Hev. constructor.
    + intros e Hp. rewrite Hp in Hev. split; [| exact Hev].
      apply router_unparsed. exact Hp.
    + intros p Hp. rewrite Hp in Hev. split.
      * intros e He. rewrite He in Hev. exact Hev.
      * intros enclave He. rewrite He in Hev. exact Hev.
  - intros op config. pose proof (edge_events op config r s) as Hev.
    split; [exact Hev | apply edge_discipline_lock_free; exact Hev].
Qed.

End LockProperties.

Section WriteProperties.
Context `{C : Collaborators}.

(** A write that succeeds went through every stage, and its one change to
    the vault is a [SetPolicy] of the policy built from the request, the
    clock and the requester. *)
Lemma writePolicy_handler_success (r : Request) (s : World) :
  result writePolicy_handler r s = None ->
  exists name enclave allow deny,
    nameFromRequest r write_APIPath = Ok name
    /\ enclaveFromRequest (vault s) r = Ok enclave
    /\ Enclave_VerifyRequest (vault s) enclave r = None
    /\ decodeWrite r = Ok (allow, deny)
    /\ Enclave_SetPolicy (vault s) enclave name
         {| Allow := allow; Deny := deny; CreatedAt := clock s; CreatedBy := Identify r |}
       = (vault (final writePolicy_handler r s), None)
    /\ events writePolicy_handler r s =
       [EvLock Vault_RLocker; EvResolve; EvLock (Enclave_Locker enclave); EvVerify enclave;
        EvSetPolicy enclave name
          {| Allow := allow; Deny := deny; CreatedAt := clock s; CreatedBy := Identify r |};
        EvUnlock (Enclave_Locker enclave); EvUnlock Vault_RLocker].
Proof.
  unfold events, result, final, writePolicy_handler, writePolicy_locked.
  destruct (nameFromRequest r write_APIPath) as [name | e] eqn:Hname; [| discriminate].
  unfold_effects. simpl.
  destruct (enclaveFromRequest (vault s) r) as [enclave | e] eqn:Henc; [| discriminate].
  simpl.
  destruct (Enclave_VerifyRequest (vault s) enclave r) as [e |] eqn:Hver; [discriminate |].
  destruct (decodeWrite r) as [[allow deny] | e] eqn:Hdec; [| discriminate].
  simpl.
  destruct (Enclave_SetPolicy (vault s) enclave name _) as [v [e |]] eqn:Hset; [discriminate |].
  simpl. intros _. exists name, enclave, allow, deny.
  split; [reflexivity | split; [reflexivity | split; [exact Hver | split; [reflexivity |]]]].
  split; [exact Hset |].
  rewrite <- !app_assoc. rewrite drop_app_length. reflexivity.
Qed.

End WriteProperties.

Section MemVaultProperties.
Import MemVault.

Lemma with_policy_twice (es : EnclaveState) (name : string) (p1 p2 : Policy) :
  with_policy (with_policy es name p1) name p2 = with_policy es name p2.
Proof. unfold with_policy. simpl. rewrite insert_insert_eq. reflexivity. Qed.

Lemma with_enclave_twice (v : VaultState) (e : string) (es1 es2 : EnclaveState) :
  with_enclave (with_enclave v e es1) e es2 = with_enclave v e es2.
Proof. unfold with_enclave. simpl. rewrite insert_insert_eq. reflexivity. Qed.

Lemma mem_GetPolicy_written (v : VaultState) (e : string) (es : EnclaveState)
    (name : string) (p : Policy) :
  (forall p', mem_GetPolicy (with_enclave v e (with_policy es name p)) e name = Ok p' -> p' = p)
  /\ (existsb (String.eqb name) (unreadable es) = false ->
      mem_GetPolicy (with_enclave v e (with_policy es name p)) e name = Ok p).
Proof.
  unfold mem_GetPolicy, with_enclave, with_policy. simpl. rewrite lookup_insert_eq. simpl.
  rewrite lookup_insert_eq.
  destruct (existsb (String.eqb name) (unreadable es)); split; congruence.
Qed.

(** What a successful write does to the in-memory vault. *)
Lemma mem_write_success (r : Req) (s : World) :
  result writePolicy_handler r s = None ->
  exists es allow deny,
    enclaves (vault s) !! req_enclave r = Some es
    /\ req_body r = WriteBody allow deny
    /\ vault (final writePolicy_handler r s) =
       with_enclave (vault s) (req_enclave r)
         (with_policy es (req_name r)
            {| Allow := allow; Deny := deny; CreatedAt := clock s; CreatedBy := req_peer r |}).
Proof.
  intros Hok.
  destruct (writePolicy_handler_success (C := memVault) r s Hok)
    as (name & enclave & allow & deny & Hname & Henc & _ & Hdec & Hset & _).
  simpl in Hname, Henc, Hdec, Hset.
  unfold mem_nameFromRequest in Hname.
  destruct (mem_verifyName (req_name r)); [discriminate |].
  injection Hname as <-.
  unfold mem_enclaveFromRequest in Henc.
  destruct (enclaves (vault s) !! req_enclave r) as [es |] eqn:Hes; [| discriminate].
  injection Henc as <-.
  unfold mem_decodeWrite in Hdec.
  destruct (req_body r) as [| | allow' deny' |] eqn:Hbody; try discriminate.
  injection Hdec as -> ->.
  unfold mem_SetPolicy in Hset. rewrite Hes in Hset. injection Hset as Hv.
  exists es, allow, deny. auto.
Qed.

(** C6.  On the in-memory vault, a write that succeeds replaces the policy
    of the requested name by the one made of the allow and deny lists of the
    body, the clock at the write and the requester, and touches nothing
    else.  A second successful write of that name leaves the vault as if the
    first had never happened: whatever is read back under the name is the
    second version, with the time and the identity of the second write. *)
Theorem write_replaces_policy (r1 r2 : Req) (s : World) (q : option nat) (now2 : Time) :
  result writePolicy_handler r1 s = None ->
  exists es allow1 deny1,
    enclaves (vault s) !! req_enclave r1 = Some es
    /\ req_body r1 = WriteBody allow1 deny1
    /\ vault (final writePolicy_handler r1 s) =
       with_enclave (vault s) (req_enclave r1)
         (with_policy es (req_name r1)
            {| Allow := allow1; Deny := deny1; CreatedAt := clock s;
               CreatedBy := req_peer r1 |})
    /\ (existsb (String.eqb (req_name r1)) (unreadable es) = false ->
        Enclave_GetPolicy (vault (final writePolicy_handler r1 s))
          (req_enclave r1) (req_name r1)
        = Ok {| Allow := allow1; Deny := deny1; CreatedAt := clock s;
                CreatedBy := req_peer r1 |})
    /\ (req_enclave r2 = req_enclave r1 ->
        req_name r2 = req_name r1 ->
        result writePolicy_handler r2
          (next_request (final writePolicy_handler r1 s) q now2) = None ->
        exists allow2 deny2,
          req_body r2 = WriteBody allow2 deny2
          /\ vault (final writePolicy_handler r2
                      (next_request (final writePolicy_handler r1 s) q now2)) =
             with_enclave (vault s) (req_enclave r1)
               (with_policy es (req_name r1)
                  {| Allow := allow2; Deny := deny2; CreatedAt := now2;
                     CreatedBy := req_peer r2 |})
          /\ (forall p,
                Enclave_GetPolicy
                  (vault (final writePolicy_handler r2
                            (next_request (final writePolicy_handler r1 s) q now2)))
                  (req_enclave r1) (req_name r1) = Ok p ->
                p = {| Allow := allow2; Deny := deny2; CreatedAt := now2;
                       CreatedBy := req_peer r2 |})
          /\ (existsb (String.eqb (req_name r1)) (unreadable es) = false ->
              Enclave_GetPolicy
                (vault (final writePolicy_handler r2
                          (next_request (final writePolicy_handler r1 s) q now2)))
                (req_enclave r1) (req_name r1)
              = Ok {| Allow := allow2; Deny := deny2; CreatedAt := now2;
                      CreatedBy := req_peer r2 |})).
Proof.
  intros Hok1.
  destruct (mem_write_success r1 s Hok1) as (es & allow1 & deny1 & Hes & Hbody1 & Hv1).
  exists es, allow1, deny1. split; [exact Hes | split; [exact Hbody1 | split; [exact Hv1 |]]].
  split.
  - intros Hreadable. rewrite Hv1. simpl.
    apply (mem_GetPolicy_written (vault s) (req_enclave r1) es (req_name r1)). exact Hreadable.
  - intros Henc Hname Hok2.
    destruct (mem_write_success r2 _ Hok2) as (es' & allow2 & deny2 & Hes' & Hbody2 & Hv2).
    simpl in Hes', Hv2. rewrite Hv1 in Hes', Hv2. rewrite Henc, Hname in *.
    unfold with_enclave in Hes' at 1. simpl in Hes'. rewrite lookup_insert_eq in Hes'.
    injection Hes' as <-.
    rewrite with_enclave_twice, with_policy_twice in Hv2.
    exists allow2, deny2. split; [exact Hbody2 | split; [exact Hv2 |]].
    rewrite Hv2. simpl.
    apply (mem_GetPolicy_written (vault s) (req_enclave r1) es (req_name r1)).
Qed.

End MemVaultProperties.

Section StageProperties.
Context `{C : Collaborators}.

(** X1.  A request whose verification fails is answered with the error of
    the verification and nothing else happens: no state is read or changed
    between the verification and the unlocks, the vault and the response are
    as they were.  This holds for the six router operations and, with
    [auth.VerifyRequest], for the three edge operations. *)
Theorem unverified_request_stops (r : Request) (s : World) (e : error) :
  (forall op p enclave,
     router_parse op r = Ok p ->
     enclaveFromRequest (vault s) r = Ok enclave ->
     Enclave_VerifyRequest (vault s) enclave r = Some e ->
     result (router_handler op) r s = Some e
     /\ vault (final (router_handler op) r s) = vault s
     /\ rw (final (router_handler op) r s) = rw s
     /\ events (router_handler op) r s = locked_events (enclave_lock op) enclave [])
  /\ (forall op config p,
        edge_parse op r = Ok p ->
        auth_VerifyRequest config r (Policies config) (Identities config) = Some e ->
        result (edge_handler op config) r s = Some e
        /\ vault (final (edge_handler op config) r s) = vault s
        /\ rw (final (edge_handler op config) r s) = rw s
        /\ events (edge_handler op config) r s = [EvAuthVerify]).
Proof.
  split.
  - intros op p enclave Hp Henc Hver.
    destruct op; simpl in Hp; unfold events, result, final, router_handler;
      [ unfold assignPolicy_handler, assignPolicy_locked
      | unfold describePolicy_handler, lookupPolicy_locked
      | unfold readPolicy_handler, lookupPolicy_locked
      | unfold writePolicy_handler, writePolicy_locked
      | unfold deletePolicy_handler, deletePolicy_locked
      | unfold listPolicy_handler, listPolicy_locked ];
      rewrite Hp; unfold_effects; simpl; rewrite Henc; simpl; rewrite Hver; simpl;
      (repeat split; []); trace_tail; reflexivity.
  - intros op config p Hp Hver.
    destruct op; simpl in Hp; unfold events, result, final, edge_handler;
      [ unfold edgeDescribePolicy_handler
      | unfold edgeReadPolicy_handler
      | unfold edgeListPolicy_handler ];
      rewrite Hp; unfold_effects; simpl; rewrite Hver; simpl;
      (repeat split; []); trace_tail; reflexivity.
Qed.

(** X2.  A request whose name or pattern does not parse is answered with
    the parse error and leaves the whole world as it was: no lock, no event,
    no header.  One whose enclave does not resolve is answered with the
    resolution error, the vault and the response untouched. *)
Theorem unparsed_or_unresolved_request_stops (r : Request) (s : World) (e : error) :
  (forall op, router_parse op r = Err e -> router_handler op r s = (Some e, s))
  /\ (forall op config, edge_parse op r = Err e -> edge_handler op config r s = (Some e, s))
  /\ (forall op p,
        router_parse op r = Ok p ->
        enclaveFromRequest (vault s) r = Err e ->
        result (router_handler op) r s = Some e
        /\ vault (final (router_handler op) r s) = vault s
        /\ rw (final (router_handler op) r s) = rw s).
Proof.
  split; [| split].
  - intros op Hp.
    destruct op; simpl in Hp; unfold router_handler;
      [ unfold assignPolicy_handler | unfold describePolicy_handler
      | unfold readPolicy_handler | unfold writePolicy_handler
      | unfold deletePolicy_handler | unfold listPolicy_handler ];
      rewrite Hp; reflexivity.
  - intros op config Hp.
    destruct op; simpl in Hp; unfold edge_handler;
      [ unfold edgeDescribePolicy_handler | unfold edgeReadPolicy_handler
      | unfold edgeListPolicy_handler ];
      rewrite Hp; reflexivity.
  - intros op p Hp Henc.
    destruct op; simpl in Hp; unfold result, final, router_handler;
      [ unfold assignPolicy_handler | unfold describePolicy_handler, lookupPolicy_locked
      | unfold readPolicy_handler, lookupPolicy_locked | unfold writePolicy_handler
      | unfold deletePolicy_handler | unfold listPolicy_handler ];
      rewrite Hp; unfold_effects; simpl; rewrite Henc; simpl; repeat split.
Qed.

(** X3.  A describe or read whose lookup fails returns the error of the
    lookup as it is and writes nothing: after the one [GetPolicy] the locks
    are released and the response is untouched.  The edge handlers do the
    same with the error of [Policies.Get]. *)
Theorem failed_lookup_is_returned (r : Request) (s : World) (name : string) (e : error) :
  (forall enclave,
     enclaveFromRequest (vault s) r = Ok enclave ->
     Enclave_VerifyRequest (vault s) enclave r = None ->
     Enclave_GetPolicy (vault s) enclave name = Err e ->
     (nameFromRequest r describe_APIPath = Ok name ->
      result describePolicy_handler r s = Some e
      /\ rw (final describePolicy_handler r s) = rw s
      /\ vault (final describePolicy_handler r s) = vault s
      /\ events describePolicy_handler r s =
         locked_events Enclave_RLocker enclave [EvGetPolicy enclave name])
     /\ (nameFromRequest r read_APIPath = Ok name ->
         result readPolicy_handler r s = Some e
         /\ rw (final readPolicy_handler r s) = rw s
         /\ vault (final readPolicy_handler r s) = vault s
         /\ events readPolicy_handler r s =
            locked_events Enclave_RLocker enclave [EvGetPolicy enclave name]))
  /\ (forall config,
        auth_VerifyRequest config r (Policies config) (Identities config) = None ->
        Policies_Get (Policies config) name = Err e ->
        (nameFromRequest r describe_APIPath = Ok name ->
         result (edgeDescribePolicy_handler config) r s = Some e
         /\ rw (final (edgeDescribePolicy_handler config) r s) = rw s)
        /\ (nameFromRequest r read_APIPath = Ok name ->
            result (edgeReadPolicy_handler config) r s = Some e
            /\ rw (final (edgeReadPolicy_handler config) r s) = rw s)).
Proof.
  split.
  - intros enclave Henc Hver Hget.
    split; intros Hname; unfold events, result, final;
      [unfold describePolicy_handler | unfold readPolicy_handler];
      unfold lookupPolicy_locked; rewrite Hname; unfold_effects; simpl;
      rewrite Henc; simpl; rewrite Hver; simpl; rewrite Hget; simpl;
      (repeat split; []); trace_tail; reflexivity.
  - intros config Hver Hget.
    split; intros Hname; unfold result, final;
      [unfold edgeDescribePolicy_handler | unfold edgeReadPolicy_handler];
      rewrite Hname; unfold_effects; simpl; rewrite Hver; simpl; rewrite Hget;
      split; reflexivity.
Qed.

(** X4.  An assign request that passes every check (a known target that is
    neither the requester nor the admin) calls [AssignPolicy] once, for the
    name of the path and the identity of the body; the handler returns what
    that call returns and the vault is the one it leaves.  The status 200 is
    sent when and only when the call succeeded.  Conversely a successful
    assign has passed every check. *)
Theorem assign_outcome (r : Request) (s : World) :
  (forall name enclave target admin,
     nameFromRequest r assign_APIPath = Ok name ->
     enclaveFromRequest (vault s) r = Ok enclave ->
     Enclave_VerifyRequest (vault s) enclave r = None ->
     decodeAssign r = Ok target ->
     verifyName (Identity_String target) = None ->
     IsUnknown target = false ->
     Identify r <> target ->
     Vault_Admin (vault s) = Ok admin ->
     admin <> target ->
     result assignPolicy_handler r s = snd (Enclave_AssignPolicy (vault s) enclave name target)
     /\ vault (final assignPolicy_handler r s)
        = fst (Enclave_AssignPolicy (vault s) enclave name target)
     /\ events assignPolicy_handler r s =
        locked_events Enclave_Locker enclave [EvAdmin; EvAssignPolicy enclave name target]
     /\ rw (final assignPolicy_handler r s) =
        match snd (Enclave_AssignPolicy (vault s) enclave name target) with
        | None => rw_WriteHeader http.StatusOK (rw s)
        | Some _ => rw s
        end)
  /\ (result assignPolicy_handler r s = None ->
      exists name enclave target admin,
        nameFromRequest r assign_APIPath = Ok name
        /\ enclaveFromRequest (vault s) r = Ok enclave
        /\ Enclave_VerifyRequest (vault s) enclave r = None
        /\ decodeAssign r = Ok target
        /\ verifyName (Identity_String target) = None
        /\ IsUnknown target = false
        /\ Identify r <> target
        /\ Vault_Admin (vault s) = Ok admin
        /\ admin <> target
        /\ Enclave_AssignPolicy (vault s) enclave name target
           = (vault (final assignPolicy_handler r s), None)).
Proof.
  split.
  - intros name enclave target admin Hname Henc Hver Hdec Hvn Hunk Hself Hadm Hne.
    apply String.eqb_neq in Hself. apply String.eqb_neq in Hne.
    unfold events, result, final, assignPolicy_handler, assignPolicy_locked.
    rewrite Hname. unfold_effects. simpl. rewrite Henc. simpl.
    rewrite Hver, Hdec, Hvn, Hunk, Hself. simpl. rewrite Hadm, Hne. simpl.
    destruct (Enclave_AssignPolicy (vault s) enclave name target) as [v [e |]]; simpl;
      (repeat split; []); trace_tail; reflexivity.
  - unfold result, final, assignPolicy_handler, assignPolicy_locked.
    destruct (nameFromRequest r assign_APIPath) as [name | e] eqn:Hname; [| discriminate].
    unfold_effects. simpl.
    destruct (enclaveFromRequest (vault s) r) as [enclave | e] eqn:Henc; [| discriminate].
    simpl.
    destruct (Enclave_VerifyRequest (vault s) enclave r) as [e |] eqn:Hver; [discriminate |].
    destruct (decodeAssign r) as [target | e] eqn:Hdec; [| discriminate].
    destruct (verifyName (Identity_String target)) as [e |] eqn:Hvn; [discriminate |].
    destruct (IsUnknown target) eqn:Hunk; [discriminate |].
    destruct (String.eqb (Identify r) target) eqn:Hself; [discriminate |].
    simpl.
    destruct (Vault_Admin (vault s)) as [admin | e] eqn:Hadm; [| discriminate].
    destruct (String.eqb admin target) eqn:Hne; [discriminate |].
    simpl.
    destruct (Enclave_AssignPolicy (vault s) enclave name target) as [v [e |]] eqn:Hassign;
      [discriminate |].
    simpl. intros _. exists name, enclave, target, admin.
    apply String.eqb_neq in Hself. apply String.eqb_neq in Hne.
    repeat split; try reflexivity; assumption.
Qed.

(** X5.  A verified write request whose body does not decode returns the
    decoding error and never reaches [SetPolicy].  One whose body decodes
    calls [SetPolicy] once with the policy built from the body, the clock and
    the requester; the handler returns what that call returns, the vault is
    the one it leaves, and the status 200 is sent when and only when the call
    succeeded. *)
Theorem write_outcome (r : Request) (s : World) (name : string) (enclave : Enclave) :
  nameFromRequest r write_APIPath = Ok name ->
  enclaveFromRequest (vault s) r = Ok enclave ->
  Enclave_VerifyRequest (vault s) enclave r = None ->
  (forall e, decodeWrite r = Err e ->
     result writePolicy_handler r s = Some e
     /\ vault (final writePolicy_handler r s) = vault s
     /\ rw (final writePolicy_handler r s) = rw s
     /\ events writePolicy_handler r s = locked_events Enclave_Locker enclave [])
  /\ (forall allow deny, decodeWrite r = Ok (allow, deny) ->
        result writePolicy_handler r s
        = snd (Enclave_SetPolicy (vault s) enclave name (written_policy r s allow deny))
        /\ vault (final writePolicy_handler r s)
           = fst (Enclave_SetPolicy (vault s) enclave name (written_policy r s allow deny))
        /\ events writePolicy_handler r s =
           locked_events Enclave_Locker enclave
             [EvSetPolicy enclave name (written_policy r s allow deny)]
        /\ rw (final writePolicy_handler r s) =
           match snd (Enclave_SetPolicy (vault s) enclave name
                        (written_policy r s allow deny)) with
           | None => rw_WriteHeader http.StatusOK (rw s)
           | Some _ => rw s
           end).
Proof.
  intros Hname Henc Hver. split.
  - intros e Hdec.
    unfold events, result, final, writePolicy_handler, writePolicy_locked.
    rewrite Hname. unfold_effects. simpl. rewrite Henc. simpl. rewrite Hver, Hdec. simpl.
    (repeat split; []). trace_tail. reflexivity.
  - intros allow deny Hdec.
    unfold events, result, final, writePolicy_handler, writePolicy_locked, written_policy.
    rewrite Hname. unfold_effects. simpl. rewrite Henc. simpl. rewrite Hver, Hdec. simpl.
    destruct (Enclave_SetPolicy (vault s) enclave name _) as [v [e |]]; simpl;
      (repeat split; []); trace_tail; reflexivity.
Qed.

(** X6.  A verified delete request calls [DeletePolicy] once for the name
    of the path; the handler returns what that call returns (so a store that
    reports a missing policy makes the delete fail), the vault is the one it
    leaves, and the status 200 is sent when and only when the call
    succeeded. *)
Theorem delete_outcome (r : Request) (s : World) (name : string) (enclave : Enclave) :
  nameFromRequest r delete_APIPath = Ok name ->
  enclaveFromRequest (vault s) r = Ok enclave ->
  Enclave_VerifyRequest (vault s) enclave r = None ->
  result deletePolicy_handler r s = snd (Enclave_DeletePolicy (vault s) enclave name)
  /\ vault (final deletePolicy_handler r s) = fst (Enclave_DeletePolicy (vault s) enclave name)
  /\ events deletePolicy_handler r s =
     locked_events Enclave_Locker enclave [EvDeletePolicy enclave name]
  /\ rw (final deletePolicy_handler r s) =
     match snd (Enclave_DeletePolicy (vault s) enclave name) with
     | None => rw_WriteHeader http.StatusOK (rw s)
     | Some _ => rw s
     end.
Proof.
  intros Hname Henc Hver.
  unfold events, result, final, deletePolicy_handler, deletePolicy_locked.
  rewrite Hname. unfold_effects. simpl. rewrite Henc. simpl. rewrite Hver. simpl.
  destruct (Enclave_DeletePolicy (vault s) enclave name) as [v [e |]]; simpl;
    (repeat split; []); trace_tail; reflexivity.
Qed.

End StageProperties.

Section FrameProperties.
Context `{C : Collaborators}.

(** *** Computations that only read *)

Lemma read_only_ret {A} (a : A) : read_only (ret a).
Proof.
  intros s. split; [reflexivity |]. exists []. simpl. rewrite app_nil_r.
  split; [reflexivity | constructor].
Qed.

Lemma read_only_bind {A B} (m : M A) (k : A -> M B) :
  read_only m -> (forall a, read_only (k a)) -> read_only (bind m k).
Proof.
  intros Hm Hk s. unfold bind.
  destruct (Hm s) as (Hv1 & ops1 & Ht1 & Hops1).
  destruct (m s) as [a s1]. simpl in *.
  destruct (Hk a s1) as (Hv2 & ops2 & Ht2 & Hops2).
  split; [congruence |].
  exists (ops1 ++ ops2). rewrite Ht2, Ht1, app_assoc. split; [reflexivity |].
  apply Forall_app. split; assumption.
Qed.

Lemma read_only_emit (ev : Event) : is_mutation_event ev = false -> read_only (emit ev).
Proof.
  intros Hev s. split; [reflexivity |]. exists [ev].
  split; [reflexivity | repeat constructor; exact Hev].
Qed.

Lemma read_only_readVault {A} (f : Vault -> A) : read_only (readVault f).
Proof.
  intros s. split; [reflexivity |]. exists []. simpl. rewrite app_nil_r.
  split; [reflexivity | constructor].
Qed.

Lemma read_only_onWriter (f : ResponseWriter -> ResponseWriter) : read_only (onWriter f).
Proof.
  intros s. split; [reflexivity |]. exists []. simpl. rewrite app_nil_r.
  split; [reflexivity | constructor].
Qed.

Lemma read_only_Encode (l : Line) : read_only (Encode l).
Proof.
  intros s. unfold Encode. destruct (rw_Write l (rw s)). split; [reflexivity |].
  exists []. simpl. rewrite app_nil_r. split; [reflexivity | constructor].
Qed.

End FrameProperties.

(** Take a read-only goal apart along the structure of the program. *)
Ltac read_only_step :=
  first
    [ apply read_only_ret
    | apply read_only_readVault
    | apply read_only_onWriter
    | apply read_only_Encode
    | apply read_only_emit; reflexivity
    | apply read_only_bind; [| intros ?]
    | match goal with
      | |- read_only (match ?x with _ => _ end) => destruct x
      end ].

Ltac unfold_calls :=
  unfold Sync, VSync, resolveEnclave, VerifyRequest, GetPolicy, ListPolicies,
    iterator_Close, w_Header_Set, w_WriteHeader, edge_VerifyRequest, edge_Get, edge_List.

Section QueryProperties.
Context `{C : Collaborators}.

Lemma listPolicy_loop_read_only (enclave : Enclave) (pattern : string) (it : Iter)
    (names : list string) :
  forall hasWritten, read_only (listPolicy_loop enclave pattern it names hasWritten).
Proof.
  induction names as [| name names IH]; intros hasWritten; simpl; unfold_calls.
  - repeat read_only_step.
  - destruct (path_Match pattern name) as [[|] err]; simpl; [| apply IH].
    repeat read_only_step; apply IH.
Qed.

Lemma edgeListPolicy_loop_read_only (config : EdgeRouterConfig) (pattern : string) (it : Iter)
    (names : list string) :
  forall hasWritten, read_only (edgeListPolicy_loop config pattern it names hasWritten).
Proof.
  induction names as [| name names IH]; intros hasWritten; simpl; unfold_calls.
  - repeat read_only_step.
  - destruct (path_Match pattern name) as [[|] err]; simpl; [| apply IH].
    repeat read_only_step; apply IH.
Qed.

Lemma query_read_only (op : Op) (r : Request) :
  is_mutation op = false -> read_only (router_handler op r).
Proof.
  destruct op; simpl; try discriminate; intros _.
  - unfold describePolicy_handler, lookupPolicy_locked. unfold_calls.
    repeat read_only_step.
  - unfold readPolicy_handler, lookupPolicy_locked. unfold_calls.
    repeat read_only_step.
  - unfold listPolicy_handler, listPolicy_locked. unfold_calls.
    repeat read_only_step. apply listPolicy_loop_read_only.
Qed.

Lemma edge_read_only (op : EdgeOp) (config : EdgeRouterConfig) (r : Request) :
  read_only (edge_handler op config r).
Proof.
  destruct op; simpl.
  - unfold edgeDescribePolicy_handler. unfold_calls. repeat read_only_step.
  - unfold edgeReadPolicy_handler. unfold_calls. repeat read_only_step.
  - unfold edgeListPolicy_handler. unfold_calls.
    repeat read_only_step. apply edgeListPolicy_loop_read_only.
Qed.

(** X7.  The queries never change policy state: whatever the request and
    whatever the stores answer, describe, read and list of the router, and
    the three edge operations, leave the vault as it was and call none of
    [SetPolicy], [DeletePolicy] and [AssignPolicy]. *)
Theorem queries_never_mutate (r : Request) (s : World) :
  (forall op, is_mutation op = false ->
     vault (final (router_handler op) r s) = vault s
     /\ Forall (fun ev => is_mutation_event ev = false) (events (router_handler op) r s))
  /\ (forall op config,
        vault (final (edge_handler op config) r s) = vault s
        /\ Forall (fun ev => is_mutation_event ev = false)
             (events (edge_handler op config) r s)).
Proof.
  split.
  - intros op Hop. destruct (query_read_only op r Hop s) as (Hv & ops & Ht & Hops).
    split; [exact Hv |]. unfold events, final. rewrite Ht, drop_app_length. exact Hops.
  - intros op config. destruct (edge_read_only op config r s) as (Hv & ops & Ht & Hops).
    split; [exact Hv |]. unfold events, final. rewrite Ht, drop_app_length. exact Hops.
Qed.

End QueryProperties.

Section ProtocolProperties.
Context `{C : Collaborators}.

Lemma WriteHeader_status (w : ResponseWriter) :
  committed w = None -> status (rw_WriteHeader http.StatusOK w) = Some http.StatusOK.
Proof. intros Hc. unfold status, rw_WriteHeader. rewrite Hc. reflexivity. Qed.

Lemma rw_Write_status (l : Line) (w : ResponseWriter) :
  committed w = None -> status (fst (rw_Write l w)) = Some http.StatusOK.
Proof.
  intros Hc. unfold status, rw_Write, rw_WriteHeader. rewrite Hc. simpl.
  destruct (quota w) as [[| n] |]; reflexivity.
Qed.

Lemma committed_status (w : ResponseWriter) (h : gmap string string) :
  committed w = Some (http.StatusOK, h) -> status w = Some http.StatusOK.
Proof. intros Hc. unfold status. rewrite Hc. reflexivity. Qed.

(** The loop of [listPolicy], from a response not yet begun: either no name
    matched and the response is untouched, or the header is committed. *)
Lemma listPolicy_loop_protocol (enclave : Enclave) (pattern : string) (it : Iter)
    (names : list string) :
  forall s,
    committed (rw s) = None ->
    (fst (fst (listPolicy_loop enclave pattern it names false s)) = false
     /\ rw (snd (listPolicy_loop enclave pattern it names false s)) = rw s)
    \/ (fst (fst (listPolicy_loop enclave pattern it names false s)) = true
        /\ committed (rw (snd (listPolicy_loop enclave pattern it names false s)))
           = Some (http.StatusOK, <["Content-Type" := ndjson_ContentType]> (Header (rw s)))).
Proof.
  induction names as [| name names IH]; intros s Hc.
  - left. split; reflexivity.
  - destruct (matches pattern name) eqn:Hm.
    + right. rewrite (listPolicy_loop_match _ _ _ _ _ _ _ Hm). cbv zeta.
      pose proof (commit_ndjson_committed (rw s) Hc) as Hw1.
      destruct (Enclave_GetPolicy (vault s) enclave name) as [policy | e];
        [| split; [reflexivity | exact Hw1]].
      match goal with
      | |- context [rw_Write ?l ?w] =>
        pose proof (rw_Write_committed l w _ Hw1) as Hw2;
          destruct (rw_Write l w) as [w2 [e |]]
      end; simpl in Hw2; [split; [reflexivity | exact Hw2] |].
      split; [apply listPolicy_loop_flag | apply listPolicy_loop_committed; exact Hw2].
    + change (name :: names) with ([name] ++ names).
      rewrite listPolicy_loop_skip; [| repeat constructor; exact Hm].
      apply IH. exact Hc.
Qed.

Lemma listPolicy_finish_answers (enclave : Enclave) (out : (bool * option error) * World)
    (w : ResponseWriter) (h : gmap string string) :
  committed w = None ->
  (fst (fst out) = false /\ rw (snd out) = w)
  \/ (fst (fst out) = true /\ committed (rw (snd out)) = Some (http.StatusOK, h)) ->
  match fst (listPolicy_finish enclave out) with
  | Some _ =>
    committed (rw (snd (listPolicy_finish enclave out))) = None
    /\ body (rw (snd (listPolicy_finish enclave out))) = body w
  | None => status (rw (snd (listPolicy_finish enclave out))) = Some http.StatusOK
  end.
Proof.
  intros Hc. destruct out as [[hasWritten err] s1]. simpl.
  intros [[-> ->] | [-> Hs1]]; destruct err as [e |]; simpl.
  - split; [exact Hc | reflexivity].
  - apply WriteHeader_status. exact Hc.
  - eapply committed_status. apply rw_Write_committed. exact Hs1.
  - eapply committed_status. exact Hs1.
Qed.

Lemma listPolicy_handler_answers (r : Request) (s : World) :
  committed (rw s) = None -> answers listPolicy_handler r s.
Proof.
  intros Hc. unfold answers, result, final.
  destruct (patternFromRequest r list_APIPath) as [pattern | e] eqn:Hpat.
  2:{ unfold listPolicy_handler. rewrite Hpat. simpl. split; [exact Hc | reflexivity]. }
  destruct (enclaveFromRequest (vault s) r) as [enclave | e] eqn:Henc.
  2:{ unfold listPolicy_handler. rewrite Hpat. unfold_effects. simpl. rewrite Henc. simpl.
      split; [exact Hc | reflexivity]. }
  destruct (listPolicy_refused r s pattern enclave Hpat Henc) as [Hrefused Hclosed].
  destruct (Enclave_VerifyRequest (vault s) enclave r) as [e |] eqn:Hver.
  { destruct (Hrefused e eq_refl) as [Hres Hrw]. unfold result, final in Hres, Hrw.
    rewrite Hres, Hrw. split; [exact Hc | reflexivity]. }
  destruct (Enclave_ListPolicies (vault s) enclave) as [it | e] eqn:Hlist.
  2:{ destruct (Hclosed e eq_refl eq_refl) as [Hres Hrw]. unfold result, final in Hres, Hrw.
      rewrite Hres, Hrw. split; [exact Hc | reflexivity]. }
  rewrite (listPolicy_handler_enters r s pattern enclave it Hpat Henc Hver Hlist).
  apply (listPolicy_finish_answers enclave _ (rw s)
           (<["Content-Type" := ndjson_ContentType]> (Header (rw s))) Hc).
  apply (listPolicy_loop_protocol enclave pattern it (iter_names it) (entered enclave s)).
  exact Hc.
Qed.

(** The loop of [edgeListPolicy] once a name has matched: it returns no
    error and the committed header stays. *)
Lemma edgeListPolicy_loop_begun (config : EdgeRouterConfig) (pattern : string) (it : Iter)
    (names : list string) (c : Z * gmap string string) :
  forall s,
    committed (rw s) = Some c ->
    fst (edgeListPolicy_loop config pattern it names true s) = None
    /\ committed (rw (snd (edgeListPolicy_loop config pattern it names true s))) = Some c.
Proof.
  induction names as [| name names IH]; intros s Hc.
  - simpl. unfold_effects. simpl. destruct (iter_Close it) as [e |]; simpl.
    + pose proof (rw_Write_committed (ErrorRecord (Error e)) (rw s) c Hc) as Hw.
      destruct (rw_Write _ _). simpl in *. split; [reflexivity | exact Hw].
    + split; [reflexivity | exact Hc].
  - destruct (matches pattern name) eqn:Hm.
    + rewrite (edgeListPolicy_loop_match _ _ _ _ _ _ _ Hm). cbv zeta.
      destruct (Policies_Get (Policies config) name) as [policy | e].
      * match goal with
        | |- context [rw_Write ?l ?w] =>
          pose proof (rw_Write_committed l w c Hc) as Hw;
            destruct (rw_Write l w) as [w2 [e |]]
        end; simpl in Hw; [split; [reflexivity | exact Hw] |].
        apply IH. exact Hw.
      * split; [reflexivity |]. apply rw_Write_committed. exact Hc.
    + change (name :: names) with ([name] ++ names).
      rewrite edgeListPolicy_loop_skip; [| repeat constructor; exact Hm].
      apply IH. exact Hc.
Qed.

Lemma edgeListPolicy_loop_protocol (config : EdgeRouterConfig) (pattern : string) (it : Iter)
    (names : list string) :
  forall s,
    committed (rw s) = None ->
    match fst (edgeListPolicy_loop config pattern it names false s) with
    | Some _ =>
      committed (rw (snd (edgeListPolicy_loop config pattern it names false s))) = None
      /\ body (rw (snd (edgeListPolicy_loop config pattern it names false s))) = body (rw s)
    | None =>
      status (rw (snd (edgeListPolicy_loop config pattern it names false s)))
      = Some http.StatusOK
    end.
Proof.
  induction names as [| name names IH]; intros s Hc.
  - rewrite (edgeListPolicy_loop_no_match config pattern it [] s); [| constructor].
    destruct (iter_Close it) as [e |]; simpl.
    + split; [exact Hc | reflexivity].
    + eapply committed_status. apply commit_ndjson_committed. exact Hc.
  - destruct (matches pattern name) eqn:Hm.
    + rewrite (edgeListPolicy_loop_match _ _ _ _ _ _ _ Hm). cbv zeta.
      assert (Hc1 : committed (Header_Set "Content-Type" ndjson_ContentType (rw s)) = None)
        by exact Hc.
      destruct (Policies_Get (Policies config) name) as [policy | e].
      * match goal with
        | |- context [rw_Write ?l ?w] =>
          pose proof (rw_Write_status l w Hc1) as Hw;
            destruct (rw_Write l w) as [w2 [e |]]
        end; simpl in Hw; [exact Hw |].
        unfold status in Hw. destruct (committed w2) as [c |] eqn:Hw2; [| discriminate].
        match goal with
        | |- context [edgeListPolicy_loop config pattern it names true ?s2] =>
          destruct (edgeListPolicy_loop_begun config pattern it names c s2 Hw2) as [Hres Hcom]
        end.
        rewrite Hres. unfold status. rewrite Hcom. exact Hw.
      * simpl. apply rw_Write_status. exact Hc1.
    + change (name :: names) with ([name] ++ names).
      rewrite edgeListPolicy_loop_skip; [| repeat constructor; exact Hm].
      apply IH. exact Hc.
Qed.

Lemma edgeListPolicy_handler_answers (config : EdgeRouterConfig) (r : Request) (s : World) :
  committed (rw s) = None -> answers (edgeListPolicy_handler config) r s.
Proof.
  intros Hc. unfold answers, result, final.
  destruct (patternFromRequest r list_APIPath) as [pattern | e] eqn:Hpat.
  2:{ unfold edgeListPolicy_handler. rewrite Hpat. simpl. split; [exact Hc | reflexivity]. }
  destruct (edgeListPolicy_refused config r s pattern Hpat) as [Hrefused Hclosed].
  destruct (auth_VerifyRequest config r (Policies config) (Identities config))
    as [e |] eqn:Hver.
  { destruct (Hrefused e eq_refl) as [Hres Hrw]. unfold result, final in Hres, Hrw.
    rewrite Hres, Hrw. split; [exact Hc | reflexivity]. }
  destruct (Policies_List (Policies config)) as [it | e] eqn:Hlist.
  2:{ destruct (Hclosed e eq_refl eq_refl) as [Hres Hrw]. unfold result, final in Hres, Hrw.
      rewrite Hres, Hrw. split; [exact Hc | reflexivity]. }
  rewrite (edgeListPolicy_handler_enters config r s pattern it Hpat Hver Hlist).
  pose proof (edgeListPolicy_loop_protocol config pattern it (iter_names it)
                (edge_entered s) Hc) as Hloop.
  destruct (edgeListPolicy_loop _ _ _ _ _ _) as [res s1]. simpl in *. exact Hloop.
Qed.

(** X8.  Outcome and response always agree, for the nine handlers and a
    response not yet begun: when a handler returns an error nothing has been
    committed and nothing added to the body, so the caller can still send the
    error status; when it returns nil the status 200 has been committed.  In
    particular a list that has begun to stream never returns an error. *)
Theorem outcome_and_response_agree (r : Request) (s : World) :
  committed (rw s) = None ->
  (forall op, answers (router_handler op) r s)
  /\ (forall op config, answers (edge_handler op config) r s).
Proof.
  intros Hc. split.
  - intros op. destruct op; unfold router_handler.
    + unfold answers, result, final, assignPolicy_handler, assignPolicy_locked.
      destruct (nameFromRequest r assign_APIPath); [| simpl; auto].
      unfold_effects. simpl.
      destruct (enclaveFromRequest (vault s) r); simpl; [| auto].
      destruct (Enclave_VerifyRequest _ _ _); simpl; [auto |].
      destruct (decodeAssign r) as [target |]; simpl; [| auto].
      destruct (verifyName _); simpl; [auto |].
      destruct (IsUnknown target); simpl; [auto |].
      destruct (String.eqb _ target); simpl; [auto |].
      destruct (Vault_Admin _) as [admin |]; simpl; [| auto].
      destruct (String.eqb admin target); simpl; [auto |].
      destruct (Enclave_AssignPolicy _ _ _ _) as [vault1 [err |]]; simpl; [auto |].
      apply WriteHeader_status. exact Hc.
    + unfold answers, result, final, describePolicy_handler, lookupPolicy_locked.
      destruct (nameFromRequest r describe_APIPath); [| simpl; auto].
      unfold_effects. simpl.
      destruct (enclaveFromRequest (vault s) r); simpl; [| auto].
      destruct (Enclave_VerifyRequest _ _ _); simpl; [auto |].
      destruct (Enclave_GetPolicy _ _ _) as [policy |]; simpl; [| auto].
      match goal with
      | |- context [rw_Write ?l (rw_WriteHeader _ (Header_Set _ ?ct (rw s)))] =>
        destruct (first_line_written (rw s) l ct Hc) as [Hst _];
          destruct (rw_Write l (rw_WriteHeader http.StatusOK
                                  (Header_Set "Content-Type" ct (rw s))))
      end. exact Hst.
    + unfold answers, result, final, readPolicy_handler, lookupPolicy_locked.
      destruct (nameFromRequest r read_APIPath); [| simpl; auto].
      unfold_effects. simpl.
      destruct (enclaveFromRequest (vault s) r); simpl; [| auto].
      destruct (Enclave_VerifyRequest _ _ _); simpl; [auto |].
      destruct (Enclave_GetPolicy _ _ _) as [policy |]; simpl; [| auto].
      match goal with
      | |- context [rw_Write ?l (rw_WriteHeader _ (Header_Set _ ?ct (rw s)))] =>
        destruct (first_line_written (rw s) l ct Hc) as [Hst _];
          destruct (rw_Write l (rw_WriteHeader http.StatusOK
                                  (Header_Set "Content-Type" ct (rw s))))
      end. exact Hst.
    + unfold answers, result, final, writePolicy_handler, writePolicy_locked.
      destruct (nameFromRequest r write_APIPath); [| simpl; auto].
      unfold_effects. simpl.
      destruct (enclaveFromRequest (vault s) r); simpl; [| auto].
      destruct (Enclave_VerifyRequest _ _ _); simpl; [auto |].
      destruct (decodeWrite r) as [[allow deny] |]; simpl; [| auto].
      destruct (Enclave_SetPolicy _ _ _ _) as [vault1 [err |]]; simpl; [auto |].
      apply WriteHeader_status. exact Hc.
    + unfold answers, result, final, deletePolicy_handler, deletePolicy_locked.
      destruct (nameFromRequest r delete_APIPath); [| simpl; auto].
      unfold_effects. simpl.
      destruct (enclaveFromRequest (vault s) r); simpl; [| auto].
      destruct (Enclave_VerifyRequest _ _ _); simpl; [auto |].
      destruct (Enclave_DeletePolicy _ _ _) as [vault1 [err |]]; simpl; [auto |].
      apply WriteHeader_status. exact Hc.
    + apply listPolicy_handler_answers. exact Hc.
  - intros op config. destruct op; unfold edge_handler.
    + unfold answers, result, final, edgeDescribePolicy_handler.
      destruct (nameFromRequest r describe_APIPath); [| simpl; auto].
      unfold_effects. simpl.
      destruct (auth_VerifyRequest _ _ _ _); simpl; [auto |].
      destruct (Policies_Get _ _) as [policy |]; simpl; [| auto].
      match goal with
      | |- context [rw_Write ?l (rw_WriteHeader _ (Header_Set _ ?ct (rw s)))] =>
        destruct (first_line_written (rw s) l ct Hc) as [Hst _];
          destruct (rw_Write l (rw_WriteHeader http.StatusOK
                                  (Header_Set "Content-Type" ct (rw s))))
      end. exact Hst.
    + unfold answers, result, final, edgeReadPolicy_handler.
      destruct (nameFromRequest r read_APIPath); [| simpl; auto].
      unfold_effects. simpl.
      destruct (auth_VerifyRequest _ _ _ _); simpl; [auto |].
      destruct (Policies_Get _ _) as [policy |]; simpl; [| auto].
      match goal with
      | |- context [rw_Write ?l (rw_WriteHeader _ (Header_Set _ ?ct (rw s)))] =>
        destruct (first_line_written (rw s) l ct Hc) as [Hst _];
          destruct (rw_Write l (rw_WriteHeader http.StatusOK
                                  (Header_Set "Content-Type" ct (rw s))))
      end. exact Hst.
    + apply edgeListPolicy_handler_answers. exact Hc.
Qed.

End ProtocolProperties.

Section StreamProperties.
Context `{C : Collaborators}.

Lemma records_names (v : Vault) (enclave : Enclave) (pattern : string) (names : list string) :
  Forall (fetchable v enclave pattern) names ->
  map record_name (records v enclave pattern names) = List.filter (matches pattern) names.
Proof.
  induction 1 as [| name names Hf _ IH]; [reflexivity |].
  destruct (matches pattern name) eqn:Hm.
  - destruct (Hf Hm) as [policy Hget].
    rewrite (records_cons_match _ _ _ _ _ policy Hm Hget). simpl. rewrite Hm, IH. reflexivity.
  - rewrite (records_cons_skip _ _ _ _ _ Hm). simpl. rewrite Hm. exact IH.
Qed.

(** X9.  When every matching policy can be fetched, the iterator closes
    cleanly and the connection holds, [listPolicy] answers 200 with exactly
    one record per name the pattern matches, in the order of the iterator,
    and fetches no other policy; the content type is ndjson as soon as one
    name matched. *)
Theorem list_streams_matching_names (r : Request) (s : World) (pattern : string)
    (enclave : Enclave) (it : Iter) :
  patternFromRequest r list_APIPath = Ok pattern ->
  enclaveFromRequest (vault s) r = Ok enclave ->
  Enclave_VerifyRequest (vault s) enclave r = None ->
  Enclave_ListPolicies (vault s) enclave = Ok it ->
  committed (rw s) = None ->
  quota (rw s) = None ->
  Forall (fetchable (vault s) enclave pattern) (iter_names it) ->
  iter_Close it = None ->
  result listPolicy_handler r s = None
  /\ status (rw (final listPolicy_handler r s)) = Some http.StatusOK
  /\ body (rw (final listPolicy_handler r s)) =
     body (rw s) ++ records (vault s) enclave pattern (iter_names it)
  /\ map record_name (records (vault s) enclave pattern (iter_names it))
     = List.filter (matches pattern) (iter_names it)
  /\ events listPolicy_handler r s =
     locked_events Enclave_RLocker enclave
       (EvListPolicies enclave
          :: map (EvGetPolicy enclave) (List.filter (matches pattern) (iter_names it))
          ++ [EvClose; EvClose])
  /\ (existsb (matches pattern) (iter_names it) = true ->
      sentHeader (rw (final listPolicy_handler r s)) "Content-Type" = Some ndjson_ContentType).
Proof.
  intros Hpat Henc Hver Hlist Hc Hq Hfetch Hclose.
  unfold events, result, final.
  rewrite (listPolicy_handler_enters r s pattern enclave it Hpat Henc Hver Hlist).
  rewrite (listPolicy_loop_complete enclave pattern it (iter_names it)
             (entered enclave s) Hq Hc Hfetch).
  rewrite Hclose. unfold listPolicy_finish. cbn [fst snd vault rw trace clock entered].
  split; [reflexivity |].
  assert (Hev : drop (length (trace s))
                  (((trace s ++ [EvLock Vault_RLocker; EvResolve;
                                 EvLock (Enclave_RLocker enclave); EvVerify enclave;
                                 EvListPolicies enclave])
                    ++ map (EvGetPolicy enclave) (List.filter (matches pattern) (iter_names it))
                    ++ [EvClose])
                   ++ [EvClose; EvUnlock (Enclave_RLocker enclave); EvUnlock Vault_RLocker])
                = locked_events Enclave_RLocker enclave
                    (EvListPolicies enclave
                       :: map (EvGetPolicy enclave)
                            (List.filter (matches pattern) (iter_names it))
                       ++ [EvClose; EvClose])).
  { rewrite <- !app_assoc. rewrite drop_app_length. unfold locked_events. simpl.
    rewrite <- !app_assoc. reflexivity. }
  destruct (existsb (matches pattern) (iter_names it)) eqn:Hex.
  - destruct (push_commit_view (records (vault s) enclave pattern (iter_names it)) (rw s) Hc)
      as (Hst & Hct & Hbody).
    split; [exact Hst | split; [exact Hbody |]].
    split; [apply records_names; exact Hfetch |].
    split; [exact Hev | intros _; exact Hct].
  - destruct (records_none (vault s) enclave pattern (iter_names it) Hex) as [Hrecs Hfil].
    split; [apply WriteHeader_status; exact Hc |].
    split; [unfold rw_WriteHeader; simpl; rewrite Hc; reflexivity |].
    split; [apply records_names; exact Hfetch |].
    split; [exact Hev | discriminate].
Qed.

(** *** A connection that takes only so many writes *)





End StreamProperties.

Section EdgeProperties.
Context `{C : Collaborators}.

Lemma edge_records_cons_skip (config : EdgeRouterConfig) (pattern name : string)
    (names : list string) :
  matches pattern name = false ->
  edge_records config pattern (name :: names) = edge_records config pattern names.
Proof. intros H. unfold edge_records. simpl. rewrite H. reflexivity. Qed.

Lemma edge_records_cons_match (config : EdgeRouterConfig) (pattern name : string)
    (names : list string) (policy : Policy) :
  matches pattern name = true ->
  Policies_Get (Policies config) name = Ok policy ->
  edge_records config pattern (name :: names) =
    ListResponse name (CreatedAt policy) (CreatedBy policy) ""
      :: edge_records config pattern names.
Proof.
  intros H Hget. unfold edge_records. simpl. rewrite H. simpl.
  unfold edge_record_of at 1. rewrite Hget. reflexivity.
Qed.

Lemma edge_records_none (config : EdgeRouterConfig) (pattern : string) (names : list string) :
  existsb (matches pattern) names = false ->
  edge_records config pattern names = [] /\ List.filter (matches pattern) names = [].
Proof.
  unfold edge_records. induction names as [| name names IH]; simpl; [auto |].
  destruct (matches pattern name); simpl; [discriminate | exact IH].
Qed.

Lemma edge_records_names (config : EdgeRouterConfig) (pattern : string) (names : list string) :
  Forall (edge_fetchable config pattern) names ->
  map record_name (edge_records config pattern names) = List.filter (matches pattern) names.
Proof.
  induction 1 as [| name names Hf _ IH]; [reflexivity |].
  destruct (matches pattern name) eqn:Hm.
  - destruct (Hf Hm) as [policy Hget].
    rewrite (edge_records_cons_match _ _ _ _ policy Hm Hget). simpl. rewrite Hm, IH.
    reflexivity.
  - rewrite (edge_records_cons_skip _ _ _ _ Hm). simpl. rewrite Hm. exact IH.
Qed.

(** The first write of the edge handler commits the status with the content
    type it has just set. *)
Lemma edge_first_write (l : Line) (w : ResponseWriter) :
  quota w = None -> committed w = None ->
  rw_Write l (Header_Set "Content-Type" ndjson_ContentType w)
  = (push [l] (commit_ndjson w), None).
Proof.
  intros Hq Hc. unfold rw_Write, commit_ndjson, rw_WriteHeader, Header_Set, push. simpl.
  rewrite Hc. simpl. rewrite Hq. reflexivity.
Qed.

Lemma edgeListPolicy_loop_prefix (config : EdgeRouterConfig) (pattern : string) (it : Iter)
    (pre rest : list string) :
  forall (hasWritten : bool) (s : World),
    quota (rw s) = None ->
    (if hasWritten then committed (rw s) <> None else committed (rw s) = None) ->
    Forall (edge_fetchable config pattern) pre ->
    edgeListPolicy_loop config pattern it (pre ++ rest) hasWritten s =
    edgeListPolicy_loop config pattern it rest
      (hasWritten || existsb (matches pattern) pre)
      (edge_listed config pattern hasWritten s pre).
Proof.
  induction pre as [| name pre IH]; intros hasWritten s Hq Hc Hfetch.
  - simpl. rewrite orb_false_r. f_equal.
    unfold edge_listed, edge_records. simpl. rewrite app_nil_r.
    destruct s as [v w t c]. simpl.
    destruct hasWritten; rewrite push_nil; reflexivity.
  - apply Forall_cons in Hfetch. destruct Hfetch as [Hname Hfetch].
    destruct (matches pattern name) eqn:Hm.
    + change ((name :: pre) ++ rest) with (name :: (pre ++ rest)).
      rewrite (edgeListPolicy_loop_match _ _ _ _ _ _ _ Hm). cbv zeta.
      destruct (Hname Hm) as [policy Hget]. rewrite Hget.
      set (w1 := if hasWritten then rw s else commit_ndjson (rw s)).
      assert (Hq1 : quota w1 = None).
      { subst w1. destruct hasWritten; [exact Hq | rewrite commit_ndjson_quota; exact Hq]. }
      assert (Hc1 : committed w1 <> None).
      { subst w1. destruct hasWritten; [exact Hc |].
        rewrite (commit_ndjson_committed _ Hc). discriminate. }
      assert (Hw : rw_Write (ListResponse name (CreatedAt policy) (CreatedBy policy) "")
                     (if hasWritten then rw s
                      else Header_Set "Content-Type" ndjson_ContentType (rw s))
                   = (push [ListResponse name (CreatedAt policy) (CreatedBy policy) ""] w1,
                      None)).
      { subst w1. destruct hasWritten;
          [apply rw_Write_healthy; assumption | apply edge_first_write; assumption]. }
      rewrite Hw.
      rewrite IH; simpl; [| exact Hq1 | exact Hc1 | exact Hfetch].
      rewrite Hm. rewrite orb_true_r. simpl. f_equal.
      unfold edge_listed. simpl. rewrite Hm. simpl.
      rewrite (edge_records_cons_match _ _ _ _ policy Hm Hget).
      rewrite push_push. rewrite <- app_assoc. reflexivity.
    + change ((name :: pre) ++ rest) with ([name] ++ (pre ++ rest)).
      rewrite edgeListPolicy_loop_skip; [| repeat constructor; exact Hm].
      rewrite IH; [| exact Hq | exact Hc | exact Hfetch].
      simpl. rewrite Hm. simpl. f_equal.
      unfold edge_listed. simpl. rewrite Hm. rewrite (edge_records_cons_skip _ _ _ _ Hm).
      reflexivity.
Qed.

(** The code after the loop of [edgeListPolicy]. *)
Lemma edgeListPolicy_loop_end (config : EdgeRouterConfig) (pattern : string) (it : Iter)
    (hasWritten : bool) (s : World) :
  edgeListPolicy_loop config pattern it [] hasWritten s =
    match iter_Close it with
    | Some e =>
      if hasWritten
      then (None, {| vault := vault s; rw := fst (rw_Write (ErrorRecord (Error e)) (rw s));
                     trace := trace s ++ [EvClose]; clock := clock s |})
      else (Some e, {| vault := vault s; rw := rw s; trace := trace s ++ [EvClose];
                       clock := clock s |})
    | None =>
      (None, {| vault := vault s;
                rw := if hasWritten then rw s else commit_ndjson (rw s);
                trace := trace s ++ [EvClose]; clock := clock s |})
    end.
Proof.
  simpl. unfold_effects. simpl.
  destruct (iter_Close it) as [e |]; destruct hasWritten; simpl; try reflexivity.
  destruct (rw_Write _ _). reflexivity.
Qed.

(** The response of the edge list handler once it has streamed [lines]. *)
Lemma edge_streamed_view (lines : list Line) (w : ResponseWriter) :
  committed w = None ->
  let w' := push lines (commit_ndjson (Header_Set "Content-Type" ndjson_ContentType w)) in
  status w' = Some http.StatusOK
  /\ sentHeader w' "Content-Type" = Some ndjson_ContentType
  /\ body w' = body w ++ lines.
Proof.
  intros Hc.
  apply (push_commit_view lines (Header_Set "Content-Type" ndjson_ContentType w)).
  exact Hc.
Qed.

(** X11.  When every matching policy can be fetched, the iterator closes
    cleanly and the connection holds, [edgeListPolicy] answers 200 with one
    record per name the pattern matches, in the order of the iterator.
    Unlike [listPolicy] it sends the ndjson content type in every case,
    also when no name matched. *)
Theorem edge_list_streams_matching_names (config : EdgeRouterConfig) (r : Request)
    (s : World) (pattern : string) (it : Iter) :
  patternFromRequest r list_APIPath = Ok pattern ->
  auth_VerifyRequest config r (Policies config) (Identities config) = None ->
  Policies_List (Policies config) = Ok it ->
  committed (rw s) = None ->
  quota (rw s) = None ->
  Forall (edge_fetchable config pattern) (iter_names it) ->
  iter_Close it = None ->
  result (edgeListPolicy_handler config) r s = None
  /\ status (rw (final (edgeListPolicy_handler config) r s)) = Some http.StatusOK
  /\ sentHeader (rw (final (edgeListPolicy_handler config) r s)) "Content-Type"
     = Some ndjson_ContentType
  /\ body (rw (final (edgeListPolicy_handler config) r s)) =
     body (rw s) ++ edge_records config pattern (iter_names it)
  /\ map record_name (edge_records config pattern (iter_names it))
     = List.filter (matches pattern) (iter_names it)
  /\ events (edgeListPolicy_handler config) r s =
     [EvAuthVerify; EvPoliciesList]
       ++ map EvPoliciesGet (List.filter (matches pattern) (iter_names it))
       ++ [EvClose; EvClose].
Proof.
  intros Hpat Hver Hlist Hc Hq Hfetch Hclose.
  assert (Hrun : edgeListPolicy_loop config pattern it (iter_names it) false (edge_entered s)
                 = edgeListPolicy_loop config pattern it []
                     (false || existsb (matches pattern) (iter_names it))
                     (edge_listed config pattern false (edge_entered s) (iter_names it))).
  { rewrite <- (app_nil_r (iter_names it)) at 1.
    apply edgeListPolicy_loop_prefix; assumption. }
  unfold events, result, final.
  rewrite (edgeListPolicy_handler_enters config r s pattern it Hpat Hver Hlist).
  rewrite Hrun, edgeListPolicy_loop_end, Hclose.
  unfold edge_finish, edge_listed. cbn [fst snd vault rw trace clock edge_entered orb].
  split; [reflexivity |].
  assert (Hev : drop (length (trace s))
                  ((((trace s ++ [EvAuthVerify; EvPoliciesList])
                     ++ map EvPoliciesGet (List.filter (matches pattern) (iter_names it)))
                    ++ [EvClose]) ++ [EvClose])
                = [EvAuthVerify; EvPoliciesList]
                    ++ map EvPoliciesGet (List.filter (matches pattern) (iter_names it))
                    ++ [EvClose; EvClose]).
  { rewrite <- !app_assoc. rewrite drop_app_length. reflexivity. }
  destruct (existsb (matches pattern) (iter_names it)) eqn:Hex.
  - destruct (edge_streamed_view (edge_records config pattern (iter_names it)) (rw s) Hc)
      as (Hst & Hct & Hbody).
    split; [exact Hst | split; [exact Hct | split; [exact Hbody |]]].
    split; [apply edge_records_names; exact Hfetch | exact Hev].
  - destruct (edge_records_none config pattern (iter_names it) Hex) as [Hrecs Hfil].
    rewrite Hrecs in *. rewrite push_nil.
    destruct (edge_streamed_view [] (rw s) Hc) as (Hst & Hct & Hbody).
    rewrite push_nil in Hst, Hct, Hbody.
    split; [exact Hst | split; [exact Hct | split; [exact Hbody |]]].
    split; [rewrite Hfil; reflexivity | exact Hev].
Qed.


(** *** The configuration of the edge *)

Lemma edgeListPolicy_loop_configure (config : EdgeRouterConfig) (APIPath : string)
    (c : Config) (pattern : string) (it : Iter) (names : list string) :
  forall hasWritten s,
    edgeListPolicy_loop (configure config APIPath c) pattern it names hasWritten s
    = edgeListPolicy_loop config pattern it names hasWritten s.
Proof.
  induction names as [| name names IH]; intros hasWritten s; [reflexivity |].
  destruct (matches pattern name) eqn:Hm.
  - rewrite !(edgeListPolicy_loop_match _ _ _ _ _ _ _ Hm). cbv zeta. simpl.
    destruct (Policies_Get (Policies config) name); [| reflexivity].
    destruct (rw_Write _ _) as [w2 [e |]]; [reflexivity | apply IH].
  - change (name :: names) with ([name] ++ names).
    rewrite !edgeListPolicy_loop_skip; try (repeat constructor; exact Hm).
    apply IH.
Qed.

Lemma edge_Path_injective (op op' : EdgeOp) : edge_Path op = edge_Path op' -> op = op'.
Proof. destruct op, op'; simpl; intros H; try reflexivity; discriminate H. Qed.

(** X13.  The configuration of an edge path reaches nothing but the
    timeout of that path: setting the entry of one operation leaves the
    timeout of the other operations as it was, and the method, the path, the
    body bound, the verification flag and the whole behaviour of every edge
    handler are the same under both configurations. *)
Theorem edge_configuration_sets_timeout_only (config : EdgeRouterConfig)
    (op op' : EdgeOp) (c : Config) :
  (op <> op' ->
   Timeout (edge_API op (configure config (edge_Path op') c))
   = Timeout (edge_API op config))
  /\ Method (edge_API op (configure config (edge_Path op') c)) = Method (edge_API op config)
  /\ Path (edge_API op (configure config (edge_Path op') c)) = Path (edge_API op config)
  /\ MaxBody (edge_API op (configure config (edge_Path op') c)) = MaxBody (edge_API op config)
  /\ Verify (edge_API op (configure config (edge_Path op') c)) = Verify (edge_API op config)
  /\ (forall r s,
        edge_handler op (configure config (edge_Path op') c) r s = edge_handler op config r s).
Proof.
  split.
  - intros Hne.
    assert (Hpath : edge_Path op' <> edge_Path op).
    { intros H. apply Hne. symmetry. apply edge_Path_injective. exact H. }
    destruct op; simpl; unfold edgeTimeout; simpl;
      rewrite (lookup_insert_ne _ _ _ _ Hpath); reflexivity.
  - repeat split; try (destruct op; reflexivity).
    intros r s. destruct op; simpl; try reflexivity.
    unfold edgeListPolicy_handler.
    destruct (patternFromRequest r list_APIPath) as [pattern | e]; [| reflexivity].
    unfold_effects. simpl.
    destruct (auth_VerifyRequest _ _ _ _); [reflexivity |].
    destruct (Policies_List _) as [it | e]; [| reflexivity].
    rewrite edgeListPolicy_loop_configure. reflexivity.
Qed.

End EdgeProperties.
(** ** What becomes of a failure in the list handlers *)

Section FailureProperties.
Context `{C : Collaborators}.

(** A loop of [listPolicy] that ends with the flag unset has met no
    matching name. *)
Lemma listPolicy_loop_unmatched (enclave : Enclave) (pattern : string) (it : Iter)
    (names : list string) :
  forall s,
    fst (fst (listPolicy_loop enclave pattern it names false s)) = false ->
    Forall (fun n => matches pattern n = false) names.
Proof.
  induction names as [| name names IH]; intros s Hflag; [constructor |].
  destruct (matches pattern name) eqn:Hm.
  - exfalso. revert Hflag.
    rewrite (listPolicy_loop_match _ _ _ _ _ _ _ Hm). cbv zeta.
    destruct (Enclave_GetPolicy (vault s) enclave name) as [policy | e]; [| discriminate].
    destruct (rw_Write _ _) as [w2 [e |]]; [discriminate |].
    rewrite listPolicy_loop_flag. discriminate.
  - constructor; [exact Hm |]. apply (IH s).
    change (name :: names) with ([name] ++ names) in Hflag.
    rewrite listPolicy_loop_skip in Hflag; [exact Hflag | repeat constructor; exact Hm].
Qed.

(** Once a name has matched, the loop of [edgeListPolicy] returns no
    error, whatever the connection does. *)
Lemma edgeListPolicy_loop_written (config : EdgeRouterConfig) (pattern : string) (it : Iter)
    (names : list string) :
  forall s, fst (edgeListPolicy_loop config pattern it names true s) = None.
Proof.
  induction names as [| name names IH]; intros s.
  - rewrite edgeListPolicy_loop_end. destruct (iter_Close it); reflexivity.
  - destruct (matches pattern name) eqn:Hm.
    + rewrite (edgeListPolicy_loop_match _ _ _ _ _ _ _ Hm). cbv zeta.
      destruct (Policies_Get (Policies config) name) as [policy | e]; [| reflexivity].
      destruct (rw_Write _ _) as [w2 [e |]]; [reflexivity | apply IH].
    + change (name :: names) with ([name] ++ names).
      rewrite edgeListPolicy_loop_skip; [| repeat constructor; exact Hm].
      apply IH.
Qed.

Lemma edgeListPolicy_loop_unmatched (config : EdgeRouterConfig) (pattern : string) (it : Iter)
    (names : list string) :
  forall s e,
    fst (edgeListPolicy_loop config pattern it names false s) = Some e ->
    Forall (fun n => matches pattern n = false) names.
Proof.
  induction names as [| name names IH]; intros s e Hres; [constructor |].
  destruct (matches pattern name) eqn:Hm.
  - exfalso. revert Hres.
    rewrite (edgeListPolicy_loop_match _ _ _ _ _ _ _ Hm). cbv zeta.
    destruct (Policies_Get (Policies config) name) as [policy | e']; [| discriminate].
    destruct (rw_Write _ _) as [w2 [e' |]]; [discriminate |].
    rewrite edgeListPolicy_loop_written. discriminate.
  - constructor; [exact Hm |]. apply (IH s e).
    change (name :: names) with ([name] ++ names) in Hres.
    rewrite edgeListPolicy_loop_skip in Hres; [exact Hres | repeat constructor; exact Hm].
Qed.

Lemma unmatched_existsb (pattern : string) (names : list string) :
  Forall (fun n => matches pattern n = false) names ->
  existsb (matches pattern) names = false.
Proof.
  induction 1 as [| name names Hm _ IH]; [reflexivity |]. simpl. rewrite Hm. exact IH.
Qed.

(** *** A fetch that fails, at any place of the stream *)

Lemma listPolicy_fetch_fails (r : Request) (s : World) (pattern : string)
    (enclave : Enclave) (it : Iter) (pre post : list string) (name : string) (e : error) :
  patternFromRequest r list_APIPath = Ok pattern ->
  enclaveFromRequest (vault s) r = Ok enclave ->
  Enclave_VerifyRequest (vault s) enclave r = None ->
  Enclave_ListPolicies (vault s) enclave = Ok it ->
  committed (rw s) = None ->
  quota (rw s) = None ->
  iter_names it = pre ++ name :: post ->
  Forall (fetchable (vault s) enclave pattern) pre ->
  matches pattern name = true ->
  Enclave_GetPolicy (vault s) enclave name = Err e ->
  result listPolicy_handler r s = None
  /\ status (rw (final listPolicy_handler r s)) = Some http.StatusOK
  /\ body (rw (final listPolicy_handler r s)) =
     body (rw s) ++ records (vault s) enclave pattern pre
       ++ [ListResponse "" zeroTime "" (Error e)].
Proof.
  intros Hpat Henc Hver Hlist Hc Hq Hnames Hfetch Hm Hget.
  unfold result, final.
  rewrite (listPolicy_handler_enters r s pattern enclave it Hpat Henc Hver Hlist).
  rewrite Hnames.
  rewrite (listPolicy_loop_fetch_fails enclave pattern it pre post name e
             (entered enclave s) Hq Hc Hfetch Hm Hget).
  unfold listPolicy_finish. cbn [fst snd vault rw trace clock entered].
  rewrite (push_commit_written _ _ _ Hq Hc).
  destruct (push_commit_view (records (vault s) enclave pattern pre ++ [ErrorRecord (Error e)])
              (rw s) Hc) as (Hst & _ & Hbody).
  split; [reflexivity | split; [exact Hst | exact Hbody]].
Qed.

Lemma edgeListPolicy_fetch_fails (config : EdgeRouterConfig) (r : Request) (s : World)
    (pattern : string) (it : Iter) (pre post : list string) (name : string) (e : error) :
  patternFromRequest r list_APIPath = Ok pattern ->
  auth_VerifyRequest config r (Policies config) (Identities config) = None ->
  Policies_List (Policies config) = Ok it ->
  committed (rw s) = None ->
  quota (rw s) = None ->
  iter_names it = pre ++ name :: post ->
  Forall (edge_fetchable config pattern) pre ->
  matches pattern name = true ->
  Policies_Get (Policies config) name = Err e ->
  result (edgeListPolicy_handler config) r s = None
  /\ status (rw (final (edgeListPolicy_handler config) r s)) = Some http.StatusOK
  /\ body (rw (final (edgeListPolicy_handler config) r s)) =
     body (rw s) ++ edge_records config pattern pre
       ++ [ListResponse "" zeroTime "" (Error e)].
Proof.
  intros Hpat Hver Hlist Hc Hq Hnames Hfetch Hm Hget.
  unfold result, final.
  rewrite (edgeListPolicy_handler_enters config r s pattern it Hpat Hver Hlist).
  rewrite Hnames.
  rewrite (edgeListPolicy_loop_prefix config pattern it pre (name :: post) false
             (edge_entered s) Hq Hc Hfetch).
  rewrite (edgeListPolicy_loop_match _ _ _ _ _ _ _ Hm). cbv zeta. rewrite Hget.
  unfold edge_finish, edge_listed. cbn [fst snd vault rw trace clock edge_entered orb].
  destruct (edge_streamed_view (edge_records config pattern pre ++ [ErrorRecord (Error e)])
              (rw s) Hc) as (Hst & _ & Hbody).
  destruct (existsb (matches pattern) pre) eqn:Hex.
  - rewrite (push_commit_written (edge_records config pattern pre)
               (Header_Set "Content-Type" ndjson_ContentType (rw s))
               (ErrorRecord (Error e)) Hq Hc).
    split; [reflexivity | split; [exact Hst | exact Hbody]].
  - destruct (edge_records_none config pattern pre Hex) as [Hrecs _].
    rewrite Hrecs in *. rewrite push_nil.
    assert (Hw : fst (rw_Write (ErrorRecord (Error e))
                        (Header_Set "Content-Type" ndjson_ContentType
                           (Header_Set "Content-Type" ndjson_ContentType (rw s))))
                 = push ([] ++ [ErrorRecord (Error e)])
                     (commit_ndjson (Header_Set "Content-Type" ndjson_ContentType (rw s)))).
    { rewrite edge_first_write; [reflexivity | exact Hq | exact Hc]. }
    rewrite Hw.
    split; [reflexivity | split; [exact Hst | exact Hbody]].
Qed.

(** *** The errors the list handlers return *)

Lemma listPolicy_returns_refusal (r : Request) (s : World) (e : error) :
  result listPolicy_handler r s = Some e ->
  list_refusal r s e /\ rw (final listPolicy_handler r s) = rw s.
Proof.
  unfold result, final.
  destruct (patternFromRequest r list_APIPath) as [pattern | e0] eqn:Hpat.
  2:{ unfold listPolicy_handler. rewrite Hpat. simpl. intros [= <-].
      split; [apply refused_pattern; exact Hpat | reflexivity]. }
  destruct (enclaveFromRequest (vault s) r) as [enclave | e0] eqn:Henc.
  2:{ unfold listPolicy_handler. rewrite Hpat. unfold_effects. simpl. rewrite Henc. simpl.
      intros [= <-]. split; [eapply refused_enclave; eassumption | reflexivity]. }
  destruct (listPolicy_refused r s pattern enclave Hpat Henc) as [Hrefused Hclosed].
  destruct (Enclave_VerifyRequest (vault s) enclave r) as [e0 |] eqn:Hver.
  { destruct (Hrefused e0 eq_refl) as [Hres Hrw]. unfold result, final in Hres, Hrw.
    rewrite Hres, Hrw. intros [= <-].
    split; [eapply refused_request; eassumption | reflexivity]. }
  destruct (Enclave_ListPolicies (vault s) enclave) as [it | e0] eqn:Hlist.
  2:{ destruct (Hclosed e0 eq_refl eq_refl) as [Hres Hrw]. unfold result, final in Hres, Hrw.
      rewrite Hres, Hrw. intros [= <-].
      split; [eapply refused_iterator; eassumption | reflexivity]. }
  rewrite (listPolicy_handler_enters r s pattern enclave it Hpat Henc Hver Hlist).
  pose proof (listPolicy_loop_unmatched enclave pattern it (iter_names it)
                (entered enclave s)) as Hunmatched.
  destruct (listPolicy_loop enclave pattern it (iter_names it) false (entered enclave s))
    as [[hasWritten err] s1] eqn:Hloop.
  destruct hasWritten.
  - destruct err; simpl; discriminate.
  - specialize (Hunmatched eq_refl).
    rewrite (listPolicy_loop_no_match _ _ _ _ _ Hunmatched) in Hloop.
    injection Hloop as <- <-. simpl.
    destruct (iter_Close it) as [e0 |] eqn:Hclose; simpl; [| discriminate].
    intros [= <-]. split; [eapply refused_close; eassumption | reflexivity].
Qed.

Lemma listPolicy_refusal_returned (r : Request) (s : World) (e : error) :
  list_refusal r s e -> result listPolicy_handler r s = Some e.
Proof.
  intros [Hpat | pattern Hpat Henc | pattern enclave Hpat Henc Hver
         | pattern enclave Hpat Henc Hver Hlist
         | pattern enclave it Hpat Henc Hver Hlist Hnames Hclose].
  - unfold result, listPolicy_handler. rewrite Hpat. reflexivity.
  - unfold result, listPolicy_handler. rewrite Hpat. unfold_effects. simpl.
    rewrite Henc. reflexivity.
  - destruct (listPolicy_refused r s pattern enclave Hpat Henc) as [Hrefused _].
    apply (Hrefused e Hver).
  - destruct (listPolicy_refused r s pattern enclave Hpat Henc) as [_ Hclosed].
    apply (Hclosed e Hver Hlist).
  - unfold result.
    rewrite (listPolicy_handler_enters r s pattern enclave it Hpat Henc Hver Hlist).
    rewrite (listPolicy_loop_no_match _ _ _ _ _ Hnames). rewrite Hclose. reflexivity.
Qed.

Lemma edgeListPolicy_returns_refusal (config : EdgeRouterConfig) (r : Request) (s : World)
    (e : error) :
  result (edgeListPolicy_handler config) r s = Some e ->
  edge_list_refusal config r e
  /\ committed (rw (final (edgeListPolicy_handler config) r s)) = committed (rw s)
  /\ body (rw (final (edgeListPolicy_handler config) r s)) = body (rw s).
Proof.
  unfold result, final.
  destruct (patternFromRequest r list_APIPath) as [pattern | e0] eqn:Hpat.
  2:{ unfold edgeListPolicy_handler. rewrite Hpat. simpl. intros [= <-].
      split; [apply edge_refused_pattern; exact Hpat | split; reflexivity]. }
  destruct (edgeListPolicy_refused config r s pattern Hpat) as [Hrefused Hclosed].
  destruct (auth_VerifyRequest config r (Policies config) (Identities config))
    as [e0 |] eqn:Hver.
  { destruct (Hrefused e0 eq_refl) as [Hres Hrw]. unfold result, final in Hres, Hrw.
    rewrite Hres, Hrw. intros [= <-].
    split; [eapply edge_refused_request; eassumption | split; reflexivity]. }
  destruct (Policies_List (Policies config)) as [it | e0] eqn:Hlist.
  2:{ destruct (Hclosed e0 eq_refl eq_refl) as [Hres Hrw]. unfold result, final in Hres, Hrw.
      rewrite Hres, Hrw. intros [= <-].
      split; [eapply edge_refused_iterator; eassumption | split; reflexivity]. }
  rewrite (edgeListPolicy_handler_enters config r s pattern it Hpat Hver Hlist).
  pose proof (edgeListPolicy_loop_unmatched config pattern it (iter_names it)
                (edge_entered s)) as Hunmatched.
  destruct (edgeListPolicy_loop config pattern it (iter_names it) false (edge_entered s))
    as [res s1] eqn:Hloop.
  simpl. intros ->. specialize (Hunmatched e eq_refl).
  rewrite (edgeListPolicy_loop_no_match _ _ _ _ _ Hunmatched) in Hloop.
  destruct (iter_Close it) as [e0 |] eqn:Hclose; [| discriminate].
  injection Hloop as <- <-. simpl.
  split; [eapply edge_refused_close; eassumption | split; reflexivity].
Qed.

Lemma edgeListPolicy_refusal_returned (config : EdgeRouterConfig) (r : Request) (s : World)
    (e : error) :
  edge_list_refusal config r e -> result (edgeListPolicy_handler config) r s = Some e.
Proof.
  intros [Hpat | pattern Hpat Hver | pattern Hpat Hver Hlist
         | pattern it Hpat Hver Hlist Hnames Hclose].
  - unfold result, edgeListPolicy_handler. rewrite Hpat. reflexivity.
  - destruct (edgeListPolicy_refused config r s pattern Hpat) as [Hrefused _].
    apply (Hrefused e Hver).
  - destruct (edgeListPolicy_refused config r s pattern Hpat) as [_ Hclosed].
    apply (Hclosed e Hver Hlist).
  - unfold result.
    rewrite (edgeListPolicy_handler_enters config r s pattern it Hpat Hver Hlist).
    rewrite (edgeListPolicy_loop_no_match _ _ _ _ _ Hnames). rewrite Hclose. reflexivity.
Qed.

(** C4, as amended.  Both list handlers fetch a policy only after they
    have marked the response as begun, so a fetch that fails is reported in
    the body wherever it happens, also at the first match with nothing
    written yet: the handler returns no error, the status is 200 and the
    body is the records of the names before it followed by the one line
    that carries the message.  An error is returned exactly in the cases
    that come before a first match: the pattern does not parse, the enclave
    does not resolve, the request is not verified, the iterator does not
    open, or it fails to close when no name has matched; the response is
    then as it was.  Once a name has matched no error is returned, on any
    connection. *)
Theorem list_fetch_failure_in_body :
  (forall r s pattern enclave it pre name post e,
     patternFromRequest r list_APIPath = Ok pattern ->
     enclaveFromRequest (vault s) r = Ok enclave ->
     Enclave_VerifyRequest (vault s) enclave r = None ->
     Enclave_ListPolicies (vault s) enclave = Ok it ->
     committed (rw s) = None ->
     quota (rw s) = None ->
     iter_names it = pre ++ name :: post ->
     Forall (fetchable (vault s) enclave pattern) pre ->
     matches pattern name = true ->
     Enclave_GetPolicy (vault s) enclave name = Err e ->
     result listPolicy_handler r s = None
     /\ status (rw (final listPolicy_handler r s)) = Some http.StatusOK
     /\ body (rw (final listPolicy_handler r s)) =
        body (rw s) ++ records (vault s) enclave pattern pre
          ++ [ListResponse "" zeroTime "" (Error e)])
  /\ (forall config r s pattern it pre name post e,
        patternFromRequest r list_APIPath = Ok pattern ->
        auth_VerifyRequest config r (Policies config) (Identities config) = None ->
        Policies_List (Policies config) = Ok it ->
        committed (rw s) = None ->
        quota (rw s) = None ->
        iter_names it = pre ++ name :: post ->
        Forall (edge_fetchable config pattern) pre ->
        matches pattern name = true ->
        Policies_Get (Policies config) name = Err e ->
        result (edgeListPolicy_handler config) r s = None
        /\ status (rw (final (edgeListPolicy_handler config) r s)) = Some http.StatusOK
        /\ body (rw (final (edgeListPolicy_handler config) r s)) =
           body (rw s) ++ edge_records config pattern pre
             ++ [ListResponse "" zeroTime "" (Error e)])
  /\ (forall r s e,
        (result listPolicy_handler r s = Some e <-> list_refusal r s e)
        /\ (result listPolicy_handler r s = Some e ->
            rw (final listPolicy_handler r s) = rw s))
  /\ (forall config r s e,
        (result (edgeListPolicy_handler config) r s = Some e <-> edge_list_refusal config r e)
        /\ (result (edgeListPolicy_handler config) r s = Some e ->
            committed (rw (final (edgeListPolicy_handler config) r s)) = committed (rw s)
            /\ body (rw (final (edgeListPolicy_handler config) r s)) = body (rw s)))
  /\ (forall r s pattern enclave it,
        patternFromRequest r list_APIPath = Ok pattern ->
        enclaveFromRequest (vault s) r = Ok enclave ->
        Enclave_VerifyRequest (vault s) enclave r = None ->
        Enclave_ListPolicies (vault s) enclave = Ok it ->
        existsb (matches pattern) (iter_names it) = true ->
        result listPolicy_handler r s = None)
  /\ (forall config r s pattern it,
        patternFromRequest r list_APIPath = Ok pattern ->
        auth_VerifyRequest config r (Policies config) (Identities config) = None ->
        Policies_List (Policies config) = Ok it ->
        existsb (matches pattern) (iter_names it) = true ->
        result (edgeListPolicy_handler config) r s = None).
Proof.
  split; [| split; [| split; [| split; [| split]]]].
  - intros r s pattern enclave it pre name post e. apply listPolicy_fetch_fails.
  - intros config r s pattern it pre name post e. apply edgeListPolicy_fetch_fails.
  - intros r s e. split; [split |].
    + intros Hres. apply (listPolicy_returns_refusal r s e Hres).
    + apply listPolicy_refusal_returned.
    + intros Hres. apply (listPolicy_returns_refusal r s e Hres).
  - intros config r s e. split; [split |].
    + intros Hres. apply (edgeListPolicy_returns_refusal config r s e Hres).
    + apply edgeListPolicy_refusal_returned.
    + intros Hres. apply (edgeListPolicy_returns_refusal config r s e Hres).
  - intros r s pattern enclave it Hpat Henc Hver Hlist Hex.
    destruct (result listPolicy_handler r s) as [e |] eqn:Hres; [| reflexivity].
    exfalso. revert Hres. unfold result.
    rewrite (listPolicy_handler_enters r s pattern enclave it Hpat Henc Hver Hlist).
    pose proof (listPolicy_loop_unmatched enclave pattern it (iter_names it)
                  (entered enclave s)) as Hunmatched.
    destruct (listPolicy_loop enclave pattern it (iter_names it) false (entered enclave s))
      as [[hasWritten err] s1].
    destruct hasWritten; [destruct err; simpl; discriminate |].
    rewrite (unmatched_existsb pattern _ (Hunmatched eq_refl)) in Hex. discriminate.
  - intros config r s pattern it Hpat Hver Hlist Hex.
    destruct (result (edgeListPolicy_handler config) r s) as [e |] eqn:Hres; [| reflexivity].
    exfalso. revert Hres. unfold result.
    rewrite (edgeListPolicy_handler_enters config r s pattern it Hpat Hver Hlist).
    pose proof (edgeListPolicy_loop_unmatched config pattern it (iter_names it)
                  (edge_entered s)) as Hunmatched.
    destruct (edgeListPolicy_loop config pattern it (iter_names it) false (edge_entered s))
      as [res s1].
    simpl. intros ->.
    rewrite (unmatched_existsb pattern _ (Hunmatched e eq_refl)) in Hex. discriminate.
Qed.

End FailureProperties.

(** * Runs on the in-memory vault *)

Import MemVault.

Lemma assign_to_self_forbidden_witness :
  result assignPolicy_handler admin_to_admin quiet = Some errSelfAssign
  /\ vault (final assignPolicy_handler admin_to_admin quiet)
     = vault quiet.
Proof.
  destruct (assign_to_self_forbidden (C := memVault)
              admin_to_admin quiet eq_refl) as [(_ & Hvault & _) Hchecks].
  destruct (Hchecks "readonly" "tenant") as [Hres _]; try (vm_compute; reflexivity).
  split; [exact Hres | exact Hvault].
Defined.

(** C2 as stated fails: the admin assigning to the admin is told forbidden,
    not bad request. *)
Lemma assign_admin_by_admin_forbidden :
  decodeAssign admin_to_admin = Ok "admin"
  /\ Vault_Admin (vault quiet) = Ok "admin"
  /\ statusOf (result assignPolicy_handler admin_to_admin quiet)
     = Some http.StatusForbidden
  /\ statusOf (result assignPolicy_handler admin_to_admin quiet)
     <> Some http.StatusBadRequest.
Proof.
  repeat split; try (vm_compute; reflexivity).
  vm_compute. discriminate.
Qed.

Lemma assign_to_protected_identity_witness :
  result assignPolicy_handler alice_to_admin quiet = Some errAdminAssign
  /\ vault (final assignPolicy_handler alice_to_admin quiet)
     = vault quiet.
Proof.
  destruct (assign_to_protected_identity (C := memVault)
              alice_to_admin quiet "admin" eq_refl) as [Hrej Hchecks].
  destruct Hrej as (_ & Hvault & _); [right; reflexivity |].
  destruct (Hchecks "readonly" "tenant") as (_ & Hadmin & _); try (vm_compute; reflexivity).
  destruct Hadmin as [Hres _]; try (vm_compute; reflexivity).
  { vm_compute. discriminate. }
  split; [exact Hres | exact Hvault].
Defined.

Lemma lookup_success_is_reported_witness :
  (forall l, fst (Encode l hung_up) = Some errBrokenPipe)
  /\ reports_success describePolicy_handler describe_readonly hung_up
       (DescribeResponse (CreatedAt readonly) (CreatedBy readonly))
  /\ body (rw (final describePolicy_handler describe_readonly hung_up)) = [].
Proof.
  destruct (lookup_success_is_reported (C := memVault)
              describe_readonly hung_up "readonly" readonly eq_refl) as [Hvault _].
  destruct (Hvault "tenant") as [Hdescribe _];
    [vm_compute; reflexivity | vm_compute; reflexivity | vm_compute; reflexivity |].
  pose proof (Hdescribe eq_refl) as H.
  split; [intros l; apply Encode_hung_up; reflexivity |].
  split; [exact H |].
  destruct H as (_ & _ & _ & Hbody). exact Hbody.
Defined.

(** C8 as stated fails: an edge operation takes its timeout from the
    configuration. *)
Lemma edge_timeout_configured :
  Timeout (edgeDescribePolicy slow_edge) = 30 * time.Second
  /\ Timeout (edgeDescribePolicy slow_edge) <> 15 * time.Second.
Proof.
  split; [vm_compute; reflexivity | vm_compute; discriminate].
Qed.

Lemma api_limits_witness :
  ServeHTTP (assignPolicy router) oversized quiet = (Some errBodyTooLarge, quiet).
Proof.
  destruct (api_limits (C := memVault)) as (_ & _ & Hgate).
  apply Hgate. vm_compute. reflexivity.
Defined.



(** C4 as stated fails: with nothing written yet, the failing fetch of the
    first match is answered with status 200 and an error record, by the edge
    handler and by the vault handler alike. *)
Lemma first_fetch_failure_in_body :
  (committed (rw quiet) = None /\ body (rw quiet) = [])
  /\ (events (edgeListPolicy_handler (demo_edge ["ops"] None)) edge_list_all quiet =
        [EvAuthVerify; EvPoliciesList; EvPoliciesGet "ops"; EvClose]
      /\ result (edgeListPolicy_handler (demo_edge ["ops"] None)) edge_list_all quiet = None
      /\ status (rw (final (edgeListPolicy_handler (demo_edge ["ops"] None)) edge_list_all quiet))
         = Some http.StatusOK
      /\ body (rw (final (edgeListPolicy_handler (demo_edge ["ops"] None)) edge_list_all quiet))
         = [ErrorRecord "store: read failed"])
  /\ (result listPolicy_handler list_all (broken "ops") = None
      /\ status (rw (final listPolicy_handler list_all (broken "ops"))) = Some http.StatusOK
      /\ body (rw (final listPolicy_handler list_all (broken "ops")))
         = [ErrorRecord "store: read failed"]).
Proof.
  repeat split; vm_compute; reflexivity.
Qed.

Lemma list_fetch_failure_in_body_witness :
  (result (edgeListPolicy_handler (demo_edge ["readonly"] None)) edge_list_all quiet = None
   /\ body (rw (final (edgeListPolicy_handler (demo_edge ["readonly"] None))
                  edge_list_all quiet))
      = [ListResponse "ops" 1700000001 "admin" "";
         ListResponse "" 0 "" "store: read failed"])
  /\ (result listPolicy_handler list_all (broken "ops") = None
      /\ body (rw (final listPolicy_handler list_all (broken "ops")))
         = [ListResponse "" 0 "" "store: read failed"])
  /\ list_refusal MemRuns.lost quiet errEnclaveNotFound
  /\ result listPolicy_handler list_all (broken "readonly") = None.
Proof.
  destruct (list_fetch_failure_in_body (C := memVault))
    as (Hvault & Hedge & Hreturned & _ & Hmatched & _).
  split; [| split; [| split]].
  - destruct (Hedge (demo_edge ["readonly"] None) edge_list_all quiet "*"
                {| iter_names := ["ops"; "readonly"]; iter_Close := None |}
                ["ops"] "readonly" [] errStore) as (Hres & _ & Hbody);
      [ vm_compute; reflexivity | vm_compute; reflexivity | vm_compute; reflexivity
      | reflexivity | reflexivity | reflexivity | | vm_compute; reflexivity
      | vm_compute; reflexivity |].
    { repeat constructor. intros _. exists ops. vm_compute. reflexivity. }
    split; [exact Hres |]. rewrite Hbody. vm_compute. reflexivity.
  - destruct (Hvault list_all (broken "ops") "*" "tenant"
                {| iter_names := ["ops"; "readonly"]; iter_Close := None |}
                [] "ops" ["readonly"] errStore) as (Hres & _ & Hbody);
      [ vm_compute; reflexivity | vm_compute; reflexivity | vm_compute; reflexivity
      | vm_compute; reflexivity | reflexivity | reflexivity | reflexivity | constructor
      | vm_compute; reflexivity | vm_compute; reflexivity |].
    split; [exact Hres |]. rewrite Hbody. vm_compute. reflexivity.
  - destruct (Hreturned MemRuns.lost quiet errEnclaveNotFound) as [[Hcause _] _].
    apply Hcause. vm_compute. reflexivity.
  - apply (Hmatched list_all (broken "readonly") "*" "tenant"
             {| iter_names := ["ops"; "readonly"]; iter_Close := None |});
      vm_compute; reflexivity.
Defined.

Lemma list_commits_on_first_match_witness :
  result listPolicy_handler list_none quiet = None
  /\ committed (rw (final listPolicy_handler list_none quiet)) = Some (http.StatusOK, ∅)
  /\ body (rw (final listPolicy_handler list_none quiet)) = [].
Proof.
  destruct (list_commits_on_first_match (C := memVault) list_none quiet "zz*" "tenant"
              {| iter_names := ["ops"; "readonly"]; iter_Close := None |})
    as [_ Hnone]; try (vm_compute; reflexivity).
  destruct Hnone as [Hclean _].
  { repeat constructor. }
  destruct (Hclean eq_refl) as (Hres & Hc & Hbody & _).
  split; [exact Hres | split; [exact Hc | exact Hbody]].
Defined.

Lemma mem_Match_contract : path_Match_contract (C := memVault).
Proof.
  intros pattern name matched e. simpl. unfold mem_Match.
  destruct (contains _ pattern || contains _ pattern); intros H; inversion H; reflexivity.
Qed.

Lemma list_match_errors_skipped_witness :
  result listPolicy_handler list_malformed quiet = None
  /\ status (rw (final listPolicy_handler list_malformed quiet)) = Some http.StatusOK
  /\ body (rw (final listPolicy_handler list_malformed quiet)) = [].
Proof.
  destruct (list_match_errors_skipped (C := memVault) "[" mem_Match_contract) as [_ Hrun].
  destruct (Hrun list_malformed quiet) as [Hvault _]; try (vm_compute; reflexivity).
  destruct (Hvault "tenant" {| iter_names := ["ops"; "readonly"]; iter_Close := None |})
    as (Hres & Hst & Hbody & _); try (vm_compute; reflexivity).
  { repeat constructor; vm_compute; discriminate. }
  split; [exact Hres | split; [exact Hst | exact Hbody]].
Defined.

Lemma write_replaces_policy_witness :
  Enclave_GetPolicy
    (vault (final writePolicy_handler write_second
              (next_request (final writePolicy_handler write_first quiet) None 1700000200)))
    "tenant" "readonly"
  = Ok {| Allow := ["/v1/key/read/*"]; Deny := ["/v1/key/read/secret*"];
          CreatedAt := 1700000200; CreatedBy := "alice" |}.
Proof.
  destruct (write_replaces_policy write_first write_second quiet None 1700000200)
    as (es & allow1 & deny1 & Hes & _ & _ & _ & Hsecond); [vm_compute; reflexivity |].
  destruct Hsecond as (allow2 & deny2 & Hbody & _ & _ & Hread);
    [reflexivity | reflexivity | vm_compute; reflexivity |].
  injection Hbody as <- <-.
  vm_compute in Hes. injection Hes as <-.
  apply Hread. vm_compute. reflexivity.
Defined.

(** C7 as stated fails: the edge describe reads the policy set without
    taking any lock. *)
Lemma edge_describe_takes_no_lock :
  result (edgeDescribePolicy_handler (demo_edge [] None)) describe_readonly quiet = None
  /\ events (edgeDescribePolicy_handler (demo_edge [] None)) describe_readonly quiet =
     [EvAuthVerify; EvPoliciesGet "readonly"]
  /\ ~ lock_discipline (enclave_lock OpDescribe)
        (events (edgeDescribePolicy_handler (demo_edge [] None)) describe_readonly quiet).
Proof.
  assert (Hev : events (edgeDescribePolicy_handler (demo_edge [] None)) describe_readonly quiet
                = [EvAuthVerify; EvPoliciesGet "readonly"]) by reflexivity.
  split; [vm_compute; reflexivity | split; [exact Hev |]].
  rewrite Hev. intros H. inversion H.
Qed.

Lemma router_lock_discipline_witness :
  (exists ops,
     Forall (fun ev => is_access ev = true) ops
     /\ events (router_handler OpAssign) alice_to_admin quiet =
        [EvLock Vault_RLocker; EvResolve; EvLock (Enclave_Locker "tenant"); EvVerify "tenant"]
          ++ ops ++ [EvUnlock (Enclave_Locker "tenant"); EvUnlock Vault_RLocker])
  /\ router_handler OpDescribe MemRuns.unparsed quiet = (Some errInvalidName, quiet)
  /\ events (router_handler OpDescribe) MemRuns.unparsed quiet = [].
Proof.
  split.
  - destruct (router_lock_discipline (C := memVault) alice_to_admin quiet) as [Hrouter _].
    destruct (Hrouter OpAssign) as (_ & _ & Hshape).
    destruct (Hshape "readonly") as [_ Hlocked]; [vm_compute; reflexivity |].
    apply (Hlocked "tenant"). vm_compute. reflexivity.
  - destruct (router_lock_discipline (C := memVault) MemRuns.unparsed quiet) as [Hrouter _].
    destruct (Hrouter OpDescribe) as (_ & Hunparsed & _).
    apply Hunparsed. vm_compute. reflexivity.
Defined.

Import MemRuns.

Lemma unverified_request_stops_witness :
  result (router_handler OpDelete) stranger_delete quiet = Some errNotAllowed
  /\ vault (final (router_handler OpDelete) stranger_delete quiet) = vault quiet
  /\ events (router_handler OpDelete) stranger_delete quiet =
     locked_events (enclave_lock OpDelete) "tenant" [].
Proof.
  destruct (unverified_request_stops (C := memVault) stranger_delete quiet errNotAllowed)
    as [Hrouter _].
  destruct (Hrouter OpDelete "readonly" "tenant") as (Hres & Hvault & _ & Hev);
    [vm_compute; reflexivity | vm_compute; reflexivity | vm_compute; reflexivity |].
  split; [exact Hres | split; [exact Hvault | exact Hev]].
Defined.

Lemma unparsed_or_unresolved_request_stops_witness :
  router_handler OpWrite unparsed quiet = (Some errInvalidName, quiet)
  /\ result (router_handler OpRead) lost quiet = Some errEnclaveNotFound.
Proof.
  split.
  - destruct (unparsed_or_unresolved_request_stops (C := memVault) unparsed quiet
                errInvalidName) as (Hparse & _ & _).
    apply (Hparse OpWrite). vm_compute. reflexivity.
  - destruct (unparsed_or_unresolved_request_stops (C := memVault) lost quiet
                errEnclaveNotFound) as (_ & _ & Hresolve).
    destruct (Hresolve OpRead "readonly") as (Hres & _);
      [vm_compute; reflexivity | vm_compute; reflexivity |].
    exact Hres.
Defined.

Lemma failed_lookup_is_returned_witness :
  result describePolicy_handler describe_missing quiet = Some errPolicyNotFound
  /\ rw (final describePolicy_handler describe_missing quiet) = rw quiet.
Proof.
  destruct (failed_lookup_is_returned (C := memVault) describe_missing quiet "missing"
              errPolicyNotFound) as [Hvault _].
  destruct (Hvault "tenant") as [Hdescribe _];
    [vm_compute; reflexivity | vm_compute; reflexivity | vm_compute; reflexivity |].
  destruct (Hdescribe eq_refl) as (Hres & Hrw & _).
  split; [exact Hres | exact Hrw].
Defined.

Lemma assign_outcome_witness :
  result assignPolicy_handler admin_to_bob quiet = None
  /\ events assignPolicy_handler admin_to_bob quiet =
     locked_events Enclave_Locker "tenant" [EvAdmin; EvAssignPolicy "tenant" "readonly" "bob"].
Proof.
  destruct (assign_outcome (C := memVault) admin_to_bob quiet) as [Hpass _].
  destruct (Hpass "readonly" "tenant" "bob" "admin") as (Hres & _ & Hev & _);
    [ vm_compute; reflexivity | vm_compute; reflexivity | vm_compute; reflexivity
    | vm_compute; reflexivity | vm_compute; reflexivity | vm_compute; reflexivity
    | vm_compute; discriminate | vm_compute; reflexivity | vm_compute; discriminate |].
  split; [rewrite Hres; vm_compute; reflexivity | exact Hev].
Defined.

Lemma write_outcome_witness :
  result writePolicy_handler write_first quiet = None
  /\ events writePolicy_handler write_first quiet =
     locked_events Enclave_Locker "tenant"
       [EvSetPolicy "tenant" "readonly"
          (written_policy write_first quiet ["/v1/key/read/*"; "/v1/key/list/*"] [])].
Proof.
  destruct (write_outcome (C := memVault) write_first quiet "readonly" "tenant")
    as [_ Hdecoded];
    [vm_compute; reflexivity | vm_compute; reflexivity | vm_compute; reflexivity |].
  destruct (Hdecoded ["/v1/key/read/*"; "/v1/key/list/*"] []) as (Hres & _ & Hev & _);
    [reflexivity |].
  split; [rewrite Hres; vm_compute; reflexivity | exact Hev].
Defined.

Lemma delete_outcome_witness :
  result deletePolicy_handler delete_ops quiet = None
  /\ Enclave_GetPolicy (vault (final deletePolicy_handler delete_ops quiet)) "tenant" "ops"
     = Err errPolicyNotFound.
Proof.
  destruct (delete_outcome (C := memVault) delete_ops quiet "ops" "tenant")
    as (Hres & Hvault & _);
    [vm_compute; reflexivity | vm_compute; reflexivity | vm_compute; reflexivity |].
  split; [rewrite Hres; vm_compute; reflexivity |].
  rewrite Hvault. vm_compute. reflexivity.
Defined.

Lemma queries_never_mutate_witness :
  vault (final (router_handler OpList) list_all quiet) = vault quiet.
Proof.
  destruct (queries_never_mutate (C := memVault) list_all quiet) as [Hrouter _].
  destruct (Hrouter OpList eq_refl) as [Hvault _]. exact Hvault.
Defined.

Lemma outcome_and_response_agree_witness :
  answers (router_handler OpList) list_all (broken "ops")
  /\ answers (router_handler OpDescribe) describe_missing quiet.
Proof.
  split.
  - destruct (outcome_and_response_agree (C := memVault) list_all (broken "ops") eq_refl)
      as [Hrouter _].
    apply Hrouter.
  - destruct (outcome_and_response_agree (C := memVault) describe_missing quiet eq_refl)
      as [Hrouter _].
    apply Hrouter.
Defined.

Lemma list_streams_matching_names_witness :
  body (rw (final listPolicy_handler list_all quiet)) =
    [ListResponse "ops" 1700000001 "admin" ""; ListResponse "readonly" 1700000000 "admin" ""].
Proof.
  destruct (list_streams_matching_names (C := memVault) list_all quiet "*" "tenant"
              {| iter_names := ["ops"; "readonly"]; iter_Close := None |})
    as (_ & _ & Hbody & _);
    [vm_compute; reflexivity | vm_compute; reflexivity | vm_compute; reflexivity
    | vm_compute; reflexivity | reflexivity | reflexivity | | reflexivity |].
  { repeat constructor; intros _; [exists ops | exists readonly]; vm_compute; reflexivity. }
  rewrite Hbody. vm_compute. reflexivity.
Defined.


Lemma edge_list_streams_matching_names_witness :
  body (rw (final (edgeListPolicy_handler (demo_edge [] None)) edge_list_all quiet)) =
    [ListResponse "ops" 1700000001 "admin" ""; ListResponse "readonly" 1700000000 "admin" ""]
  /\ sentHeader (rw (final (edgeListPolicy_handler (demo_edge [] None)) edge_list_all quiet))
       "Content-Type" = Some ndjson_ContentType.
Proof.
  destruct (edge_list_streams_matching_names (C := memVault) (demo_edge [] None)
              edge_list_all quiet "*"
              {| iter_names := ["ops"; "readonly"]; iter_Close := None |})
    as (_ & _ & Hct & Hbody & _);
    [vm_compute; reflexivity | vm_compute; reflexivity | vm_compute; reflexivity
    | reflexivity | reflexivity | | reflexivity |].
  { repeat constructor; intros _; [exists ops | exists readonly]; vm_compute; reflexivity. }
  split; [rewrite Hbody; vm_compute; reflexivity | exact Hct].
Defined.


Lemma edge_configuration_sets_timeout_only_witness :
  Timeout (edge_API EdgeRead (configure (demo_edge [] None) (edge_Path EdgeDescribe)
                                {| cfg_Timeout := 30 * time.Second |}))
  = 15 * time.Second.
Proof.
  destruct (edge_configuration_sets_timeout_only (C := memVault) (demo_edge [] None)
              EdgeRead EdgeDescribe {| cfg_Timeout := 30 * time.Second |}) as [Htimeout _].
  rewrite Htimeout; [vm_compute; reflexivity | discriminate].
Defined.
